(** * Boundary exchange of AthenaK: status flags, buffers and flux correction

    A shallow embedding of [bvals.cpp] (class [BoundaryValues]) and of
    [flux_correction_cc.cpp] (class [BoundaryValuesCC]).

    Conventions of the embedding.
    - A C++ [int] is a [Z]; signed overflow is undefined in C++ and the loop
      bounds here are small, so no wrap-around is written out.  Integer
      division of the kernels is [Z.quot] (truncation, as in C++).
    - A [Kokkos::View] is a total function from its integer indices to its
      elements; host and device mirrors of a [DualArray] are one function.
    - A [std::vector] is a [list]; [push_back] appends at the end, and an
      indexed store outside the vector (undefined in C++) leaves the list
      as it is.
    - The fixed-length arrays [send_buf] and [recv_buf] are functions from
      the slot index to the buffer.
    - Calls to the message-passing library are recorded, in order, in a log;
      the record of a call that is handed a request handle names the handle
      by its slot and block.  What the library stores in a handle is not
      followed: the request vectors hold what the constructor pushes, and
      no property below speaks of a handle after a call of the library.
    - [Real] is a type with the two operations and two constants the
      kernels use; it is instantiated with [Q] (exact arithmetic) and with
      binary64 floats. *)

From Stdlib Require Import ZArith QArith Lia List Bool.
From Stdlib Require Import Floats.PrimFloat Floats.SpecFloat Floats.FloatOps.
From stdpp Require Import base decidable list numbers sorting.

Local Open Scope Z_scope.

(** ** Numbers of type [Real] *)

Class RealOps (R : Type) := {
  r_add : R -> R -> R;
  r_mul : R -> R -> R;
  r_half : R;      (* the literal 0.5 *)
  r_quarter : R    (* the literal 0.25 *)
}.

#[export] Instance Q_RealOps : RealOps Q :=
  {| r_add := Qplus; r_mul := Qmult; r_half := (1 # 2)%Q; r_quarter := (1 # 4)%Q |}.

(** Binary64 with the operations of IEEE 754, rounding to nearest, ties to
    even: what the kernels compute when [Real] is [double]. *)
#[export] Instance float_RealOps : RealOps float :=
  {| r_add := PrimFloat.add; r_mul := PrimFloat.mul;
     r_half := 0.5%float; r_quarter := 0.25%float |}.

(** ** Enumerations and plain records *)

Inductive BoundaryCommStatus := undef | waiting | received.

#[export] Instance BoundaryCommStatus_eq_dec : EqDecision BoundaryCommStatus.
Proof. solve_decision. Defined.

Inductive TaskStatus := complete | incomplete.

(** Inclusive index window of a buffer and its number of cells. *)
Record BufferIndcs := mkBufferIndcs {
  bis : Z; bie : Z; bjs : Z; bje : Z; bks : Z; bke : Z; ndat : Z
}.

(** One entry of the [nghbr] table of a mesh block. *)
Record NeighborBlock := mkNeighborBlock {
  gid : Z; lev : Z; rank : Z; dest : Z; ccflx : bool
}.

(** A request handle as the constructor leaves it: not yet bound to a
    transfer. *)
Inductive MPI_Request := request_unset.

(** ** Loops *)

(** [for (i = lo; ...; ++i)] running [count] times. *)
Fixpoint for_loop {S : Type} (lo : Z) (count : nat) (body : Z -> S -> S) (s : S) : S :=
  match count with
  | O => s
  | Datatypes.S c => for_loop (lo + 1) c body (body lo s)
  end.

(** [for (i = lo; i < hi; ++i) body]. *)
Definition for_range {S : Type} (lo hi : Z) (body : Z -> S -> S) (s : S) : S :=
  for_loop lo (Z.to_nat (hi - lo)) body s.

(** [for (m = 0; m < nm; ++m) for (n = 0; n < nn; ++n) body]. *)
Definition for_range2 {S : Type} (nm nn : Z) (body : Z -> Z -> S -> S) (s : S) : S :=
  for_range 0 nm (fun m s => for_range 0 nn (fun n s => body m n s) s) s.

(** ** Vectors and arrays *)

Definition vec_get {A : Type} (l : list A) (i : Z) : option A :=
  if decide (0 <= i) then l !! Z.to_nat i else None.

Definition vec_set {A : Type} (l : list A) (i : Z) (x : A) : list A :=
  if decide (0 <= i) then <[Z.to_nat i := x]> l else l.

Definition push_back {A : Type} (l : list A) (x : A) : list A := l ++ [x].

(** In-place change of element [i] of a fixed-length array. *)
Definition arr_upd {A : Type} (a : Z -> A) (i : Z) (g : A -> A) : Z -> A :=
  fun j => if decide (j = i) then g (a j) else a j.

(** ** Mesh, mesh-block pack and global variables *)

Record Mesh := mkMesh {
  one_d : bool; two_d : bool; three_d : bool; multi_d : bool; multilevel : bool;
  cis : Z; cjs : Z; cks : Z      (* mb_indcs.cis, .cjs, .cks *)
}.

Record MeshBlockPack := mkPack {
  pmesh : Mesh;
  nmb_thispack : Z;              (* pmy_pack->nmb_thispack *)
  gids : Z;                      (* pmy_pack->gids, first global id of the pack *)
  nmb : Z;                       (* pmy_pack->pmb->nmb *)
  nnghbr : Z;                    (* pmy_pack->pmb->nnghbr *)
  nghbr : Z -> Z -> NeighborBlock;
  mb_gid : Z -> Z;
  mb_lev : Z -> Z
}.

(** What the functions read from outside the class: the rank of this
    process, the build option [MPI_PARALLEL_ENABLED], the tag functions
    (declared in [bvals.hpp]), the flux tag key, the list of first global
    ids per rank, and the outcome of [MPI_Test] on the flux request of
    receive slot [n], block [m]. *)
Record Globals := mkGlobals {
  my_rank : Z;
  MPI_PARALLEL_ENABLED : bool;
  CreateMPITag : Z -> Z -> Z;
  CreateMPITag_key : Z -> Z -> Z -> Z;
  key : Z;
  gidslist : Z -> Z;
  MPI_Test : Z -> Z -> bool
}.

(** Calls to the message-passing library, in program order.  [Iprobe] is
    the probe for any message from any source with which
    [RecvAndUnpackFluxCC] begins; it is handed no request handle. *)
Inductive MPIEvent :=
| Irecv (slot m : Z) (count source tag : Z)
| Isend (slot m : Z) (count destination tag : Z)
| Wait_recv (slot m : Z)
| Wait_send (slot m : Z)
| Test_flx (slot m : Z)
| Iprobe.

#[export] Instance MPIEvent_eq_dec : EqDecision MPIEvent.
Proof. solve_decision. Defined.

Section Model.
Context {Real : Type} {RO : RealOps Real}.

(** ** Boundary buffers *)

Record BoundaryBuffer := mkBoundaryBuffer {
  same : BufferIndcs; coar : BufferIndcs; fine : BufferIndcs;
  flux0 : BufferIndcs;                       (* flux[0] *)
  data : Z -> Z -> Z -> Real;                (* data(m, v, offset) *)
  var_stat : list BoundaryCommStatus;
  flx_stat : list BoundaryCommStatus;
  var_req : list MPI_Request;
  flx_req : list MPI_Request
}.

Definition set_data (d : Z -> Z -> Z -> Real) (b : BoundaryBuffer) : BoundaryBuffer :=
  mkBoundaryBuffer (same b) (coar b) (fine b) (flux0 b) d
    (var_stat b) (flx_stat b) (var_req b) (flx_req b).

Definition set_var_stat (l : list BoundaryCommStatus) (b : BoundaryBuffer) : BoundaryBuffer :=
  mkBoundaryBuffer (same b) (coar b) (fine b) (flux0 b) (data b)
    l (flx_stat b) (var_req b) (flx_req b).

Definition set_flx_stat (l : list BoundaryCommStatus) (b : BoundaryBuffer) : BoundaryBuffer :=
  mkBoundaryBuffer (same b) (coar b) (fine b) (flux0 b) (data b)
    (var_stat b) l (var_req b) (flx_req b).

Definition set_var_req (l : list MPI_Request) (b : BoundaryBuffer) : BoundaryBuffer :=
  mkBoundaryBuffer (same b) (coar b) (fine b) (flux0 b) (data b)
    (var_stat b) (flx_stat b) l (flx_req b).

Definition set_flx_req (l : list MPI_Request) (b : BoundaryBuffer) : BoundaryBuffer :=
  mkBoundaryBuffer (same b) (coar b) (fine b) (flux0 b) (data b)
    (var_stat b) (flx_stat b) (var_req b) l.

(** A buffer of a newly created object: its vectors are empty; the index
    windows and the view hold whatever [ix] and [d] say. *)
Definition new_buffer (ix : BufferIndcs) (d : Z -> Z -> Z -> Real) : BoundaryBuffer :=
  mkBoundaryBuffer ix ix ix ix d [] [] [] [].

(** The object: both buffer arrays and the log of library calls. *)
Record BoundaryValues := mkBoundaryValues {
  send_buf : Z -> BoundaryBuffer;
  recv_buf : Z -> BoundaryBuffer;
  mpi_log : list MPIEvent
}.

Definition new_BoundaryValues (ix : BufferIndcs) (d : Z -> Z -> Z -> Real) : BoundaryValues :=
  mkBoundaryValues (fun _ => new_buffer ix d) (fun _ => new_buffer ix d) [].

Definition log_event (e : MPIEvent) (bv : BoundaryValues) : BoundaryValues :=
  mkBoundaryValues (send_buf bv) (recv_buf bv) (mpi_log bv ++ [e]).

(** ** The constructor *)

(** The body of the inner loop of the constructor, on one buffer. *)
Definition push_flags (g : Globals) (b : BoundaryBuffer) : BoundaryBuffer :=
  let b := set_var_stat (push_back (var_stat b) undef) b in
  let b := set_flx_stat (push_back (flx_stat b) undef) b in
  if MPI_PARALLEL_ENABLED g then
    let b := set_var_req (push_back (var_req b) request_unset) b in
    set_flx_req (push_back (flx_req b) request_unset) b
  else b.

Definition BoundaryValues_ctor (g : Globals) (pp : MeshBlockPack)
    (ix : BufferIndcs) (d : Z -> Z -> Z -> Real) : BoundaryValues :=
  for_range 0 (nnghbr pp) (fun n bv =>
    for_range 0 (nmb_thispack pp) (fun _ bv =>
      mkBoundaryValues (arr_upd (send_buf bv) n (push_flags g))
                       (arr_upd (recv_buf bv) n (push_flags g))
                       (mpi_log bv)) bv)
    (new_BoundaryValues ix d).

(** ** InitializeBuffers: the diagnostic loop *)

(** One line pair of the diagnostic output: the slot and the flux windows
    read from [send_buf[n]] and [recv_buf[n]]. *)
Definition InitializeBuffers_print (bv : BoundaryValues) (pp : MeshBlockPack)
    : list (Z * BufferIndcs * BufferIndcs) :=
  for_range 0 (nnghbr pp + 1) (fun n out =>
    out ++ [(n, flux0 (send_buf bv n), flux0 (recv_buf bv n))]) [].

Definition printed_slots (out : list (Z * BufferIndcs * BufferIndcs)) : list Z :=
  map (fun l => fst (fst l)) out.

(** ** InitializeBuffers: the buffers set up, in program order *)

(** Modelled from the spec: [MeshBlock::NeighborIndx] is declared outside
    the files at hand.  The neighbor slots are a fixed, order-significant
    enumeration: 2 faces per axis, 4 edges per axis pair, 8 corners, with
    sub-slots for finer neighbors; the slot ranges are those written in
    [InitializeBuffers]: x1 faces 0..7, x2 faces 8..15, x1x2 edges 16..23,
    x3 faces 24..31, x3x1 edges 32..39, x2x3 edges 40..47, corners 48..55.
    Within a range the slots are numbered in the order in which the loops of
    [InitializeBuffers] visit them. *)
Definition NeighborIndx (ix iy iz f1 f2 : Z) : Z :=
  let hi (o : Z) := (1 + o) `quot` 2 in
  if negb (ix =? 0) && (iy =? 0) && (iz =? 0) then 4 * hi ix + 2 * f2 + f1
  else if (ix =? 0) && negb (iy =? 0) && (iz =? 0) then 8 + 4 * hi iy + 2 * f2 + f1
  else if negb (ix =? 0) && negb (iy =? 0) && (iz =? 0) then 16 + 4 * hi iy + 2 * hi ix + f1
  else if (ix =? 0) && (iy =? 0) && negb (iz =? 0) then 24 + 4 * hi iz + 2 * f2 + f1
  else if negb (ix =? 0) && (iy =? 0) && negb (iz =? 0) then 32 + 4 * hi iz + 2 * hi ix + f1
  else if (ix =? 0) && negb (iy =? 0) && negb (iz =? 0) then 40 + 4 * hi iz + 2 * hi iy + f1
  else if negb (ix =? 0) && negb (iy =? 0) && negb (iz =? 0) then 48 + 4 * hi iz + 2 * hi iy + hi ix
  else -1.

(** One pass of a loop body of [InitializeBuffers]: the slot [indx] and the
    arguments handed to [InitSendIndices] and [InitRecvIndices]. *)
Record BufferInit := mkBufferInit {
  bi_indx : Z; bi_ox1 : Z; bi_ox2 : Z; bi_ox3 : Z; bi_f1 : Z; bi_f2 : Z
}.

Definition buffer_init (ox1 ox2 ox3 f1 f2 : Z) : BufferInit :=
  mkBufferInit (NeighborIndx ox1 ox2 ox3 f1 f2) ox1 ox2 ox3 f1 f2.

(** [for (int n=-1; n<=1; n+=2)] *)
Definition minus_plus : list Z := [-1; 1].

Definition InitializeBuffers_calls (ms : Mesh) : list BufferInit :=
  let nfx := if multilevel ms then 2 else 1 in
  let nfy := if multilevel ms && multi_d ms then 2 else 1 in
  let nfz := if multilevel ms && three_d ms then 2 else 1 in
  (* x1 faces *)
  (n ← minus_plus; fz ← seqZ 0 nfz; fy ← seqZ 0 nfy; [buffer_init n 0 0 fy fz])
  ++ (if multi_d ms then
        (* x2 faces *)
        (m ← minus_plus; fz ← seqZ 0 nfz; fx ← seqZ 0 nfx; [buffer_init 0 m 0 fx fz])
        (* x1x2 edges *)
        ++ (m ← minus_plus; n ← minus_plus; fz ← seqZ 0 nfz; [buffer_init n m 0 fz 0])
      else [])
  ++ (if three_d ms then
        (* x3 faces *)
        (l ← minus_plus; fy ← seqZ 0 nfy; fx ← seqZ 0 nfx; [buffer_init 0 0 l fx fy])
        (* x3x1 edges *)
        ++ (l ← minus_plus; n ← minus_plus; fy ← seqZ 0 nfy; [buffer_init n 0 l fy 0])
        (* x2x3 edges *)
        ++ (l ← minus_plus; m ← minus_plus; fx ← seqZ 0 nfx; [buffer_init 0 m l fx 0])
        (* corners *)
        ++ (l ← minus_plus; m ← minus_plus; n ← minus_plus; [buffer_init n m l 0 0])
      else []).

(** The functions of the derived classes and of [BoundaryBuffer] that
    [InitializeBuffers] calls; they are declared outside the files at hand. *)
Record BufferMethods := mkBufferMethods {
  InitSendIndices : BoundaryBuffer -> Z -> Z -> Z -> Z -> Z -> BoundaryBuffer;
  InitRecvIndices : BoundaryBuffer -> Z -> Z -> Z -> Z -> Z -> BoundaryBuffer;
  AllocateDataView : BoundaryBuffer -> Z -> Z -> BoundaryBuffer
}.

Definition init_one_buffer (bm : BufferMethods) (nmb0 nvar : Z) (bv : BoundaryValues)
    (c : BufferInit) : BoundaryValues :=
  let indx := bi_indx c in
  mkBoundaryValues
    (arr_upd (send_buf bv) indx (fun b =>
       AllocateDataView bm
         (InitSendIndices bm b (bi_ox1 c) (bi_ox2 c) (bi_ox3 c) (bi_f1 c) (bi_f2 c))
         nmb0 nvar))
    (arr_upd (recv_buf bv) indx (fun b =>
       AllocateDataView bm
         (InitRecvIndices bm b (bi_ox1 c) (bi_ox2 c) (bi_ox3 c) (bi_f1 c) (bi_f2 c))
         nmb0 nvar))
    (mpi_log bv).

(** The function returns nothing; its result here is the object and the
    diagnostic output. *)
Definition InitializeBuffers (bm : BufferMethods) (pp : MeshBlockPack) (nvar : Z)
    (bv : BoundaryValues) : BoundaryValues * list (Z * BufferIndcs * BufferIndcs) :=
  let bv' := foldl (init_one_buffer bm (nmb_thispack pp) nvar) bv
                   (InitializeBuffers_calls (pmesh pp)) in
  (bv', InitializeBuffers_print bv' pp).

(** ** InitRecv, ClearRecv, ClearSend *)

Definition neighbor_exists (pp : MeshBlockPack) (m n : Z) : bool :=
  0 <=? gid (nghbr pp m n).

Definition on_my_rank (g : Globals) (pp : MeshBlockPack) (m n : Z) : bool :=
  rank (nghbr pp m n) =? my_rank g.

(** The count of the receive posted for block [m], slot [n]. *)
Definition recv_data_size (pp : MeshBlockPack) (bv : BoundaryValues) (nvar m n : Z) : Z :=
  if lev (nghbr pp m n) <? mb_lev pp m then ndat (coar (recv_buf bv n)) * nvar
  else if lev (nghbr pp m n) =? mb_lev pp m then ndat (same (recv_buf bv n)) * nvar
  else ndat (fine (recv_buf bv n)) * nvar.

Definition set_waiting (m : Z) (b : BoundaryBuffer) : BoundaryBuffer :=
  let b := set_var_stat (vec_set (var_stat b) m waiting) b in
  set_flx_stat (vec_set (flx_stat b) m waiting) b.

Definition InitRecv_body (g : Globals) (pp : MeshBlockPack) (nvar m n : Z)
    (bv : BoundaryValues) : BoundaryValues :=
  if neighbor_exists pp m n then
    let bv :=
      if MPI_PARALLEL_ENABLED g && negb (on_my_rank g pp m n) then
        log_event (Irecv n m (recv_data_size pp bv nvar m n)
                         (rank (nghbr pp m n)) (CreateMPITag g m n)) bv
      else bv in
    mkBoundaryValues (send_buf bv) (arr_upd (recv_buf bv) n (set_waiting m)) (mpi_log bv)
  else bv.

Definition InitRecv (g : Globals) (pp : MeshBlockPack) (nvar : Z) (bv : BoundaryValues)
    : BoundaryValues * TaskStatus :=
  (for_range2 (nmb_thispack pp) (nnghbr pp) (InitRecv_body g pp nvar) bv, complete).

Definition Clear_body (g : Globals) (pp : MeshBlockPack) (wait : Z -> Z -> MPIEvent)
    (m n : Z) (bv : BoundaryValues) : BoundaryValues :=
  if neighbor_exists pp m n then
    if negb (on_my_rank g pp m n) then log_event (wait n m) bv else bv
  else bv.

Definition Clear_loop (g : Globals) (pp : MeshBlockPack) (wait : Z -> Z -> MPIEvent)
    (bv : BoundaryValues) : BoundaryValues :=
  if MPI_PARALLEL_ENABLED g then
    for_range2 (nmb_thispack pp) (nnghbr pp) (Clear_body g pp wait) bv
  else bv.

Definition ClearRecv (g : Globals) (pp : MeshBlockPack) (bv : BoundaryValues)
    : BoundaryValues * TaskStatus :=
  (Clear_loop g pp Wait_recv bv, complete).

Definition ClearSend (g : Globals) (pp : MeshBlockPack) (bv : BoundaryValues)
    : BoundaryValues * TaskStatus :=
  (Clear_loop g pp Wait_send bv, complete).

(** ** Flux correction: the face-centred flux arrays *)

(** [DvceFaceFld5D<Real>]: three views indexed (m, v, k, j, i), and the
    extent of the second index of [x1f]. *)
Record DvceFaceFld5D := mkFaceFld {
  x1f : Z -> Z -> Z -> Z -> Z -> Real;
  x2f : Z -> Z -> Z -> Z -> Z -> Real;
  x3f : Z -> Z -> Z -> Z -> Z -> Real;
  x1f_extent1 : Z
}.

Inductive Face := X1face | X2face | X3face.

#[export] Instance Face_eq_dec : EqDecision Face.
Proof. solve_decision. Defined.

Definition face_view (flx : DvceFaceFld5D) (f : Face) : Z -> Z -> Z -> Z -> Z -> Real :=
  match f with X1face => x1f flx | X2face => x2f flx | X3face => x3f flx end.

(** The branch [n<8], [n<16], else, of both kernels. *)
Definition face_of_slot (n : Z) : Face :=
  if n <? 8 then X1face else if n <? 16 then X2face else X3face.

(** An assignment [flx.xNf(m,v,k,j,i) = val] of the unpack kernel. *)
Record FluxStore := mkFluxStore {
  fs_face : Face; fs_m : Z; fs_v : Z; fs_k : Z; fs_j : Z; fs_i : Z; fs_val : Real
}.

Definition view5_set (a : Z -> Z -> Z -> Z -> Z -> Real) (m v k j i : Z) (x : Real)
    : Z -> Z -> Z -> Z -> Z -> Real :=
  fun m' v' k' j' i' =>
    if decide (m' = m /\ v' = v /\ k' = k /\ j' = j /\ i' = i) then x else a m' v' k' j' i'.

Definition apply_flux_store (flx : DvceFaceFld5D) (s : FluxStore) : DvceFaceFld5D :=
  match fs_face s with
  | X1face => mkFaceFld (view5_set (x1f flx) (fs_m s) (fs_v s) (fs_k s) (fs_j s) (fs_i s) (fs_val s))
                        (x2f flx) (x3f flx) (x1f_extent1 flx)
  | X2face => mkFaceFld (x1f flx)
                        (view5_set (x2f flx) (fs_m s) (fs_v s) (fs_k s) (fs_j s) (fs_i s) (fs_val s))
                        (x3f flx) (x1f_extent1 flx)
  | X3face => mkFaceFld (x1f flx) (x2f flx)
                        (view5_set (x3f flx) (fs_m s) (fs_v s) (fs_k s) (fs_j s) (fs_i s) (fs_val s))
                        (x1f_extent1 flx)
  end.

(** An assignment [rbuf[slot].data(m,v,off) = val] or
    [sbuf[slot].data(m,v,off) = val] of the pack kernel. *)
Inductive BufSide := ToRecv | ToSend.

#[export] Instance BufSide_eq_dec : EqDecision BufSide.
Proof. solve_decision. Defined.

Record BufStore := mkBufStore {
  bs_side : BufSide; bs_slot : Z; bs_m : Z; bs_v : Z; bs_off : Z; bs_val : Real
}.

Definition view3_set (a : Z -> Z -> Z -> Real) (m v o : Z) (x : Real) : Z -> Z -> Z -> Real :=
  fun m' v' o' => if decide (m' = m /\ v' = v /\ o' = o) then x else a m' v' o'.

Definition apply_buf_store (bv : BoundaryValues) (s : BufStore) : BoundaryValues :=
  let wr (b : BoundaryBuffer) := set_data (view3_set (data b) (bs_m s) (bs_v s) (bs_off s) (bs_val s)) b in
  match bs_side s with
  | ToRecv => mkBoundaryValues (send_buf bv) (arr_upd (recv_buf bv) (bs_slot s) wr) (mpi_log bv)
  | ToSend => mkBoundaryValues (arr_upd (send_buf bv) (bs_slot s) wr) (recv_buf bv) (mpi_log bv)
  end.

(** The position in the flattened buffer of cell (i,j,k) of the window
    [w]: [i-il + ni*(j-jl + nj*(k-kl))], the expression of both kernels. *)
Definition buf_offset (w : BufferIndcs) (i j k : Z) : Z :=
  let ni := bie w - bis w + 1 in
  let nj := bje w - bjs w + 1 in
  i - bis w + ni * (j - bjs w + nj * (k - bks w)).

(** The three indices of one team: [league_rank] split into block, slot
    and variable. *)
Definition team_m (pp : MeshBlockPack) (nvar r : Z) : Z := r `quot` (nnghbr pp * nvar).
Definition team_n (pp : MeshBlockPack) (nvar r : Z) : Z :=
  (r - team_m pp nvar r * (nnghbr pp * nvar)) `quot` nvar.
Definition team_v (pp : MeshBlockPack) (nvar r : Z) : Z :=
  r - team_m pp nvar r * (nnghbr pp * nvar) - team_n pp nvar r * nvar.

(** The cells (k, j, i) of the window [w] in the order of the two inner
    loops: [idx] over [nk*nj], then [i] from [il] to [iu]. *)
Definition window_cells (w : BufferIndcs) : list (Z * Z * Z) :=
  let nj := bje w - bjs w + 1 in
  let nk := bke w - bks w + 1 in
  let nkj := nk * nj in
  idx ← seqZ 0 nkj;
  let k0 := idx `quot` nj in
  let j := (idx - k0 * nj) + bjs w in
  let k := k0 + bks w in
  i ← seqZ (bis w) (bie w + 1 - bis w);
  [(k, j, i)].

(** ** PackAndSendFluxCC *)

Definition pack_guard (pp : MeshBlockPack) (m n : Z) : bool :=
  ccflx (nghbr pp m n) && (lev (nghbr pp m n) <? mb_lev pp m).

(** The restricted flux at coarse cell (k, j, i) of slot [n]. *)
Definition restricted_flux (ms : Mesh) (flx : DvceFaceFld5D) (n m v k j i : Z) : Real :=
  let fi := 2 * i - cis ms in
  let fj := 2 * j - cjs ms in
  let fk := 2 * k - cks ms in
  if n <? 8 then
    if one_d ms then x1f flx m v 0 0 fi
    else if two_d ms then
      r_mul r_half (r_add (x1f flx m v 0 fj fi) (x1f flx m v 0 (fj + 1) fi))
    else
      r_mul r_quarter
        (r_add (r_add (r_add (x1f flx m v fk fj fi) (x1f flx m v fk (fj + 1) fi))
                      (x1f flx m v (fk + 1) fj fi))
               (x1f flx m v (fk + 1) (fj + 1) fi))
  else if n <? 16 then
    if two_d ms then
      r_mul r_half (r_add (x2f flx m v 0 fj fi) (x2f flx m v 0 fj (fi + 1)))
    else
      r_mul r_quarter
        (r_add (r_add (r_add (x2f flx m v fk fj fi) (x2f flx m v fk fj (fi + 1)))
                      (x2f flx m v (fk + 1) fj fi))
               (x2f flx m v (fk + 1) fj (fi + 1)))
  else
    r_mul r_quarter
      (r_add (r_add (r_add (x3f flx m v fk fj fi) (x3f flx m v fk fj (fi + 1)))
                    (x3f flx m v fk (fj + 1) fi))
             (x3f flx m v fk (fj + 1) (fi + 1))).

(** The assignments of the team of block [m], slot [n], variable [v]. *)
Definition pack_team_stores (g : Globals) (pp : MeshBlockPack) (flx : DvceFaceFld5D)
    (bv : BoundaryValues) (m n v : Z) : list BufStore :=
  if pack_guard pp m n then
    let w := flux0 (send_buf bv n) in
    let mm := gid (nghbr pp m n) - mb_gid pp 0 in
    let nn := dest (nghbr pp m n) in
    '(k, j, i) ← window_cells w;
    let rflx := restricted_flux (pmesh pp) flx n m v k j i in
    if rank (nghbr pp m n) =? my_rank g
    then [mkBufStore ToRecv nn mm v (buf_offset w i j k) rflx]
    else [mkBufStore ToSend n m v (buf_offset w i j k) rflx]
  else [].

(** All assignments of the kernel, teams in the order of their league
    rank.  The kernel leaves the order of the teams open; the assignments
    of one run are these, in some order. *)
Definition pack_kernel_stores (g : Globals) (pp : MeshBlockPack) (flx : DvceFaceFld5D)
    (bv : BoundaryValues) : list BufStore :=
  let nvar := x1f_extent1 flx in
  r ← seqZ 0 (nmb pp * nnghbr pp * nvar);
  pack_team_stores g pp flx bv (team_m pp nvar r) (team_n pp nvar r) (team_v pp nvar r).

Definition pack_kernel (g : Globals) (pp : MeshBlockPack) (flx : DvceFaceFld5D)
    (bv : BoundaryValues) : BoundaryValues :=
  foldl apply_buf_store bv (pack_kernel_stores g pp flx bv).

Definition set_flx_received (mm : Z) (b : BoundaryBuffer) : BoundaryBuffer :=
  set_flx_stat (vec_set (flx_stat b) mm received) b.

(** The body of the host loop that follows the kernel. *)
Definition send_body (g : Globals) (pp : MeshBlockPack) (nvar m n : Z)
    (bv : BoundaryValues) : BoundaryValues :=
  if neighbor_exists pp m n then
    let nn := dest (nghbr pp m n) in
    if on_my_rank g pp m n then
      let mm := gid (nghbr pp m n) - gids pp in
      mkBoundaryValues (send_buf bv) (arr_upd (recv_buf bv) nn (set_flx_received mm))
                       (mpi_log bv)
    else if MPI_PARALLEL_ENABLED g then
      let lid := gid (nghbr pp m n) - gidslist g (rank (nghbr pp m n)) in
      let tag := CreateMPITag_key g lid nn (key g) in
      let data_size := ndat (flux0 (send_buf bv n)) * nvar in
      log_event (Isend n m data_size (rank (nghbr pp m n)) tag) bv
    else bv
  else bv.

Definition PackAndSendFluxCC (g : Globals) (pp : MeshBlockPack) (flx : DvceFaceFld5D)
    (bv : BoundaryValues) : BoundaryValues * TaskStatus :=
  let nvar := x1f_extent1 flx in
  let bv := pack_kernel g pp flx bv in
  (for_range2 (nmb pp) (nnghbr pp) (send_body g pp nvar) bv, complete).

(** ** RecvAndUnpackFluxCC *)

(** The body of the loop of step 1, on the object and [bflag]. *)
Definition check_body (g : Globals) (pp : MeshBlockPack) (m n : Z)
    (st : BoundaryValues * bool) : BoundaryValues * bool :=
  let '(bv, bflag) := st in
  if neighbor_exists pp m n then
    if on_my_rank g pp m n then
      if decide (vec_get (flx_stat (recv_buf bv n)) m = Some waiting)
      then (bv, true) else (bv, bflag)
    else if MPI_PARALLEL_ENABLED g then
      let bv := log_event (Test_flx n m) bv in
      if MPI_Test g n m then
        (mkBoundaryValues (send_buf bv) (arr_upd (recv_buf bv) n (set_flx_received m))
                          (mpi_log bv), bflag)
      else (bv, true)
    else (bv, bflag)
  else (bv, bflag).

Definition check_received (g : Globals) (pp : MeshBlockPack) (bv : BoundaryValues)
    : BoundaryValues * bool :=
  for_range2 (nmb pp) (nnghbr pp) (check_body g pp) (bv, false).

Definition unpack_guard (pp : MeshBlockPack) (m n : Z) : bool :=
  ccflx (nghbr pp m n) && (lev (nghbr pp m n) >? mb_lev pp m).

Definition unpack_team_stores (pp : MeshBlockPack) (bv : BoundaryValues) (m n v : Z)
    : list FluxStore :=
  if unpack_guard pp m n then
    let w := flux0 (recv_buf bv n) in
    '(k, j, i) ← window_cells w;
    [mkFluxStore (face_of_slot n) m v k j i (data (recv_buf bv n) m v (buf_offset w i j k))]
  else [].

Definition unpack_kernel_stores (pp : MeshBlockPack) (nvar : Z) (bv : BoundaryValues)
    : list FluxStore :=
  r ← seqZ 0 (nmb pp * nnghbr pp * nvar);
  unpack_team_stores pp bv (team_m pp nvar r) (team_n pp nvar r) (team_v pp nvar r).

Definition unpack_kernel (pp : MeshBlockPack) (flx : DvceFaceFld5D) (bv : BoundaryValues)
    : DvceFaceFld5D :=
  foldl apply_flux_store flx (unpack_kernel_stores pp (x1f_extent1 flx) bv).

(** The probe with which the function begins, with the message-passing
    library; its outcome is not used. *)
Definition probe (g : Globals) (bv : BoundaryValues) : BoundaryValues :=
  if MPI_PARALLEL_ENABLED g then log_event Iprobe bv else bv.

(** The result is the object, the flux arrays and the returned status. *)
Definition RecvAndUnpackFluxCC (g : Globals) (pp : MeshBlockPack) (flx : DvceFaceFld5D)
    (bv : BoundaryValues) : BoundaryValues * DvceFaceFld5D * TaskStatus :=
  let '(bv, bflag) := check_received g pp (probe g bv) in
  if bflag then (bv, flx, incomplete)
  else (bv, unpack_kernel pp flx bv, complete).

End Model.

Arguments BoundaryBuffer : clear implicits.
Arguments DvceFaceFld5D : clear implicits.
Arguments FluxStore : clear implicits.
Arguments BufStore : clear implicits.
Arguments BoundaryValues : clear implicits.
Arguments BufferMethods : clear implicits.

(** * Predicates of the statements

    None of what follows is code of the program: these are the words in
    which the properties are stated, the descriptions of the effect of a
    loop that the proofs compare the loop with, and the small mesh on which
    the theorems are tried. *)

Section Predicates.
Context {Real : Type} {RO : RealOps Real}.

(** *** Status vectors *)

(** Both status vectors of a buffer hold [k] entries, all [undef]. *)
Definition all_undef (k : nat) (b : BoundaryBuffer Real) : Prop :=
  var_stat b = replicate k undef /\ flx_stat b = replicate k undef.

(** The status vectors of the receive buffers have an entry for every block
    of the pack, as the constructor leaves them. *)
Definition stat_room (pp : MeshBlockPack) (t : BoundaryValues Real) : Prop :=
  forall n, 0 <= n < nnghbr pp ->
    nmb_thispack pp <= Z.of_nat (length (var_stat (recv_buf t n))) /\
    nmb_thispack pp <= Z.of_nat (length (flx_stat (recv_buf t n))).

(** Both receive flags of block [m], slot [n] are [waiting]. *)
Definition marked_waiting (m n : Z) (t : BoundaryValues Real) : Prop :=
  vec_get (var_stat (recv_buf t n)) m = Some waiting /\
  vec_get (flx_stat (recv_buf t n)) m = Some waiting.

(** The flux receive flag of block [m], slot [n] is not [waiting]. *)
Definition not_waiting (m n : Z) (t : BoundaryValues Real) : Prop :=
  vec_get (flx_stat (recv_buf t n)) m <> Some waiting.

(** The flux receive flag of block index [mm], slot [nn] is [received]. *)
Definition flux_received (mm nn : Z) (t : BoundaryValues Real) : Prop :=
  vec_get (flx_stat (recv_buf t nn)) mm = Some received.

(** *** What the host loops add to the log *)

(** The receive that the pass (m, n) of [InitRecv] posts, if any. *)
Definition InitRecv_posts (g : Globals) (pp : MeshBlockPack) (nvar : Z)
    (bv : BoundaryValues Real) (m n : Z) : list MPIEvent :=
  if neighbor_exists pp m n && (MPI_PARALLEL_ENABLED g && negb (on_my_rank g pp m n))
  then [Irecv n m (recv_data_size pp bv nvar m n) (rank (nghbr pp m n)) (CreateMPITag g m n)]
  else [].

(** All the waits of [ClearRecv] or [ClearSend], in program order. *)
Definition Clear_waits (g : Globals) (pp : MeshBlockPack) (wait : Z -> Z -> MPIEvent)
    : list MPIEvent :=
  if MPI_PARALLEL_ENABLED g then
    m ← seqZ 0 (nmb_thispack pp); n ← seqZ 0 (nnghbr pp);
    if neighbor_exists pp m n && negb (on_my_rank g pp m n) then [wait n m] else []
  else [].

(** The send that the pass (m, n) of the loop after the pack kernel
    issues, if any. *)
Definition send_posts (g : Globals) (pp : MeshBlockPack) (nvar : Z)
    (bv : BoundaryValues Real) (m n : Z) : list MPIEvent :=
  if neighbor_exists pp m n && (negb (on_my_rank g pp m n) && MPI_PARALLEL_ENABLED g)
  then [Isend n m (ndat (flux0 (send_buf bv n)) * nvar) (rank (nghbr pp m n))
              (CreateMPITag_key g (gid (nghbr pp m n) - gidslist g (rank (nghbr pp m n)))
                                (dest (nghbr pp m n)) (key g))]
  else [].

(** *** What the loops leave alone *)

(** The three windows of every receive buffer are those of [bv]. *)
Definition same_windows (bv t : BoundaryValues Real) : Prop :=
  forall n, coar (recv_buf t n) = coar (recv_buf bv n) /\
            same (recv_buf t n) = same (recv_buf bv n) /\
            fine (recv_buf t n) = fine (recv_buf bv n).

(** Everything of a buffer but its view. *)
Definition buffer_frame (b : BoundaryBuffer Real) :=
  (same b, coar b, fine b, flux0 b, var_stat b, flx_stat b, var_req b, flx_req b).

(** What step 1 of [RecvAndUnpackFluxCC] keeps: everything but the flux
    receive flags and the log. *)
Definition check_frame (bv t : BoundaryValues Real) : Prop :=
  send_buf t = send_buf bv /\
  forall n, flux0 (recv_buf t n) = flux0 (recv_buf bv n) /\
            data (recv_buf t n) = data (recv_buf bv n) /\
            var_stat (recv_buf t n) = var_stat (recv_buf bv n).

(** Step 1 leaves the flux receive flags of same-rank pairs as they are. *)
Definition same_rank_flags_kept (g : Globals) (pp : MeshBlockPack)
    (bv t : BoundaryValues Real) : Prop :=
  forall m n, on_my_rank g pp m n = true ->
    vec_get (flx_stat (recv_buf t n)) m = vec_get (flx_stat (recv_buf bv n)) m.

(** What the host loop after the pack kernel keeps: everything but the
    flux receive flags and the log. *)
Definition send_frame (bv t : BoundaryValues Real) : Prop :=
  send_buf t = send_buf bv /\
  forall n, flux0 (recv_buf t n) = flux0 (recv_buf bv n) /\
            data (recv_buf t n) = data (recv_buf bv n) /\
            length (flx_stat (recv_buf t n)) = length (flx_stat (recv_buf bv n)).

(** *** InitializeBuffers *)

(** The send buffer that one pass of [InitializeBuffers] leaves in a
    slot. *)
Definition initialized_send (bm : BufferMethods Real) (nmb0 nvar : Z) (c : BufferInit)
    (b : BoundaryBuffer Real) : BoundaryBuffer Real :=
  AllocateDataView bm
    (InitSendIndices bm b (bi_ox1 c) (bi_ox2 c) (bi_ox3 c) (bi_f1 c) (bi_f2 c)) nmb0 nvar.

(** The receive buffer that one pass of [InitializeBuffers] leaves in a
    slot. *)
Definition initialized_recv (bm : BufferMethods Real) (nmb0 nvar : Z) (c : BufferInit)
    (b : BoundaryBuffer Real) : BoundaryBuffer Real :=
  AllocateDataView bm
    (InitRecvIndices bm b (bi_ox1 c) (bi_ox2 c) (bi_ox3 c) (bi_f1 c) (bi_f2 c)) nmb0 nvar.

(** *** Assignments of the kernels *)

(** The assignment [s] writes element (m, v, k, j, i) of face array [f]. *)
Definition flux_target (s : FluxStore Real) (f : Face) (m v k j i : Z) : Prop :=
  fs_face s = f /\ fs_m s = m /\ fs_v s = v /\ fs_k s = k /\ fs_j s = j /\ fs_i s = i.

#[export] Instance flux_target_dec s f m v k j i : Decision (flux_target s f m v k j i).
Proof. unfold flux_target. apply _. Defined.

(** The view of the receive or send buffer of a slot. *)
Definition buf_view (bv : BoundaryValues Real) (side : BufSide) (slot : Z)
    : Z -> Z -> Z -> Real :=
  data (match side with ToRecv => recv_buf bv slot | ToSend => send_buf bv slot end).

(** The assignment [s] writes element (m, v, off) of the view of [slot]
    on [side]. *)
Definition buf_target (s : BufStore Real) (side : BufSide) (slot m v off : Z) : Prop :=
  bs_side s = side /\ bs_slot s = slot /\ bs_m s = m /\ bs_v s = v /\ bs_off s = off.

#[export] Instance buf_target_dec s side slot m v off : Decision (buf_target s side slot m v off).
Proof. unfold buf_target. apply _. Defined.

(** *** The neighbor table *)

(** Slot [n] is the only unpacking slot of block [m], among those of its
    face array, whose window holds the cell (k, j, i). *)
Definition sole_unpacker (pp : MeshBlockPack) (bv : BoundaryValues Real) (m n k j i : Z)
    : Prop :=
  forall n2, 0 <= n2 < nnghbr pp -> unpack_guard pp m n2 = true ->
    face_of_slot n2 = face_of_slot n ->
    (k, j, i) ∈ window_cells (flux0 (recv_buf bv n2)) -> n2 = n.

(** Block [m], slot [n] is the only same-rank packing pair whose data goes
    to slot [nn] of block index [mm]: each receive buffer has one sender. *)
Definition sole_sender (g : Globals) (pp : MeshBlockPack) (m n mm nn : Z) : Prop :=
  forall m2 n2, 0 <= m2 < nmb pp -> 0 <= n2 < nnghbr pp ->
    pack_guard pp m2 n2 = true -> rank (nghbr pp m2 n2) = my_rank g ->
    dest (nghbr pp m2 n2) = nn -> gid (nghbr pp m2 n2) - mb_gid pp 0 = mm ->
    (m2, n2) = (m, n).

(** A pair that holds the exchange back: a same-rank pair still waiting,
    or a pair of another rank whose receive has not completed when
    polled. *)
Definition outstanding (g : Globals) (pp : MeshBlockPack) (bv : BoundaryValues Real)
    (m n : Z) : Prop :=
  gid (nghbr pp m n) >= 0 /\
  ((rank (nghbr pp m n) = my_rank g /\
    vec_get (flx_stat (recv_buf bv n)) m = Some waiting) \/
   (rank (nghbr pp m n) <> my_rank g /\ MPI_PARALLEL_ENABLED g = true /\
    MPI_Test g n m = false)).

End Predicates.

(** *** Events *)

Definition is_Irecv_for (n m : Z) (e : MPIEvent) : bool :=
  match e with Irecv s b _ _ _ => (s =? n) && (b =? m) | _ => false end.

Definition is_Isend_for (n m : Z) (e : MPIEvent) : bool :=
  match e with Isend s b _ _ _ => (s =? n) && (b =? m) | _ => false end.

(** *** Slots and directions *)

(** The slot range that the comments of [InitializeBuffers] give for the
    class of the direction (ox1, ox2, ox3): faces, edges, corners. *)
Definition slot_range (ox1 ox2 ox3 : Z) : Z * Z :=
  match negb (ox1 =? 0), negb (ox2 =? 0), negb (ox3 =? 0) with
  | true, false, false => (0, 7)
  | false, true, false => (8, 15)
  | true, true, false => (16, 23)
  | false, false, true => (24, 31)
  | true, false, true => (32, 39)
  | false, true, true => (40, 47)
  | true, true, true => (48, 55)
  | false, false, false => (-1, -1)
  end.

Definition in_slot_range (c : BufferInit) : Prop :=
  fst (slot_range (bi_ox1 c) (bi_ox2 c) (bi_ox3 c)) <= bi_indx c
    <= snd (slot_range (bi_ox1 c) (bi_ox2 c) (bi_ox3 c)).

#[export] Instance in_slot_range_dec c : Decision (in_slot_range c).
Proof. unfold in_slot_range. apply _. Defined.

Definition direction (c : BufferInit) : Z * Z * Z := (bi_ox1 c, bi_ox2 c, bi_ox3 c).

(** The values of one component of a direction. *)
Definition unit_offsets : list Z := [-1; 0; 1].

(** *** Windows *)

(** Cell (k, j, i) lies in the inclusive window [w]. *)
Definition in_window (w : BufferIndcs) (k j i : Z) : Prop :=
  bis w <= i <= bie w /\ bjs w <= j <= bje w /\ bks w <= k <= bke w.

(** *** Restriction, in the words of the specification *)

(** Indices along an axis across the face: the two fine indices under
    the coarse one where the mesh extends along the axis, index 0 where it
    does not. *)
Definition transverse (extended : bool) (f : Z) : list Z :=
  if extended then [f; f + 1] else [0].

(** The fine faces (k, j, i) lying under the coarse face (k, j, i) of the
    face array [face]: the fine face index along the normal is that of the
    coarse face doubled, and across the face both fine cells count.  This
    follows the words of the specification; [restricted_flux] follows the
    code. *)
Definition fine_faces_under (ms : Mesh) (face : Face) (k j i : Z) : list (Z * Z * Z) :=
  let fi := 2 * i - cis ms in
  let fj := 2 * j - cjs ms in
  let fk := 2 * k - cks ms in
  let ext2 := negb (one_d ms) in
  let ext3 := negb (one_d ms) && negb (two_d ms) in
  match face with
  | X1face => kk ← transverse ext3 fk; jj ← transverse ext2 fj; [(kk, jj, fi)]
  | X2face => kk ← transverse ext3 fk; ii ← transverse true fi; [(kk, fj, ii)]
  | X3face => jj ← transverse true fj; ii ← transverse true fi; [(fk, jj, ii)]
  end.

Definition Qsum (l : list Q) : Q := foldr Qplus 0%Q l.

(** Equal-weight arithmetic mean. *)
Definition Qmean (l : list Q) : Q := (Qsum l / inject_Z (Z.of_nat (length l)))%Q.

(** Number of fine faces under a coarse face: 1 in 1-D, 2 in 2-D, 4 in 3-D. *)
Definition faces_per_coarse (ms : Mesh) : nat :=
  if one_d ms then 1%nat else if two_d ms then 2%nat else 4%nat.

(** The face slots that exist for the dimensions of the mesh: x1 faces
    (slots below 8) in 1-D, x1 and x2 faces (slots below 16) in 2-D. *)
Definition face_slot_of_mesh (ms : Mesh) (n : Z) : Prop :=
  (one_d ms = true -> n < 8) /\ (two_d ms = true -> n < 16).

(** The values of a face array at a list of places. *)
Definition fine_values {Real : Type} (flx : DvceFaceFld5D Real) (face : Face) (m v : Z)
    (cells : list (Z * Z * Z)) : list Real :=
  map (fun '(kk, jj, ii) => face_view flx face m v kk jj ii) cells.

(** The average of one, two or four values in the arithmetic of [Real]:
    one value is taken as it is, two are added and multiplied by 0.5, four
    are added from left to right and multiplied by 0.25.  With
    [fine_faces_under] this says in words of its own what is averaged and
    how; [restricted_flux] follows the code. *)
Definition computed_mean {Real : Type} {RO : RealOps Real} (l : list Real) : option Real :=
  match l with
  | [a] => Some a
  | [a; b] => Some (r_mul r_half (r_add a b))
  | [a; b; c; d] => Some (r_mul r_quarter (r_add (r_add (r_add a b) c) d))
  | _ => None
  end.

(** The rational number that a finite binary64 value stands for, in lowest
    terms. *)
Definition float_value (x : float) : option Q :=
  match Prim2SF x with
  | S754_zero _ => Some 0%Q
  | S754_finite s m e =>
      Some (Qred ((if s then -1 else 1) * inject_Z (Z.pos m) * (2 ^ e)))%Q
  | _ => None
  end.

(** ** A pack of two blocks across a refinement jump *)

(** A three-dimensional multilevel mesh. *)
Definition cube_mesh : Mesh := mkMesh false false true true true 0 0 0.

(** Fine fluxes 1, 2, 3, 4 on the four x1-faces under coarse face (0,0,0). *)
Definition flux_1234 : DvceFaceFld5D float :=
  mkFaceFld (fun _ _ k j _ => if k =? 0 then (if j =? 0 then 1%float else 2%float)
                              else (if j =? 0 then 3%float else 4%float))
            (fun _ _ _ _ _ => 0%float) (fun _ _ _ _ _ => 0%float) 1.

(** Fine fluxes 1e16, 1, -1e16, 1 on the four x1-faces under coarse face
    (0,0,0), in the order in which the kernel adds them. *)
Definition flux_cancel : DvceFaceFld5D float :=
  mkFaceFld (fun _ _ k j _ => if k =? 0 then (if j =? 0 then 1e16%float else 1%float)
                              else (if j =? 0 then (-1e16)%float else 1%float))
            (fun _ _ _ _ _ => 0%float) (fun _ _ _ _ _ => 0%float) 1.

(** Window of one coarse x1-face column: i = 0, j and k in 0..1. *)
Definition ex_window : BufferIndcs := mkBufferIndcs 0 0 0 1 0 1 4.

Definition no_neighbor : NeighborBlock := mkNeighborBlock (-1) 0 0 0 false.

(** Block 0 (level 1) meets block 1 (level 0) across an x1 face: slot 0 of
    block 0 leads to slot 4 of block 1 and back.  Both blocks are on rank
    0, and no other slot has a neighbor. *)
Definition ex_nghbr (m n : Z) : NeighborBlock :=
  if (m =? 0) && (n =? 0) then mkNeighborBlock 1 0 0 4 true
  else if (m =? 1) && (n =? 4) then mkNeighborBlock 0 1 0 0 true
  else no_neighbor.

(** Blocks 0 and 1 (global ids 0 and 1), 56 slots each. *)
Definition ex_pack : MeshBlockPack :=
  mkPack cube_mesh 2 0 2 56 ex_nghbr (fun m => m) (fun m => if m =? 0 then 1 else 0).

(** The same two blocks at one level. *)
Definition ex_pack_same_level : MeshBlockPack :=
  mkPack cube_mesh 2 0 2 56 ex_nghbr (fun m => m) (fun _ => 0).

(** Block 0 (level 1) meets, across the same face, a coarser block of
    global id 2 that rank 1 owns. *)
Definition ex_nghbr_remote (m n : Z) : NeighborBlock :=
  if (m =? 0) && (n =? 0) then mkNeighborBlock 2 0 1 4 true else no_neighbor.

Definition ex_pack_remote : MeshBlockPack :=
  mkPack cube_mesh 2 0 2 56 ex_nghbr_remote (fun m => m) (fun _ => 1).

(** This process is rank 0, in the message-passing build; every rank owns
    two blocks; [test] is what every [MPI_Test] reports. *)
Definition ex_globals (test : bool) : Globals :=
  mkGlobals 0 true (fun m n => m * 56 + n) (fun lid nn k => (lid * 56 + nn) * 2 + k) 1
            (fun r => 2 * r) (fun _ _ => test).

(** One variable; the x1 fluxes of block [m] are 10m+1 .. 10m+4 over the
    four (k, j) places. *)
Definition ex_flux : DvceFaceFld5D Q :=
  mkFaceFld (fun m _ k j _ => inject_Z (10 * m + 2 * k + j + 1))
            (fun _ _ _ _ _ => 0%Q) (fun _ _ _ _ _ => 0%Q) 1.

(** The object after the constructor, every view holding 7. *)
Definition ex_new (pp : MeshBlockPack) : BoundaryValues Q :=
  BoundaryValues_ctor (ex_globals true) pp ex_window (fun _ _ _ => 7%Q).

(** The object after the constructor, with binary64 views holding 0. *)
Definition ex_new_float (pp : MeshBlockPack) : BoundaryValues float :=
  BoundaryValues_ctor (ex_globals true) pp ex_window (fun _ _ _ => 0%float).

(** The object after the constructor and [InitRecv]. *)
Definition ex_posted (pp : MeshBlockPack) : BoundaryValues Q :=
  fst (InitRecv (ex_globals true) pp 1 (ex_new pp)).

(** Index and allocation functions that leave a buffer as it is. *)
Definition ex_methods : BufferMethods Q :=
  mkBufferMethods (fun b _ _ _ _ _ => b) (fun b _ _ _ _ _ => b) (fun b _ _ => b).

(** ** Predicates of the further properties *)

(** *** Windows and offsets *)

(** The number of passes of the two inner loops of a kernel over the
    window [w]: [nk*nj] passes of the middle loop, [iu+1-il] of the inner
    one, none when a bound is not positive. *)
Definition window_size (w : BufferIndcs) : Z :=
  Z.max 0 (bie w - bis w + 1) * Z.max 0 ((bke w - bks w + 1) * (bje w - bjs w + 1)).

(** The offset in the flattened buffer of a cell (k, j, i). *)
Definition cell_offset (w : BufferIndcs) (c : Z * Z * Z) : Z :=
  buf_offset w (snd c) (snd (fst c)) (fst (fst c)).

(** The three indices of the team of league rank [r]. *)
Definition team_indices (pp : MeshBlockPack) (nvar r : Z) : Z * Z * Z :=
  (team_m pp nvar r, team_n pp nvar r, team_v pp nvar r).

(** *** Events and handles *)

(** The slot and the block of the request handle a call is handed; the
    probe is handed none. *)
Definition event_handle (e : MPIEvent) : option (Z * Z) :=
  match e with
  | Irecv s m _ _ _ | Isend s m _ _ _ | Wait_recv s m | Wait_send s m | Test_flx s m =>
      Some (s, m)
  | Iprobe => None
  end.

(** The event is a receive posted. *)
Definition is_Irecv (e : MPIEvent) : bool :=
  match e with Irecv _ _ _ _ _ => true | _ => false end.

(** The event is a wait for a receive. *)
Definition is_Wait_recv (e : MPIEvent) : bool :=
  match e with Wait_recv _ _ => true | _ => false end.


(** The process of [ex_globals] in a build without the message-passing
    library. *)
Definition ex_globals_serial : Globals :=
  mkGlobals 0 false (fun m n => m * 56 + n) (fun lid nn k => (lid * 56 + nn) * 2 + k) 1
            (fun r => 2 * r) (fun _ _ => false).

(** *** What the host loops keep *)

Section HostPredicates.
Context {Real : Type} {RO : RealOps Real}.


(** The index windows and the view of a buffer. *)
Definition buffer_static (b : BoundaryBuffer Real) :=
  (same b, coar b, fine b, flux0 b, data b).

(** The index windows, the view and the status vectors of a buffer:
    everything but the request vectors. *)
Definition buffer_content (b : BoundaryBuffer Real) :=
  (same b, coar b, fine b, flux0 b, data b, var_stat b, flx_stat b).

(** A status entry is as it was in [old], or is [s] and [why] holds. *)
Definition kept_or_set (old new : list BoundaryCommStatus) (m : Z)
    (s : BoundaryCommStatus) (why : Prop) : Prop :=
  vec_get new m = vec_get old m \/ (vec_get new m = Some s /\ why).

(** Block [m] of the [rows] blocks a loop runs over has a neighbor in
    slot [n]. *)
Definition valid_pair (pp : MeshBlockPack) (rows : Z) (m n : Z) : Prop :=
  0 <= m < rows /\ 0 <= n < nnghbr pp /\ gid (nghbr pp m n) >= 0.

(** What the loop of [InitRecv] keeps: the send buffers, the index windows
    and the view of the receive buffers, the lengths of their status
    vectors, and every flag that it has not set to [waiting] for a pair
    with a neighbor. *)
Definition InitRecv_inv (pp : MeshBlockPack) (bv t : BoundaryValues Real) : Prop :=
  send_buf t = send_buf bv /\
  (forall n, buffer_static (recv_buf t n) = buffer_static (recv_buf bv n) /\
             length (var_stat (recv_buf t n)) = length (var_stat (recv_buf bv n)) /\
             length (flx_stat (recv_buf t n)) = length (flx_stat (recv_buf bv n))) /\
  (forall m n,
     kept_or_set (var_stat (recv_buf bv n)) (var_stat (recv_buf t n)) m waiting
                 (valid_pair pp (nmb_thispack pp) m n) /\
     kept_or_set (flx_stat (recv_buf bv n)) (flx_stat (recv_buf t n)) m waiting
                 (valid_pair pp (nmb_thispack pp) m n)).

End HostPredicates.

Section ExchangePredicates.
Context {Real : Type} {RO : RealOps Real}.

(** Some pair of this rank sends to slot [nn] of block index [mm]. *)
Definition has_local_sender (g : Globals) (pp : MeshBlockPack) (mm nn : Z) : Prop :=
  exists m n, valid_pair pp (nmb pp) m n /\ rank (nghbr pp m n) = my_rank g /\
    dest (nghbr pp m n) = nn /\ gid (nghbr pp m n) - gids pp = mm.

(** The receive of block [m], slot [n] comes from another rank and is
    reported as completed. *)
Definition tested_complete (g : Globals) (pp : MeshBlockPack) (m n : Z) : Prop :=
  valid_pair pp (nmb pp) m n /\ rank (nghbr pp m n) <> my_rank g /\
  MPI_PARALLEL_ENABLED g = true /\ MPI_Test g n m = true.

(** What the loop after the pack kernel keeps. *)
Definition send_inv (g : Globals) (pp : MeshBlockPack) (bv t : BoundaryValues Real) : Prop :=
  (forall n, buffer_content (send_buf t n) = buffer_content (send_buf bv n)) /\
  (forall n, buffer_static (recv_buf t n) = buffer_static (recv_buf bv n) /\
             var_stat (recv_buf t n) = var_stat (recv_buf bv n) /\
             length (flx_stat (recv_buf t n)) = length (flx_stat (recv_buf bv n))) /\
  (forall nn mm, kept_or_set (flx_stat (recv_buf bv nn)) (flx_stat (recv_buf t nn)) mm
                   received (has_local_sender g pp mm nn)).

(** What step 1 of [RecvAndUnpackFluxCC] keeps. *)
Definition check_inv (g : Globals) (pp : MeshBlockPack) (bv t : BoundaryValues Real) : Prop :=
  send_buf t = send_buf bv /\
  (forall n, buffer_static (recv_buf t n) = buffer_static (recv_buf bv n) /\
             var_stat (recv_buf t n) = var_stat (recv_buf bv n) /\
             length (flx_stat (recv_buf t n)) = length (flx_stat (recv_buf bv n))) /\
  (forall n m, kept_or_set (flx_stat (recv_buf bv n)) (flx_stat (recv_buf t n)) m
                 received (tested_complete g pp m n)).

(** Every block [m < nmb] and slot [n < nnghbr] with a valid neighbor is
    served: the neighbor is on this rank and some pair with a valid neighbor
    on this rank sends to the pair (slot [nghbr.dest], block index gid minus
    [gids]), or the neighbor is on another rank and its receive is reported
    as completed, or is not asked for in a build without the
    message-passing library. *)
Definition all_pairs_served (g : Globals) (pp : MeshBlockPack) : Prop :=
  forall m n, 0 <= m < nmb pp -> 0 <= n < nnghbr pp -> gid (nghbr pp m n) >= 0 ->
    (rank (nghbr pp m n) = my_rank g /\
     exists m' n', 0 <= m' < nmb pp /\ 0 <= n' < nnghbr pp /\ gid (nghbr pp m' n') >= 0 /\
       rank (nghbr pp m' n') = my_rank g /\
       dest (nghbr pp m' n') = n /\ gid (nghbr pp m' n') - gids pp = m) \/
    (rank (nghbr pp m n) <> my_rank g /\
     (MPI_PARALLEL_ENABLED g = false \/ MPI_Test g n m = true)).

End ExchangePredicates.

(** *** The constructor *)

Section ConstructorPredicates.
Context {Real : Type} {RO : RealOps Real}.

(** The index windows of the buffer are [ix] and its view is [d]. *)
Definition windows_and_view (ix : BufferIndcs) (d : Z -> Z -> Z -> Real)
    (b : BoundaryBuffer Real) : Prop :=
  same b = ix /\ coar b = ix /\ fine b = ix /\ flux0 b = ix /\ data b = d.

(** The request vectors that [k] passes of the inner loop of the
    constructor leave: [k] unset handles with the message-passing library,
    none without. *)
Definition pushed_requests (g : Globals) (k : nat) : list MPI_Request :=
  if MPI_PARALLEL_ENABLED g then replicate k request_unset else [].

(** The buffer of a slot after [k] passes of the inner loop of the
    constructor. *)
Definition constructed_buffer (g : Globals) (k : nat) (ix : BufferIndcs)
    (d : Z -> Z -> Z -> Real) : BoundaryBuffer Real :=
  mkBoundaryBuffer ix ix ix ix d (replicate k undef) (replicate k undef)
    (pushed_requests g k) (pushed_requests g k).

(** What the constructor has made of the slots below [k]. *)
Definition ctor_inv (g : Globals) (pp : MeshBlockPack) (ix : BufferIndcs)
    (d : Z -> Z -> Z -> Real) (k : Z) (t : BoundaryValues Real) : Prop :=
  mpi_log t = [] /\
  forall n,
    (0 <= n < k ->
     send_buf t n = constructed_buffer g (Z.to_nat (nmb_thispack pp)) ix d /\
     recv_buf t n = constructed_buffer g (Z.to_nat (nmb_thispack pp)) ix d) /\
    (~ 0 <= n < k -> send_buf t n = new_buffer ix d /\ recv_buf t n = new_buffer ix d).

End ConstructorPredicates.

(** *** Sequences of calls *)

Section Calls.
Context {Real : Type} {RO : RealOps Real}.

(** A call of one of the five functions that work on a constructed
    object. *)
Inductive Call :=
| Call_InitRecv (nvar : Z)
| Call_ClearRecv
| Call_ClearSend
| Call_PackAndSendFluxCC (flx : DvceFaceFld5D Real)
| Call_RecvAndUnpackFluxCC (flx : DvceFaceFld5D Real).

(** The object after a call. *)
Definition after_call (g : Globals) (pp : MeshBlockPack) (bv : BoundaryValues Real)
    (c : Call) : BoundaryValues Real :=
  match c with
  | Call_InitRecv nvar => fst (InitRecv g pp nvar bv)
  | Call_ClearRecv => fst (ClearRecv g pp bv)
  | Call_ClearSend => fst (ClearSend g pp bv)
  | Call_PackAndSendFluxCC flx => fst (PackAndSendFluxCC g pp flx bv)
  | Call_RecvAndUnpackFluxCC flx => fst (fst (RecvAndUnpackFluxCC g pp flx bv))
  end.

(** The object after a sequence of calls. *)
Definition after_calls (g : Globals) (pp : MeshBlockPack) (bv : BoundaryValues Real)
    (cs : list Call) : BoundaryValues Real :=
  foldl (after_call g pp) bv cs.

(** The index windows of a buffer. *)
Definition buffer_shape (b : BoundaryBuffer Real) :=
  (same b, coar b, fine b, flux0 b).

(** What every call keeps of the object [bv]. *)
Definition calls_inv (bv t : BoundaryValues Real) : Prop :=
  (forall n, buffer_shape (send_buf t n) = buffer_shape (send_buf bv n) /\
             var_stat (send_buf t n) = var_stat (send_buf bv n) /\
             flx_stat (send_buf t n) = flx_stat (send_buf bv n) /\
             buffer_shape (recv_buf t n) = buffer_shape (recv_buf bv n) /\
             length (var_stat (recv_buf t n)) = length (var_stat (recv_buf bv n)) /\
             length (flx_stat (recv_buf t n)) = length (flx_stat (recv_buf bv n))) /\
  (forall n m,
     (vec_get (var_stat (recv_buf t n)) m = vec_get (var_stat (recv_buf bv n)) m \/
      vec_get (var_stat (recv_buf t n)) m = Some waiting) /\
     (vec_get (flx_stat (recv_buf t n)) m = vec_get (flx_stat (recv_buf bv n)) m \/
      vec_get (flx_stat (recv_buf t n)) m = Some waiting \/
      vec_get (flx_stat (recv_buf t n)) m = Some received)).

End Calls.

Arguments Call : clear implicits.

(** The fluxes of [ex_flux] seen as an array of no variable. *)
Definition ex_flux_novar : DvceFaceFld5D Q :=
  mkFaceFld (x1f ex_flux) (x2f ex_flux) (x3f ex_flux) 0.

(** * Properties *)

(** ** Loops *)

Lemma for_loop_ind {S : Type} (P : Z -> S -> Prop) (body : Z -> S -> S) count :
  forall lo s,
    P lo s ->
    (forall i t, lo <= i < lo + Z.of_nat count -> P i t -> P (i + 1) (body i t)) ->
    P (lo + Z.of_nat count) (for_loop lo count body s).
Proof.
  induction count as [|c IH]; intros lo s H0 Hstep; simpl.
  - replace (lo + Z.of_nat 0) with lo by lia. exact H0.
  - replace (lo + Z.of_nat (Datatypes.S c)) with ((lo + 1) + Z.of_nat c) by lia.
    apply IH.
    + apply Hstep; [lia | exact H0].
    + intros i t Hi. apply Hstep. lia.
Qed.

(** Invariant rule of [for_range]. *)
Lemma for_range_ind {S : Type} (P : Z -> S -> Prop) (body : Z -> S -> S) lo hi s :
  lo <= hi ->
  P lo s ->
  (forall i t, lo <= i < hi -> P i t -> P (i + 1) (body i t)) ->
  P hi (for_range lo hi body s).
Proof.
  intros Hle H0 Hstep. unfold for_range.
  replace hi with (lo + Z.of_nat (Z.to_nat (hi - lo))) at 1 by lia.
  apply for_loop_ind; [exact H0 |].
  intros i t Hi. apply Hstep. lia.
Qed.

(** A loop whose range is empty does nothing. *)
Lemma for_range_empty {S : Type} (body : Z -> S -> S) lo hi s :
  hi <= lo -> for_range lo hi body s = s.
Proof.
  intros H. unfold for_range. replace (Z.to_nat (hi - lo)) with O by lia. reflexivity.
Qed.

(** A property kept by every pass of the body holds at the end. *)
Lemma for_range_keeps {S : Type} (P : S -> Prop) (body : Z -> S -> S) lo hi s :
  P s -> (forall i t, lo <= i < hi -> P t -> P (body i t)) -> P (for_range lo hi body s).
Proof.
  intros H0 Hstep. destruct (Z_le_gt_dec lo hi) as [Hle|Hgt].
  - apply (for_range_ind (fun _ t => P t)); auto.
  - rewrite for_range_empty by lia. exact H0.
Qed.

(** ** Vectors *)

Lemma vec_get_replicate {A : Type} (x : A) (k : nat) (i : Z) :
  0 <= i < Z.of_nat k -> vec_get (replicate k x) i = Some x.
Proof.
  intros H. unfold vec_get. destruct (decide (0 <= i)) as [_|]; [|lia].
  apply lookup_replicate_2. lia.
Qed.

Lemma vec_get_set_eq {A : Type} (l : list A) (i : Z) (x : A) :
  0 <= i < Z.of_nat (length l) -> vec_get (vec_set l i x) i = Some x.
Proof.
  intros H. unfold vec_get, vec_set. destruct (decide (0 <= i)); [|lia].
  apply list_lookup_insert_eq. lia.
Qed.

Lemma vec_get_set_ne {A : Type} (l : list A) (i j : Z) (x : A) :
  i <> j -> vec_get (vec_set l i x) j = vec_get l j.
Proof.
  intros H. unfold vec_get, vec_set.
  destruct (decide (0 <= j)); [|reflexivity].
  destruct (decide (0 <= i)); [|reflexivity].
  apply list_lookup_insert_ne. lia.
Qed.

Lemma vec_set_length {A : Type} (l : list A) (i : Z) (x : A) :
  length (vec_set l i x) = length l.
Proof. unfold vec_set. destruct (decide (0 <= i)); [apply length_insert | reflexivity]. Qed.

Section Constructor.
Context {Real : Type} {RO : RealOps Real}.

(** ** The constructor *)

Lemma push_flags_all_undef g k (b : BoundaryBuffer Real) :
  all_undef k b -> all_undef (Datatypes.S k) (push_flags g b).
Proof.
  intros [Hv Hf]. unfold all_undef, push_flags, push_back.
  assert (E : replicate k undef ++ [undef] = replicate (Datatypes.S k) undef).
  { clear. induction k as [|k IH]; [reflexivity|]. simpl in *. f_equal. exact IH. }
  destruct (MPI_PARALLEL_ENABLED g); cbn [var_stat flx_stat set_var_stat set_flx_stat
    set_var_req set_flx_req]; rewrite Hv, Hf, E; auto.
Qed.

(** The inner loop of the constructor appends one [undef] per block to the
    vectors of slot [n] and leaves the other slots alone. *)
Lemma ctor_inner_loop g (nb : Z) n (bv : BoundaryValues Real) :
  all_undef 0 (send_buf bv n) -> all_undef 0 (recv_buf bv n) ->
  let bv' := for_range 0 nb (fun _ bv =>
               mkBoundaryValues (arr_upd (send_buf bv) n (push_flags g))
                                (arr_upd (recv_buf bv) n (push_flags g))
                                (mpi_log bv)) bv in
  all_undef (Z.to_nat nb) (send_buf bv' n) /\ all_undef (Z.to_nat nb) (recv_buf bv' n) /\
  forall n', n' <> n -> send_buf bv' n' = send_buf bv n' /\ recv_buf bv' n' = recv_buf bv n'.
Proof.
  intros Hs Hr bv'. subst bv'.
  destruct (Z_le_gt_dec 0 nb) as [Hnb|Hnb];
    [|rewrite for_range_empty by lia; replace (Z.to_nat nb) with O by lia; auto].
  apply (for_range_ind (fun i t =>
    all_undef (Z.to_nat i) (send_buf t n) /\ all_undef (Z.to_nat i) (recv_buf t n) /\
    forall n', n' <> n -> send_buf t n' = send_buf bv n' /\ recv_buf t n' = recv_buf bv n'));
    [lia | simpl; auto |].
  intros i t Hi (Is & Ir & Io). simpl.
  replace (Z.to_nat (i + 1)) with (Datatypes.S (Z.to_nat i)) by lia.
  unfold arr_upd. destruct (decide (n = n)) as [_|]; [|congruence].
  repeat split; try (apply push_flags_all_undef; assumption).
  - destruct (decide (n' = n)); [congruence | apply Io; assumption].
  - destruct (decide (n' = n)); [congruence | apply Io; assumption].
Qed.

(** After the constructor the status vectors of every slot below [nnghbr]
    are all [undef], one entry per block. *)
Lemma ctor_all_undef g pp ix (d : Z -> Z -> Z -> Real) n :
  0 <= n < nnghbr pp ->
  let bv := BoundaryValues_ctor g pp ix d in
  all_undef (Z.to_nat (nmb_thispack pp)) (send_buf bv n) /\
  all_undef (Z.to_nat (nmb_thispack pp)) (recv_buf bv n).
Proof.
  intros Hn bv. subst bv.
  set (nb := Z.to_nat (nmb_thispack pp)).
  enough (H : (fun k t => forall n',
           (0 <= n' < k -> all_undef nb (send_buf t n') /\ all_undef nb (recv_buf t n')) /\
           (k <= n' -> all_undef 0 (send_buf t n') /\ all_undef 0 (recv_buf t n')))
         (nnghbr pp) (BoundaryValues_ctor g pp ix d))
    by (apply (H n); exact Hn).
  unfold BoundaryValues_ctor.
  apply (for_range_ind (fun k t => forall n',
           (0 <= n' < k -> all_undef nb (send_buf t n') /\ all_undef nb (recv_buf t n')) /\
           (k <= n' -> all_undef 0 (send_buf t n') /\ all_undef 0 (recv_buf t n')))); [lia | |].
  - intros n'. split; [lia|]. intros _. simpl. unfold all_undef; simpl. auto.
  - intros k t Hk IH n'.
    destruct (ctor_inner_loop g (nmb_thispack pp) k t) as (Hs & Hr & Ho).
    { apply IH. lia. } { apply IH. lia. }
    split; intros Hn'.
    + destruct (decide (n' = k)) as [->|Hne]; [split; assumption|].
      destruct (Ho n' Hne) as [-> ->]. apply IH. lia.
    + destruct (Ho n') as [-> ->]; [lia|]. apply IH. lia.
Qed.

(** C10 (constructor): after the constructor, for every neighbor slot
    [n < nnghbr], each of the four status vectors (variable send, variable
    receive, flux send, flux receive) has exactly one entry per block of the
    pack, and for every block [m] each of the four flags is [undef]; so no
    flag is [waiting]. *)
Theorem ctor_status_flags_undef (g : Globals) (pp : MeshBlockPack) (ix : BufferIndcs)
    (d : Z -> Z -> Z -> Real) (n : Z) :
  0 <= n < nnghbr pp ->
  let bv := BoundaryValues_ctor g pp ix d in
  (length (var_stat (send_buf bv n)) = Z.to_nat (nmb_thispack pp) /\
   length (var_stat (recv_buf bv n)) = Z.to_nat (nmb_thispack pp) /\
   length (flx_stat (send_buf bv n)) = Z.to_nat (nmb_thispack pp) /\
   length (flx_stat (recv_buf bv n)) = Z.to_nat (nmb_thispack pp)) /\
  (forall m, 0 <= m < nmb_thispack pp ->
     vec_get (var_stat (send_buf bv n)) m = Some undef /\
     vec_get (var_stat (recv_buf bv n)) m = Some undef /\
     vec_get (flx_stat (send_buf bv n)) m = Some undef /\
     vec_get (flx_stat (recv_buf bv n)) m = Some undef) /\
  (forall s, s ∈ var_stat (send_buf bv n) ++ var_stat (recv_buf bv n)
               ++ flx_stat (send_buf bv n) ++ flx_stat (recv_buf bv n) ->
     s <> waiting).
Proof.
  intros Hn bv.
  destruct (ctor_all_undef g pp ix d n Hn) as [[Hsv Hsf] [Hrv Hrf]].
  fold bv in Hsv, Hsf, Hrv, Hrf. rewrite Hsv, Hsf, Hrv, Hrf.
  split; [|split].
  - rewrite !length_replicate. auto.
  - intros m Hm. rewrite !vec_get_replicate by lia. auto.
  - intros s Hs. rewrite !elem_of_app in Hs.
    assert (s = undef) as ->; [|discriminate].
    destruct Hs as [Hs|[Hs|[Hs|Hs]]]; apply elem_of_replicate in Hs; tauto.
Qed.

(** ** InitializeBuffers: the diagnostic loop *)

Lemma print_loop_slots (bv : BoundaryValues Real) pp :
  0 <= nnghbr pp + 1 ->
  printed_slots (InitializeBuffers_print bv pp) = seqZ 0 (nnghbr pp + 1).
Proof.
  intros H. unfold InitializeBuffers_print.
  apply (for_range_ind (fun k out => printed_slots out = seqZ 0 k)); [lia | reflexivity |].
  intros i out Hi IH. unfold printed_slots in *. rewrite map_app, IH. simpl.
  rewrite (seqZ_app 0 i 1) by lia. f_equal.
Qed.

(** C9 (diagnostic loop of InitializeBuffers): the loop runs [n] from 0
    up to and including [nnghbr], so it reads [send_buf[nnghbr]] and
    [recv_buf[nnghbr]]: the slots read are not all within
    [0, nnghbr-1]. *)
Theorem diagnostic_loop_reads_slot_nnghbr (bm : BufferMethods Real) (pp : MeshBlockPack)
    (nvar : Z) (bv : BoundaryValues Real) :
  0 <= nnghbr pp ->
  nnghbr pp ∈ printed_slots (snd (InitializeBuffers bm pp nvar bv)) /\
  ~ (forall n, n ∈ printed_slots (snd (InitializeBuffers bm pp nvar bv)) ->
               0 <= n <= nnghbr pp - 1).
Proof.
  intros H. unfold InitializeBuffers. simpl.
  rewrite print_loop_slots by lia.
  split.
  - apply elem_of_seqZ. lia.
  - intros Hall. specialize (Hall (nnghbr pp)). rewrite elem_of_seqZ in Hall. lia.
Qed.

End Constructor.

(** ** Nested loops, logs, and InitRecv *)

Lemma for_range2_keeps {S : Type} (P : S -> Prop) (body : Z -> Z -> S -> S) nm nn s :
  P s ->
  (forall m n t, 0 <= m < nm -> 0 <= n < nn -> P t -> P (body m n t)) ->
  P (for_range2 nm nn body s).
Proof.
  intros H0 Hstep. unfold for_range2.
  apply for_range_keeps; [exact H0|]. intros m t Hm Ht.
  apply for_range_keeps; [exact Ht|]. intros n u Hn Hu. apply Hstep; assumption.
Qed.

(** A property [Q] that pass (m0, n0) brings about and that no pass
    destroys holds at the end. *)
Lemma for_range2_reach {S : Type} (P Q : S -> Prop) (body : Z -> Z -> S -> S)
    nm nn m0 n0 s :
  0 <= m0 < nm -> 0 <= n0 < nn ->
  P s ->
  (forall m n t, 0 <= m < nm -> 0 <= n < nn -> P t -> P (body m n t)) ->
  (forall m n t, 0 <= m < nm -> 0 <= n < nn -> P t -> Q t -> Q (body m n t)) ->
  (forall t, P t -> Q (body m0 n0 t)) ->
  Q (for_range2 nm nn body s).
Proof.
  intros Hm0 Hn0 H0 HP HQ Hset. unfold for_range2.
  enough (H : (fun k t => P t /\ (m0 < k -> Q t)) nm
                (for_range 0 nm (fun m s => for_range 0 nn (fun n s => body m n s) s) s))
    by (apply H; lia).
  apply for_range_ind; [lia | split; [exact H0 | lia] |].
  intros m t Hm [Pt Qt].
  enough (H : (fun j u => P u /\ ((m0 < m \/ (m0 = m /\ n0 < j)) -> Q u)) nn
                (for_range 0 nn (fun n s => body m n s) t)).
  { destruct H as [Pu Qu]. split; [exact Pu|]. intros Hlt. apply Qu. lia. }
  apply for_range_ind; [lia | split; [exact Pt | intros [?|[? ?]]; [auto | lia]] |].
  intros n u Hn [Pu Qu]. split; [apply HP; assumption|].
  intros Hc. destruct (decide (m0 = m /\ n0 = n)) as [[-> ->]|Hne].
  - apply Hset. exact Pu.
  - apply HQ; try assumption. apply Qu. lia.
Qed.

(** A loop whose passes each append [ev n] to a log appends them all, in
    order. *)
Lemma for_range_log {S E : Type} (lg : S -> list E) (P : S -> Prop) (ev : Z -> list E)
    (body : Z -> S -> S) nn s :
  P s ->
  (forall n t, 0 <= n < nn -> P t -> P (body n t) /\ lg (body n t) = lg t ++ ev n) ->
  P (for_range 0 nn body s) /\
  lg (for_range 0 nn body s) = lg s ++ (n ← seqZ 0 nn; ev n).
Proof.
  intros H0 Hstep. destruct (Z_le_gt_dec 0 nn) as [Hle|Hgt].
  - apply (for_range_ind (fun k t => P t /\ lg t = lg s ++ (n ← seqZ 0 k; ev n))); [lia | |].
    + split; [exact H0|]. rewrite seqZ_nil by lia. simpl. rewrite app_nil_r. reflexivity.
    + intros n t Hn [Pt Lt]. destruct (Hstep n t Hn Pt) as [Pb Lb]. split; [exact Pb|].
      rewrite Lb, Lt. rewrite (seqZ_app 0 n 1) by lia. rewrite bind_app, <- app_assoc.
      f_equal. f_equal. rewrite seqZ_cons by lia. rewrite seqZ_nil by lia.
      simpl. rewrite app_nil_r. reflexivity.
  - rewrite for_range_empty by lia. rewrite seqZ_nil by lia. simpl. rewrite app_nil_r. auto.
Qed.

(** The same for a double loop. *)
Lemma for_range2_log {S E : Type} (lg : S -> list E) (P : S -> Prop) (ev : Z -> Z -> list E)
    (body : Z -> Z -> S -> S) nm nn s :
  P s ->
  (forall m n t, 0 <= m < nm -> 0 <= n < nn -> P t ->
     P (body m n t) /\ lg (body m n t) = lg t ++ ev m n) ->
  lg (for_range2 nm nn body s) = lg s ++ (m ← seqZ 0 nm; n ← seqZ 0 nn; ev m n).
Proof.
  intros H0 Hstep. unfold for_range2.
  apply (for_range_log lg P (fun m => n ← seqZ 0 nn; ev m n)); [exact H0|].
  intros m t Hm Pt. apply (for_range_log lg P (ev m)); [exact Pt|].
  intros n u Hn Pu. apply Hstep; assumption.
Qed.

(** Filtering a list made of pieces none of which has a match. *)
Lemma filter_bind_none {A B : Type} (P : B -> Prop) `{forall x, Decision (P x)}
    (f : A -> list B) (l : list A) :
  (forall y, y ∈ l -> filter P (f y) = []) -> filter P (l ≫= f) = [].
Proof.
  induction l as [|a l IH]; intros Hn; [reflexivity|].
  simpl. rewrite list.filter_app, Hn by (left). simpl. apply IH.
  intros y Hy. apply Hn. right. exact Hy.
Qed.

(** Filtering a list made of pieces of which only that of [x] may have a
    match. *)
Lemma filter_bind_unique {A B : Type} (P : B -> Prop) `{forall x, Decision (P x)}
    (f : A -> list B) (l : list A) (x : A) :
  NoDup l -> x ∈ l ->
  (forall y, y ∈ l -> y <> x -> filter P (f y) = []) ->
  filter P (l ≫= f) = filter P (f x).
Proof.
  induction l as [|a l IH]; intros Hnd Hx Hn; [inversion Hx|].
  apply list.NoDup_cons in Hnd as [Ha Hnd]. simpl. rewrite list.filter_app.
  apply elem_of_cons in Hx as [->|Hx].
  - rewrite (filter_bind_none P f l); [apply app_nil_r|].
    intros y Hy. apply Hn; [right; exact Hy | intros ->; contradiction].
  - rewrite (Hn a); [|left|intros ->; contradiction]. simpl. apply IH; auto.
    intros y Hy. apply Hn. right. exact Hy.
Qed.

(** Storing [x] somewhere in a vector keeps an entry that is [x]. *)
Lemma vec_get_set_same {A : Type} (l : list A) (i j : Z) (x : A) :
  vec_get l j = Some x -> vec_get (vec_set l i x) j = Some x.
Proof.
  intros H. destruct (decide (i = j)) as [->|Hne].
  - unfold vec_get in H. destruct (decide (0 <= j)); [|discriminate].
    apply vec_get_set_eq. apply lookup_lt_Some in H. lia.
  - rewrite vec_get_set_ne by exact Hne. exact H.
Qed.

Section Receive.
Context {Real : Type} {RO : RealOps Real}.

(** One pass of [InitRecv] keeps the windows and appends the receive of its
    pair. *)
Lemma InitRecv_body_log g pp nvar (bv : BoundaryValues Real) m n (t : BoundaryValues Real) :
  same_windows bv t ->
  same_windows bv (InitRecv_body g pp nvar m n t) /\
  mpi_log (InitRecv_body g pp nvar m n t) = mpi_log t ++ InitRecv_posts g pp nvar bv m n.
Proof.
  intros Hw. unfold InitRecv_body, InitRecv_posts.
  assert (Hsz : recv_data_size pp t nvar m n = recv_data_size pp bv nvar m n).
  { unfold recv_data_size. destruct (Hw n) as (-> & -> & ->). reflexivity. }
  destruct (neighbor_exists pp m n); simpl; [|rewrite app_nil_r; auto].
  assert (Hk : forall u : BoundaryValues Real, same_windows bv u ->
            same_windows bv (mkBoundaryValues (send_buf u)
              (arr_upd (recv_buf u) n (set_waiting m)) (mpi_log u))).
  { intros u Hu n'. simpl. unfold arr_upd. destruct (decide (n' = n)); [|apply Hu].
    subst n'. simpl. apply Hu. }
  destruct (MPI_PARALLEL_ENABLED g && negb (on_my_rank g pp m n)); simpl.
  - rewrite Hsz. split; [apply Hk; exact Hw | reflexivity].
  - rewrite app_nil_r. split; [apply Hk; exact Hw | reflexivity].
Qed.

(** One pass of [InitRecv] keeps the lengths of the status vectors. *)
Lemma InitRecv_body_room g pp nvar m n (t : BoundaryValues Real) :
  stat_room pp t -> stat_room pp (InitRecv_body g pp nvar m n t).
Proof.
  intros Hr. unfold InitRecv_body.
  destruct (neighbor_exists pp m n); [|exact Hr].
  intros n' Hn'. simpl. unfold arr_upd.
  destruct (MPI_PARALLEL_ENABLED g && negb (on_my_rank g pp m n)); simpl;
    (destruct (decide (n' = n)); [subst n'; simpl; rewrite !vec_set_length|]; apply Hr; exact Hn').
Qed.

(** No pass of [InitRecv] takes a [waiting] flag away. *)
Lemma InitRecv_body_keeps_waiting g pp nvar m n m0 n0 (t : BoundaryValues Real) :
  marked_waiting m0 n0 t -> marked_waiting m0 n0 (InitRecv_body g pp nvar m n t).
Proof.
  intros [Hv Hf]. unfold InitRecv_body, marked_waiting.
  destruct (neighbor_exists pp m n); [|auto].
  destruct (MPI_PARALLEL_ENABLED g && negb (on_my_rank g pp m n)); simpl;
    unfold arr_upd; (destruct (decide (n0 = n)); [subst n0; simpl|auto]);
    split; apply vec_get_set_same; assumption.
Qed.

(** The pass of a pair with a valid neighbor sets both its flags. *)
Lemma InitRecv_body_sets_waiting g pp nvar m n (t : BoundaryValues Real) :
  0 <= m < nmb_thispack pp -> 0 <= n < nnghbr pp ->
  neighbor_exists pp m n = true ->
  stat_room pp t -> marked_waiting m n (InitRecv_body g pp nvar m n t).
Proof.
  intros Hm Hn He Hr. unfold InitRecv_body, marked_waiting. rewrite He.
  destruct (Hr n Hn) as [Lv Lf].
  destruct (MPI_PARALLEL_ENABLED g && negb (on_my_rank g pp m n)); simpl;
    unfold arr_upd; (destruct (decide (n = n)); [simpl|congruence]);
    split; apply vec_get_set_eq; lia.
Qed.

(** The receive of one pair is not a receive for another. *)
Lemma InitRecv_posts_other g pp nvar (bv : BoundaryValues Real) m n m' n' :
  (m', n') <> (m, n) ->
  filter (is_Irecv_for n m) (InitRecv_posts g pp nvar bv m' n') = [].
Proof.
  intros Hne. unfold InitRecv_posts.
  destruct (neighbor_exists pp m' n' && _); [|reflexivity].
  rewrite filter_cons_False; [reflexivity|]. simpl. intros H.
  apply Is_true_true, andb_true_iff in H as [H1 H2].
  apply Z.eqb_eq in H1, H2. congruence.
Qed.

(** Of all the events of a double loop, those for the pair (m, n) are those
    of its pass. *)
Lemma filter_posts_pair (ev : Z -> Z -> list MPIEvent) nm nn m n :
  0 <= m < nm -> 0 <= n < nn ->
  (forall m' n', (m', n') <> (m, n) -> filter (is_Irecv_for n m) (ev m' n') = []) ->
  filter (is_Irecv_for n m) (m' ← seqZ 0 nm; n' ← seqZ 0 nn; ev m' n')
  = filter (is_Irecv_for n m) (ev m n).
Proof.
  intros Hm Hn Ho.
  rewrite (filter_bind_unique _ _ (seqZ 0 nm) m);
    [| apply NoDup_seqZ | apply elem_of_seqZ; lia |].
  - apply filter_bind_unique; [apply NoDup_seqZ | apply elem_of_seqZ; lia |].
    intros y _ Hy. apply Ho. congruence.
  - intros y _ Hy. apply filter_bind_none. intros z _. apply Ho. congruence.
Qed.

(** Every receive posted is that of a pair with a valid neighbor on another
    rank. *)
Lemma InitRecv_posts_elem g pp nvar (bv : BoundaryValues Real) e :
  e ∈ (m ← seqZ 0 (nmb_thispack pp); n ← seqZ 0 (nnghbr pp); InitRecv_posts g pp nvar bv m n) ->
  exists m n, 0 <= m < nmb_thispack pp /\ 0 <= n < nnghbr pp /\
    gid (nghbr pp m n) >= 0 /\ rank (nghbr pp m n) <> my_rank g /\
    e = Irecv n m (recv_data_size pp bv nvar m n) (rank (nghbr pp m n)) (CreateMPITag g m n).
Proof.
  intros Hin. apply list_elem_of_bind in Hin as (m & Hin & Hm).
  apply list_elem_of_bind in Hin as (n & Hin & Hn). apply elem_of_seqZ in Hm, Hn.
  exists m, n. unfold InitRecv_posts, neighbor_exists, on_my_rank in Hin.
  destruct (Z.leb_spec 0 (gid (nghbr pp m n))); simpl in Hin; [|inversion Hin].
  destruct (MPI_PARALLEL_ENABLED g); simpl in Hin; [|inversion Hin].
  destruct (Z.eqb_spec (rank (nghbr pp m n)) (my_rank g)); simpl in Hin; [inversion Hin|].
  apply list_elem_of_singleton in Hin. repeat split; try assumption; lia.
Qed.

(** C6 (InitRecv): InitRecv returns [complete], and all it asks of the
    message-passing library is to post receives (it waits for nothing), each
    for a pair with a valid neighbor on another rank; for every block [m]
    and slot [n] with a valid neighbor (gid >= 0) both receive status flags
    are [waiting] afterwards; for a neighbor on the local rank no receive
    is posted; for a neighbor on another rank (message-passing build)
    exactly one receive is posted for the pair, from the rank of the
    neighbor, and its count is [nvar] times the size of the coarser, same
    or finer window according as the level of the neighbor is below, equal
    to or above the level of the block. *)
Theorem InitRecv_marks_waiting_and_posts (g : Globals) (pp : MeshBlockPack) (nvar : Z)
    (bv : BoundaryValues Real) :
  stat_room pp bv ->
  let bv' := fst (InitRecv g pp nvar bv) in
  snd (InitRecv g pp nvar bv) = complete /\
  exists posted, mpi_log bv' = mpi_log bv ++ posted /\
    (forall e, e ∈ posted -> exists m n size,
       0 <= m < nmb_thispack pp /\ 0 <= n < nnghbr pp /\
       gid (nghbr pp m n) >= 0 /\ rank (nghbr pp m n) <> my_rank g /\
       e = Irecv n m size (rank (nghbr pp m n)) (CreateMPITag g m n)) /\
    forall m n, 0 <= m < nmb_thispack pp -> 0 <= n < nnghbr pp ->
      gid (nghbr pp m n) >= 0 ->
      vec_get (var_stat (recv_buf bv' n)) m = Some waiting /\
      vec_get (flx_stat (recv_buf bv' n)) m = Some waiting /\
      (rank (nghbr pp m n) = my_rank g -> filter (is_Irecv_for n m) posted = []) /\
      (rank (nghbr pp m n) <> my_rank g -> MPI_PARALLEL_ENABLED g = true ->
       exists size,
         filter (is_Irecv_for n m) posted
           = [Irecv n m size (rank (nghbr pp m n)) (CreateMPITag g m n)] /\
         (lev (nghbr pp m n) < mb_lev pp m -> size = ndat (coar (recv_buf bv n)) * nvar) /\
         (lev (nghbr pp m n) = mb_lev pp m -> size = ndat (same (recv_buf bv n)) * nvar) /\
         (lev (nghbr pp m n) > mb_lev pp m -> size = ndat (fine (recv_buf bv n)) * nvar)).
Proof.
  intros Hroom bv'. split; [reflexivity|].
  exists (m ← seqZ 0 (nmb_thispack pp); n ← seqZ 0 (nnghbr pp); InitRecv_posts g pp nvar bv m n).
  split.
  { subst bv'. unfold InitRecv. simpl.
    apply (for_range2_log (@mpi_log Real) (same_windows bv)).
    - intros n. auto.
    - intros m n t _ _ Ht. apply InitRecv_body_log. exact Ht. }
  split.
  { intros e He. apply InitRecv_posts_elem in He as (m & n & Hm & Hn & Hg & Hr & ->).
    exists m, n, (recv_data_size pp bv nvar m n). auto 6. }
  intros m n Hm Hn Hg.
  assert (He : neighbor_exists pp m n = true) by (unfold neighbor_exists; apply Z.leb_le; lia).
  assert (Hw : marked_waiting m n bv').
  { subst bv'. unfold InitRecv. simpl.
    apply (for_range2_reach (stat_room pp) (marked_waiting m n) _ _ _ m n); try assumption.
    - intros. apply InitRecv_body_room. assumption.
    - intros. apply InitRecv_body_keeps_waiting. assumption.
    - intros. apply InitRecv_body_sets_waiting; assumption. }
  destruct Hw as [Hv Hf]. split; [exact Hv|]. split; [exact Hf|].
  rewrite (filter_posts_pair _ _ _ m n Hm Hn)
    by (intros; apply InitRecv_posts_other; assumption).
  unfold InitRecv_posts. rewrite He. simpl. split.
  - intros Hr. unfold on_my_rank. apply Z.eqb_eq in Hr. rewrite Hr.
    rewrite andb_false_r. reflexivity.
  - intros Hr Hmpi. rewrite Hmpi. unfold on_my_rank.
    apply Z.eqb_neq in Hr. rewrite Hr. simpl.
    exists (recv_data_size pp bv nvar m n). split.
    + rewrite filter_cons_True; [reflexivity|]. simpl. rewrite !Z.eqb_refl. exact I.
    + unfold recv_data_size. repeat split; intros Hl.
      * apply Z.ltb_lt in Hl. rewrite Hl. reflexivity.
      * destruct (Z.ltb_spec (lev (nghbr pp m n)) (mb_lev pp m)); [lia|].
        apply Z.eqb_eq in Hl. rewrite Hl. reflexivity.
      * destruct (Z.ltb_spec (lev (nghbr pp m n)) (mb_lev pp m)); [lia|].
        destruct (Z.eqb_spec (lev (nghbr pp m n)) (mb_lev pp m)); [lia|]. reflexivity.
Qed.
End Receive.

(** ** ClearRecv and ClearSend *)

Section Clear.
Context {Real : Type} {RO : RealOps Real}.

(** The loop of [ClearRecv] and [ClearSend] only appends its waits to the
    log. *)
Lemma Clear_loop_effect g pp wait (bv : BoundaryValues Real) :
  send_buf (Clear_loop g pp wait bv) = send_buf bv /\
  recv_buf (Clear_loop g pp wait bv) = recv_buf bv /\
  mpi_log (Clear_loop g pp wait bv) = mpi_log bv ++ Clear_waits g pp wait.
Proof.
  unfold Clear_loop, Clear_waits.
  destruct (MPI_PARALLEL_ENABLED g); [|rewrite app_nil_r; auto].
  assert (Hk : forall m n (t : BoundaryValues Real),
             send_buf (Clear_body g pp wait m n t) = send_buf t /\
             recv_buf (Clear_body g pp wait m n t) = recv_buf t /\
             mpi_log (Clear_body g pp wait m n t) = mpi_log t ++
               (if neighbor_exists pp m n && negb (on_my_rank g pp m n)
                then [wait n m] else [])).
  { intros m n t. unfold Clear_body.
    destruct (neighbor_exists pp m n); simpl; [|rewrite app_nil_r; auto].
    destruct (negb (on_my_rank g pp m n)); simpl; [|rewrite app_nil_r]; auto. }
  split; [|split].
  - apply (for_range2_keeps (fun t => send_buf t = send_buf bv)); [reflexivity|].
    intros m n t _ _ Ht. destruct (Hk m n t) as (-> & _). exact Ht.
  - apply (for_range2_keeps (fun t => recv_buf t = recv_buf bv)); [reflexivity|].
    intros m n t _ _ Ht. destruct (Hk m n t) as (_ & -> & _). exact Ht.
  - apply (for_range2_log (@mpi_log Real) (fun _ => True)); [exact I|].
    intros m n t _ _ _. split; [exact I|]. apply Hk.
Qed.

(** The waits are those for the pairs with a valid neighbor on another rank.
    *)
Lemma Clear_waits_elem g pp wait e :
  e ∈ Clear_waits g pp wait <->
  MPI_PARALLEL_ENABLED g = true /\
  exists m n, e = wait n m /\ 0 <= m < nmb_thispack pp /\ 0 <= n < nnghbr pp /\
              gid (nghbr pp m n) >= 0 /\ rank (nghbr pp m n) <> my_rank g.
Proof.
  unfold Clear_waits. destruct (MPI_PARALLEL_ENABLED g).
  2:{ split; [intros H; inversion H | intros [H _]; discriminate]. }
  rewrite list_elem_of_bind. split.
  - intros (m & Hin & Hm). apply list_elem_of_bind in Hin as (n & Hin & Hn).
    apply elem_of_seqZ in Hm, Hn. split; [reflexivity|]. exists m, n.
    unfold neighbor_exists, on_my_rank in Hin.
    destruct (Z.leb_spec 0 (gid (nghbr pp m n))); simpl in Hin; [|inversion Hin].
    destruct (Z.eqb_spec (rank (nghbr pp m n)) (my_rank g)); simpl in Hin; [inversion Hin|].
    apply list_elem_of_singleton in Hin. repeat split; try assumption; lia.
  - intros (_ & m & n & -> & Hm & Hn & Hg & Hr). exists m. split; [|apply elem_of_seqZ; lia].
    apply list_elem_of_bind. exists n. split; [|apply elem_of_seqZ; lia].
    unfold neighbor_exists, on_my_rank.
    destruct (Z.leb_spec 0 (gid (nghbr pp m n))); [|lia].
    destruct (Z.eqb_spec (rank (nghbr pp m n)) (my_rank g)); [contradiction|].
    simpl. apply list_elem_of_singleton. reflexivity.
Qed.

(** C7 (ClearRecv and ClearSend, as the code has them): both return
    [complete] and leave both buffer arrays, hence every status flag, as
    they were; the only thing they do is wait, and only on the handles of
    pairs with a valid neighbor (gid >= 0) on another rank: every wait is
    for such a pair, and with the message-passing library every such pair
    is waited for. *)
Theorem Clear_waits_cross_rank_only (g : Globals) (pp : MeshBlockPack)
    (bv : BoundaryValues Real) :
  let r := ClearRecv g pp bv in
  let s := ClearSend g pp bv in
  snd r = complete /\ snd s = complete /\
  (send_buf (fst r) = send_buf bv /\ recv_buf (fst r) = recv_buf bv) /\
  (send_buf (fst s) = send_buf bv /\ recv_buf (fst s) = recv_buf bv) /\
  exists wr ws,
    mpi_log (fst r) = mpi_log bv ++ wr /\ mpi_log (fst s) = mpi_log bv ++ ws /\
    (forall e, e ∈ wr -> exists m n, e = Wait_recv n m /\
        0 <= m < nmb_thispack pp /\ 0 <= n < nnghbr pp /\
        gid (nghbr pp m n) >= 0 /\ rank (nghbr pp m n) <> my_rank g) /\
    (forall e, e ∈ ws -> exists m n, e = Wait_send n m /\
        0 <= m < nmb_thispack pp /\ 0 <= n < nnghbr pp /\
        gid (nghbr pp m n) >= 0 /\ rank (nghbr pp m n) <> my_rank g) /\
    (MPI_PARALLEL_ENABLED g = true ->
     forall m n, 0 <= m < nmb_thispack pp -> 0 <= n < nnghbr pp ->
       gid (nghbr pp m n) >= 0 -> rank (nghbr pp m n) <> my_rank g ->
       Wait_recv n m ∈ wr /\ Wait_send n m ∈ ws).
Proof.
  intros r s. subst r s. unfold ClearRecv, ClearSend. simpl.
  destruct (Clear_loop_effect g pp Wait_recv bv) as (Hs1 & Hr1 & Hl1).
  destruct (Clear_loop_effect g pp Wait_send bv) as (Hs2 & Hr2 & Hl2).
  split; [reflexivity|]. split; [reflexivity|].
  split; [split; assumption|]. split; [split; assumption|].
  exists (Clear_waits g pp Wait_recv), (Clear_waits g pp Wait_send).
  split; [exact Hl1|]. split; [exact Hl2|]. split; [|split].
  - intros e He. apply Clear_waits_elem in He as [_ He]. exact He.
  - intros e He. apply Clear_waits_elem in He as [_ He]. exact He.
  - intros Hmpi m n Hm Hn Hg Hr. split; apply Clear_waits_elem; (split; [exact Hmpi|]);
      exists m, n; auto.
Qed.
End Clear.

(** ** InitializeBuffers: the slots set up *)

Lemma calls_cases (P : bool -> bool -> bool -> Prop) :
  P false false false -> P false false true -> P false true false -> P false true true ->
  P true false false -> P true false true -> P true true false -> P true true true ->
  forall ms, P (multilevel ms) (multi_d ms) (three_d ms).
Proof. intros; destruct (multilevel ms), (multi_d ms), (three_d ms); assumption. Qed.

Lemma calls_eq ms :
  InitializeBuffers_calls ms =
  InitializeBuffers_calls (mkMesh false false (three_d ms) (multi_d ms) (multilevel ms) 0 0 0).
Proof. reflexivity. Qed.

(** The passes of [InitializeBuffers], checked for each of the meshes. *)
Lemma InitializeBuffers_calls_slots (ms : Mesh) :
  (three_d ms = true -> multi_d ms = true) ->
  let calls := InitializeBuffers_calls ms in
  Forall in_slot_range calls /\
  StronglySorted Z.lt (map bi_indx calls) /\
  (Z.of_nat (length calls) <= 56) /\
  (multilevel ms = true -> three_d ms = true -> map bi_indx calls = seqZ 0 56) /\
  (forall o1 o2 o3, o1 ∈ unit_offsets -> o2 ∈ unit_offsets -> o3 ∈ unit_offsets ->
     (o1, o2, o3) <> (0, 0, 0) ->
     (Exists (fun c => direction c = (o1, o2, o3)) calls <->
      (o2 <> 0 -> multi_d ms = true) /\ (o3 <> 0 -> three_d ms = true))) /\
  (multi_d ms = false -> Forall (fun c => bi_ox2 c = 0 /\ bi_ox3 c = 0 /\ 0 <= bi_indx c <= 7) calls) /\
  (three_d ms = false -> Forall (fun c => bi_ox3 c = 0 /\ 0 <= bi_indx c <= 23) calls).
Proof.
  intros H3 calls. subst calls. rewrite calls_eq.
  revert H3. 
  pattern (multilevel ms), (multi_d ms), (three_d ms). revert ms.
  apply calls_cases; intros H3; try (specialize (H3 eq_refl); discriminate H3).
  all: split; [compute_done|].
  all: split; [compute_done|].
  all: split; [vm_compute; discriminate|].
  all: split; [intros; try discriminate; vm_compute; reflexivity|].
  all: split; [|split; intros; try discriminate; compute_done].
  all: intros o1 o2 o3 Ho1 Ho2 Ho3 Hne.
  all: unfold unit_offsets in *.
  all: repeat (match goal with H : _ ∈ _ :: _ |- _ => apply elem_of_cons in H as [->|H] 
                          | H : _ ∈ [] |- _ => inversion H end).
  all: try congruence.
  all: compute_done.
Qed.

(** No slot is set up twice. *)
Lemma calls_indices_NoDup ms : NoDup (map bi_indx (InitializeBuffers_calls ms)).
Proof.
  rewrite calls_eq. pattern (multilevel ms), (multi_d ms), (three_d ms). revert ms.
  apply calls_cases; compute_done.
Qed.

Section Init.
Context {Real : Type} {RO : RealOps Real}.

(** A slot that no pass names keeps its buffers. *)
Lemma init_buffers_untouched (bm : BufferMethods Real) nmb0 nvar (bv : BoundaryValues Real) (l : list BufferInit) idx :
  idx ∉ map bi_indx l ->
  send_buf (foldl (init_one_buffer bm nmb0 nvar) bv l) idx = send_buf bv idx /\
  recv_buf (foldl (init_one_buffer bm nmb0 nvar) bv l) idx = recv_buf bv idx.
Proof.
  induction l as [|c l IH] using rev_ind; intros Hn; [auto|].
  rewrite foldl_app. simpl. rewrite map_app, elem_of_app in Hn. simpl in Hn.
  unfold arr_upd. destruct (decide (idx = bi_indx c)) as [->|Hne].
  - exfalso. apply Hn. right. left.
  - apply IH. tauto.
Qed.

(** A slot that a pass names holds the buffers this pass leaves. *)
Lemma init_buffers_touched (bm : BufferMethods Real) nmb0 nvar (bv : BoundaryValues Real) (l : list BufferInit) c :
  NoDup (map bi_indx l) -> c ∈ l ->
  send_buf (foldl (init_one_buffer bm nmb0 nvar) bv l) (bi_indx c)
    = initialized_send bm nmb0 nvar c (send_buf bv (bi_indx c)) /\
  recv_buf (foldl (init_one_buffer bm nmb0 nvar) bv l) (bi_indx c)
    = initialized_recv bm nmb0 nvar c (recv_buf bv (bi_indx c)).
Proof.
  induction l as [|c' l IH] using rev_ind; intros Hnd Hin; [inversion Hin|].
  rewrite map_app in Hnd. apply NoDup_app in Hnd as (Hnd & Hdisj & _).
  rewrite foldl_app. simpl. unfold arr_upd.
  apply elem_of_app in Hin as [Hin|Hin].
  - destruct (decide (bi_indx c = bi_indx c')) as [E|_].
    + exfalso. apply (Hdisj (bi_indx c)).
      * apply list_elem_of_fmap. exists c. auto.
      * rewrite E. simpl. left.
    + apply IH; assumption.
  - apply list_elem_of_singleton in Hin. subst c'.
    destruct (decide (bi_indx c = bi_indx c)) as [_|]; [|congruence].
    destruct (init_buffers_untouched bm nmb0 nvar bv l (bi_indx c)) as [-> ->].
    + intros Hc. apply (Hdisj (bi_indx c) Hc). simpl. left.
    + split; reflexivity.
Qed.

(** C8 (InitializeBuffers, slots): for a mesh whose flags are consistent
    (three-dimensional implies multi-dimensional), the buffers set up are
    exactly those of the directions without a component along a collapsed
    axis; each lies in the slot range of its class (x1 faces 0..7, x2 faces
    8..15, x1x2 edges 16..23, x3 faces 24..31, x3x1 edges 32..39, x2x3
    edges 40..47, corners 48..55); they are set up in increasing slot
    order, at most 56 of them, and all of 0..55 in a three-dimensional
    multilevel mesh; in 1-D only x1-face slots and in 2-D only slots below
    24 are set up; the send and the receive buffer of every such slot are
    initialised and allocated, and every other slot is left as it was. *)
Theorem InitializeBuffers_slots (bm : BufferMethods Real) (pp : MeshBlockPack) (nvar : Z)
    (bv : BoundaryValues Real) :
  (three_d (pmesh pp) = true -> multi_d (pmesh pp) = true) ->
  let ms := pmesh pp in
  let calls := InitializeBuffers_calls ms in
  let bv' := fst (InitializeBuffers bm pp nvar bv) in
  Forall in_slot_range calls /\
  StronglySorted Z.lt (map bi_indx calls) /\
  (Z.of_nat (length calls) <= 56) /\
  (multilevel ms = true -> three_d ms = true -> map bi_indx calls = seqZ 0 56) /\
  (forall o1 o2 o3, o1 ∈ unit_offsets -> o2 ∈ unit_offsets -> o3 ∈ unit_offsets ->
     (o1, o2, o3) <> (0, 0, 0) ->
     (Exists (fun c => direction c = (o1, o2, o3)) calls <->
      (o2 <> 0 -> multi_d ms = true) /\ (o3 <> 0 -> three_d ms = true))) /\
  (multi_d ms = false ->
     Forall (fun c => bi_ox2 c = 0 /\ bi_ox3 c = 0 /\ 0 <= bi_indx c <= 7) calls) /\
  (three_d ms = false -> Forall (fun c => bi_ox3 c = 0 /\ 0 <= bi_indx c <= 23) calls) /\
  (forall c, c ∈ calls ->
     send_buf bv' (bi_indx c)
       = initialized_send bm (nmb_thispack pp) nvar c (send_buf bv (bi_indx c)) /\
     recv_buf bv' (bi_indx c)
       = initialized_recv bm (nmb_thispack pp) nvar c (recv_buf bv (bi_indx c))) /\
  (forall idx, idx ∉ map bi_indx calls ->
     send_buf bv' idx = send_buf bv idx /\ recv_buf bv' idx = recv_buf bv idx).
Proof.
  intros H3 ms calls bv'.
  destruct (InitializeBuffers_calls_slots ms H3) as (A & B & C & D & E & F & G).
  repeat (split; [assumption|]). split.
  - intros c Hc. apply init_buffers_touched; [apply calls_indices_NoDup | exact Hc].
  - intros idx Hidx. apply init_buffers_untouched. exact Hidx.
Qed.
End Init.

(** ** Teams, windows and stores *)

Lemma team_decode pp nvar m n v :
  0 <= m -> 0 <= n < nnghbr pp -> 0 <= v < nvar ->
  let r := m * (nnghbr pp * nvar) + n * nvar + v in
  team_m pp nvar r = m /\ team_n pp nvar r = n /\ team_v pp nvar r = v.
Proof.
  intros Hm Hn Hv r.
  assert (H1 : 0 <= n * nvar) by nia.
  assert (H2 : n * nvar + nvar <= nnghbr pp * nvar) by nia.
  assert (H3 : 0 <= m * (nnghbr pp * nvar)) by nia.
  assert (Em : team_m pp nvar r = m).
  { unfold team_m. symmetry. apply (Z.quot_unique _ _ _ (n * nvar + v)); subst r; lia. }
  assert (En : team_n pp nvar r = n).
  { unfold team_n. rewrite Em. symmetry. apply (Z.quot_unique _ _ _ v); subst r; lia. }
  split; [exact Em|]. split; [exact En|].
  unfold team_v. rewrite Em, En. subst r. lia.
Qed.

Lemma team_rank_range pp nvar m n v :
  0 <= m < nmb pp -> 0 <= n < nnghbr pp -> 0 <= v < nvar ->
  0 <= m * (nnghbr pp * nvar) + n * nvar + v < nmb pp * nnghbr pp * nvar.
Proof.
  intros Hm Hn Hv.
  assert (H1 : 0 <= n * nvar) by nia.
  assert (H2 : n * nvar + nvar <= nnghbr pp * nvar) by nia.
  assert (H3 : 0 <= m * (nnghbr pp * nvar)) by nia.
  assert (H4 : m * (nnghbr pp * nvar) + nnghbr pp * nvar <= nmb pp * nnghbr pp * nvar) by nia.
  lia.
Qed.

(** Every league rank splits into a block, a slot and a variable within
    their ranges. *)
Lemma team_range pp nvar r :
  0 <= nmb pp -> 0 <= nnghbr pp -> 0 <= nvar ->
  0 <= r < nmb pp * nnghbr pp * nvar ->
  0 <= team_m pp nvar r < nmb pp /\ 0 <= team_n pp nvar r < nnghbr pp /\
  0 <= team_v pp nvar r < nvar.
Proof.
  intros Hb Hs Hv Hr.
  assert (0 < nnghbr pp) by nia. assert (0 < nvar) by nia.
  assert (HN : 0 < nnghbr pp * nvar) by nia.
  unfold team_v, team_n, team_m.
  set (N := nnghbr pp * nvar) in *.
  rewrite (Z.quot_div_nonneg r N) by lia.
  pose proof (Z.div_mod r N ltac:(lia)) as E1.
  pose proof (Z.mod_pos_bound r N HN) as B1.
  assert (E2 : r - r / N * N = r mod N) by lia. rewrite E2.
  rewrite (Z.quot_div_nonneg (r mod N) nvar) by lia.
  pose proof (Z.div_mod (r mod N) nvar ltac:(lia)) as E3.
  pose proof (Z.mod_pos_bound (r mod N) nvar ltac:(lia)) as B3.
  assert (0 <= r / N) by (apply Z.div_pos; lia).
  assert (0 <= r mod N / nvar) by (apply Z.div_pos; lia).
  split; [|split].
  - split; [lia|]. apply Z.div_lt_upper_bound; [lia|]. subst N. nia.
  - split; [lia|]. apply Z.div_lt_upper_bound; [lia|]. subst N. nia.
  - lia.
Qed.

(** The cells visited by the two inner loops, by the index [idx] of the
    middle loop. *)
Lemma window_cells_elem w k j i :
  (k, j, i) ∈ window_cells w <->
  exists idx, 0 <= idx < (bke w - bks w + 1) * (bje w - bjs w + 1) /\
    k = idx `quot` (bje w - bjs w + 1) + bks w /\
    j = idx - idx `quot` (bje w - bjs w + 1) * (bje w - bjs w + 1) + bjs w /\
    bis w <= i <= bie w.
Proof.
  unfold window_cells. rewrite list_elem_of_bind. split.
  - intros (idx & Hin & Hidx). apply elem_of_seqZ in Hidx.
    apply list_elem_of_bind in Hin as (i' & Hin & Hi). apply elem_of_seqZ in Hi.
    apply list_elem_of_singleton in Hin. inversion Hin; subst. exists idx.
    repeat split; lia.
  - intros (idx & Hidx & -> & -> & Hi). exists idx. split; [|apply elem_of_seqZ; lia].
    apply list_elem_of_bind. exists i. split; [|apply elem_of_seqZ; lia].
    apply list_elem_of_singleton. reflexivity.
Qed.

(** Every cell of the window is visited. *)
Lemma in_window_cells w k j i : in_window w k j i -> (k, j, i) ∈ window_cells w.
Proof.
  intros (Hi & Hj & Hk). apply window_cells_elem.
  set (nj := bje w - bjs w + 1). assert (0 < nj) by (subst nj; lia).
  exists ((k - bks w) * nj + (j - bjs w)).
  assert (E : ((k - bks w) * nj + (j - bjs w)) `quot` nj = k - bks w).
  { symmetry. apply (Z.quot_unique _ _ _ (j - bjs w)); subst nj; nia. }
  rewrite E. repeat split; try lia; subst nj; nia.
Qed.

(** The offset of a cell of the two inner loops is [i-il + ni*idx]. *)
Lemma window_cell_offset w idx i :
  buf_offset w i (idx - idx `quot` (bje w - bjs w + 1) * (bje w - bjs w + 1) + bjs w)
             (idx `quot` (bje w - bjs w + 1) + bks w)
  = i - bis w + (bie w - bis w + 1) * idx.
Proof. unfold buf_offset. cbv zeta. f_equal. f_equal. lia. Qed.

(** Two visited cells with the same offset are the same cell. *)
Lemma window_cells_offset_inj w k j i k' j' i' :
  (k, j, i) ∈ window_cells w -> (k', j', i') ∈ window_cells w ->
  buf_offset w i j k = buf_offset w i' j' k' -> (k, j, i) = (k', j', i').
Proof.
  intros H1 H2 Ho.
  apply window_cells_elem in H1 as (x & Hx & -> & -> & Hi).
  apply window_cells_elem in H2 as (y & Hy & -> & -> & Hi').
  rewrite !window_cell_offset in Ho.
  assert (x = y) by nia. subst y. assert (i = i') by nia. subst i'. reflexivity.
Qed.

(** Windows of equal extents give corresponding cells the same offset. *)
Lemma same_extents_same_offset ws wr a b c :
  bie ws - bis ws = bie wr - bis wr -> bje ws - bjs ws = bje wr - bjs wr ->
  buf_offset ws (bis ws + a) (bjs ws + b) (bks ws + c)
  = buf_offset wr (bis wr + a) (bjs wr + b) (bks wr + c).
Proof.
  intros Ei Ej. unfold buf_offset. cbv zeta.
  replace (bie wr - bis wr) with (bie ws - bis ws) by lia.
  replace (bje wr - bjs wr) with (bje ws - bjs ws) by lia. lia.
Qed.

Section Stores.
Context {Real : Type} {RO : RealOps Real}.

(** Reading a flux array after one assignment. *)
Lemma apply_flux_store_read (flx : DvceFaceFld5D Real) (s : FluxStore Real) f m v k j i :
  face_view (apply_flux_store flx s) f m v k j i
  = if decide (flux_target s f m v k j i) then fs_val s else face_view flx f m v k j i.
Proof.
  unfold apply_flux_store, flux_target.
  destruct s as [sf sm sv sk sj si sx]; simpl.
  destruct sf, f; simpl; unfold view5_set;
    repeat (case_decide; simpl); try reflexivity;
    exfalso; destruct_and?; subst; tauto.
Qed.

(** An element that no assignment writes keeps its value. *)
Lemma flux_stores_unchanged (flx : DvceFaceFld5D Real) (l : list (FluxStore Real)) f m v k j i :
  (forall s, s ∈ l -> ~ flux_target s f m v k j i) ->
  face_view (foldl apply_flux_store flx l) f m v k j i = face_view flx f m v k j i.
Proof.
  induction l as [|s l IH] using rev_ind; intros Hn; [reflexivity|].
  rewrite foldl_app. simpl. rewrite apply_flux_store_read.
  destruct (decide (flux_target s f m v k j i)) as [Ht|_].
  - exfalso. apply (Hn s); [apply elem_of_app; right; left | exact Ht].
  - apply IH. intros s' Hs'. apply Hn. apply elem_of_app. left. exact Hs'.
Qed.

(** An element whose assignments all carry [x] ends up as [x]. *)
Lemma flux_stores_written (flx : DvceFaceFld5D Real) (l : list (FluxStore Real)) f m v k j i x :
  (exists s, s ∈ l /\ flux_target s f m v k j i) ->
  (forall s, s ∈ l -> flux_target s f m v k j i -> fs_val s = x) ->
  face_view (foldl apply_flux_store flx l) f m v k j i = x.
Proof.
  induction l as [|s l IH] using rev_ind; intros (s0 & Hin & Ht0) Hall; [inversion Hin|].
  rewrite foldl_app. simpl. rewrite apply_flux_store_read.
  destruct (decide (flux_target s f m v k j i)) as [Ht|Hnt].
  - apply Hall; [apply elem_of_app; right; left | exact Ht].
  - apply IH.
    + apply elem_of_app in Hin as [Hin|Hin]; [exists s0; auto|].
      apply list_elem_of_singleton in Hin. subst s0. contradiction.
    + intros s' Hs'. apply Hall. apply elem_of_app. left. exact Hs'.
Qed.


(** Reading a buffer view after one assignment. *)
Lemma apply_buf_store_read (bv : BoundaryValues Real) (s : BufStore Real) side slot m v off :
  buf_view (apply_buf_store bv s) side slot m v off
  = if decide (buf_target s side slot m v off) then bs_val s else buf_view bv side slot m v off.
Proof.
  unfold apply_buf_store, buf_target, buf_view.
  destruct s as [ss sl sm sv so sx]; simpl.
  destruct ss, side; simpl; unfold arr_upd, view3_set;
    repeat (case_decide; simpl); try reflexivity;
    exfalso; destruct_and?; subst; tauto.
Qed.

(** An element that no assignment writes keeps its value. *)
Lemma buf_stores_unchanged (bv : BoundaryValues Real) (l : list (BufStore Real)) side slot m v off :
  (forall s, s ∈ l -> ~ buf_target s side slot m v off) ->
  buf_view (foldl apply_buf_store bv l) side slot m v off = buf_view bv side slot m v off.
Proof.
  induction l as [|s l IH] using rev_ind; intros Hn; [reflexivity|].
  rewrite foldl_app. simpl. rewrite apply_buf_store_read.
  destruct (decide (buf_target s side slot m v off)) as [Ht|_].
  - exfalso. apply (Hn s); [apply elem_of_app; right; left | exact Ht].
  - apply IH. intros s' Hs'. apply Hn. apply elem_of_app. left. exact Hs'.
Qed.

(** An element whose assignments all carry [x] ends up as [x]. *)
Lemma buf_stores_written (bv : BoundaryValues Real) (l : list (BufStore Real)) side slot m v off x :
  (exists s, s ∈ l /\ buf_target s side slot m v off) ->
  (forall s, s ∈ l -> buf_target s side slot m v off -> bs_val s = x) ->
  buf_view (foldl apply_buf_store bv l) side slot m v off = x.
Proof.
  induction l as [|s l IH] using rev_ind; intros (s0 & Hin & Ht0) Hall; [inversion Hin|].
  rewrite foldl_app. simpl. rewrite apply_buf_store_read.
  destruct (decide (buf_target s side slot m v off)) as [Ht|Hnt].
  - apply Hall; [apply elem_of_app; right; left | exact Ht].
  - apply IH.
    + apply elem_of_app in Hin as [Hin|Hin]; [exists s0; auto|].
      apply list_elem_of_singleton in Hin. subst s0. contradiction.
    + intros s' Hs'. apply Hall. apply elem_of_app. left. exact Hs'.
Qed.

(** The assignments of the pack kernel change views only. *)
Lemma buf_stores_frame (bv : BoundaryValues Real) (l : list (BufStore Real)) :
  (forall n, buffer_frame (send_buf (foldl apply_buf_store bv l) n) = buffer_frame (send_buf bv n)) /\
  (forall n, buffer_frame (recv_buf (foldl apply_buf_store bv l) n) = buffer_frame (recv_buf bv n)) /\
  mpi_log (foldl apply_buf_store bv l) = mpi_log bv.
Proof.
  induction l as [|s l IH] using rev_ind; [auto|].
  rewrite foldl_app. simpl. destruct IH as (Is & Ir & Il).
  unfold apply_buf_store. destruct (bs_side s); simpl; unfold arr_upd;
    (split; [|split]); try assumption; intros n;
    (destruct (decide (n = bs_slot s)); [subst n; rewrite <- ?Is, <- ?Ir; reflexivity|auto]).
Qed.
End Stores.

(** ** The unpack kernel *)

Section Kernels.
Context {Real : Type} {RO : RealOps Real}.

(** The assignments of one team of the unpack kernel. *)
Lemma unpack_team_elem pp (bv : BoundaryValues Real) m n v s :
  s ∈ unpack_team_stores pp bv m n v <->
  unpack_guard pp m n = true /\
  exists k j i, (k, j, i) ∈ window_cells (flux0 (recv_buf bv n)) /\
    s = mkFluxStore (face_of_slot n) m v k j i
          (data (recv_buf bv n) m v (buf_offset (flux0 (recv_buf bv n)) i j k)).
Proof.
  unfold unpack_team_stores. destruct (unpack_guard pp m n).
  - rewrite list_elem_of_bind. split.
    + intros ([[k j] i] & Hs & Hc). apply list_elem_of_singleton in Hs.
      split; [reflexivity|]. exists k, j, i. auto.
    + intros (_ & k & j & i & Hc & ->). exists (k, j, i). split; [|exact Hc].
      apply list_elem_of_singleton. reflexivity.
  - split; [intros H; inversion H | intros [H _]; discriminate].
Qed.

(** The assignments of a kernel are those of its teams (m, n, v) within the
    ranges. *)
Lemma kernel_elem {A : Type} (pp : MeshBlockPack) (nvar : Z) (team : Z -> Z -> Z -> list A) s :
  0 <= nmb pp -> 0 <= nnghbr pp -> 0 <= nvar ->
  s ∈ (r ← seqZ 0 (nmb pp * nnghbr pp * nvar);
       team (team_m pp nvar r) (team_n pp nvar r) (team_v pp nvar r)) <->
  exists m n v, 0 <= m < nmb pp /\ 0 <= n < nnghbr pp /\ 0 <= v < nvar /\ s ∈ team m n v.
Proof.
  intros Hb Hs Hv. rewrite list_elem_of_bind. split.
  - intros (r & Hin & Hr). apply elem_of_seqZ in Hr.
    destruct (team_range pp nvar r Hb Hs Hv) as (Rm & Rn & Rv); [lia|].
    eauto 10.
  - intros (m & n & v & Hm & Hn & Hv' & Hin).
    exists (m * (nnghbr pp * nvar) + n * nvar + v).
    destruct (team_decode pp nvar m n v) as (-> & -> & ->); try lia.
    split; [exact Hin|]. apply elem_of_seqZ.
    pose proof (team_rank_range pp nvar m n v Hm Hn Hv'). lia.
Qed.

(** The unpack kernel reads the flux windows and the views only. *)
Lemma unpack_kernel_frame pp nvar (bv t : BoundaryValues Real) :
  (forall n, flux0 (recv_buf t n) = flux0 (recv_buf bv n) /\
             data (recv_buf t n) = data (recv_buf bv n)) ->
  unpack_kernel_stores pp nvar t = unpack_kernel_stores pp nvar bv.
Proof.
  intros H. unfold unpack_kernel_stores. apply list_bind_ext; [|reflexivity].
  intros r. unfold unpack_team_stores. destruct (H (team_n pp nvar r)) as [-> ->].
  reflexivity.
Qed.

Lemma unpack_guard_spec pp m n :
  unpack_guard pp m n = true <->
  ccflx (nghbr pp m n) = true /\ lev (nghbr pp m n) > mb_lev pp m.
Proof.
  unfold unpack_guard. rewrite andb_true_iff, Z.gtb_ltb, Z.ltb_lt. intuition lia.
Qed.

Lemma pack_guard_spec pp m n :
  pack_guard pp m n = true <->
  ccflx (nghbr pp m n) = true /\ lev (nghbr pp m n) < mb_lev pp m.
Proof. unfold pack_guard. rewrite andb_true_iff, Z.ltb_lt. tauto. Qed.

(** What the unpack kernel does to the flux arrays. *)
Lemma unpack_kernel_effect pp (flx : DvceFaceFld5D Real) (bv : BoundaryValues Real) :
  0 <= nmb pp -> 0 <= nnghbr pp -> 0 <= x1f_extent1 flx ->
  let flx' := unpack_kernel pp flx bv in
  (forall m n v k j i,
     0 <= m < nmb pp -> 0 <= n < nnghbr pp -> 0 <= v < x1f_extent1 flx ->
     unpack_guard pp m n = true ->
     in_window (flux0 (recv_buf bv n)) k j i ->
     sole_unpacker pp bv m n k j i ->
     face_view flx' (face_of_slot n) m v k j i
     = data (recv_buf bv n) m v (buf_offset (flux0 (recv_buf bv n)) i j k)) /\
  (forall f m v k j i,
     (forall n, 0 <= n < nnghbr pp -> unpack_guard pp m n = true -> face_of_slot n = f ->
                (k, j, i) ∉ window_cells (flux0 (recv_buf bv n))) ->
     face_view flx' f m v k j i = face_view flx f m v k j i).
Proof.
  intros Hb Hs Hv flx'. subst flx'. unfold unpack_kernel, unpack_kernel_stores. split.
  - intros m n v k j i Hm Hn Hv' Hg Hw Hsole.
    apply flux_stores_written.
    + eexists. split.
      * apply kernel_elem; try assumption. exists m, n, v. repeat (split; [assumption|]).
        apply unpack_team_elem. split; [exact Hg|]. exists k, j, i.
        split; [apply in_window_cells; exact Hw | reflexivity].
      * repeat split.
    + intros s Hin Ht. apply kernel_elem in Hin as (m2 & n2 & v2 & Hm2 & Hn2 & Hv2 & Hin);
        try assumption.
      apply unpack_team_elem in Hin as (Hg2 & k2 & j2 & i2 & Hc2 & ->).
      destruct Ht as (Hf & Em & Ev & Ek & Ej & Ei). simpl in *. subst m2 v2 k2 j2 i2.
      rewrite (Hsole n2 Hn2 Hg2 Hf Hc2). reflexivity.
  - intros f m v k j i Hnone. apply flux_stores_unchanged.
    intros s Hin Ht. apply kernel_elem in Hin as (m2 & n2 & v2 & Hm2 & Hn2 & Hv2 & Hin);
      try assumption.
    apply unpack_team_elem in Hin as (Hg2 & k2 & j2 & i2 & Hc2 & ->).
    destruct Ht as (Hf & Em & Ev & Ek & Ej & Ei). simpl in *. subst m2 v2 k2 j2 i2.
    apply (Hnone n2 Hn2 Hg2 Hf Hc2).
Qed.
End Kernels.

(** ** RecvAndUnpackFluxCC: step 1 *)

Lemma vec_get_set_cases {A : Type} (l : list A) (i : Z) (x : A) :
  vec_get (vec_set l i x) i = Some x \/ vec_get (vec_set l i x) i = None.
Proof.
  unfold vec_get, vec_set. destruct (decide (0 <= i)); [|auto].
  destruct (decide (Z.to_nat i < length l)%nat).
  - left. apply list_lookup_insert_eq. assumption.
  - right. apply lookup_ge_None. rewrite length_insert. lia.
Qed.

Section Check.
Context {Real : Type} {RO : RealOps Real}.

Lemma check_body_frame g pp bv m n (st : BoundaryValues Real * bool) :
  check_frame bv (fst st) -> check_frame bv (fst (check_body g pp m n st)).
Proof.
  destruct st as [t b]. intros Hf. unfold check_body.
  destruct (neighbor_exists pp m n); [|exact Hf].
  destruct (on_my_rank g pp m n); [case_decide; exact Hf|].
  destruct (MPI_PARALLEL_ENABLED g); [|exact Hf].
  destruct (MPI_Test g n m); simpl; [|exact Hf].
  destruct Hf as [Hs Hr]. split; [exact Hs|]. intros n'. simpl. unfold arr_upd.
  destruct (decide (n' = n)); [subst n'; simpl|]; apply Hr.
Qed.

Lemma check_body_same_rank g pp bv m n (st : BoundaryValues Real * bool) :
  same_rank_flags_kept g pp bv (fst st) ->
  same_rank_flags_kept g pp bv (fst (check_body g pp m n st)).
Proof.
  destruct st as [t b]. intros Hk. unfold check_body.
  destruct (neighbor_exists pp m n); [|exact Hk].
  destruct (on_my_rank g pp m n) eqn:Er; [case_decide; exact Hk|].
  destruct (MPI_PARALLEL_ENABLED g); [|exact Hk].
  destruct (MPI_Test g n m); simpl; [|exact Hk].
  intros m' n' Hr'. simpl. unfold arr_upd.
  destruct (decide (n' = n)); [subst n'; simpl|apply Hk; exact Hr'].
  rewrite vec_get_set_ne; [apply Hk; exact Hr'|]. intros ->. congruence.
Qed.

(** [bflag] is never reset. *)
Lemma check_body_flag_mono g pp m n (st : BoundaryValues Real * bool) :
  snd st = true -> snd (check_body g pp m n st) = true.
Proof.
  destruct st as [t b]. simpl. intros ->. unfold check_body.
  destruct (neighbor_exists pp m n); [|reflexivity].
  destruct (on_my_rank g pp m n); [case_decide; reflexivity|].
  destruct (MPI_PARALLEL_ENABLED g); [|reflexivity].
  destruct (MPI_Test g n m); reflexivity.
Qed.

Lemma check_received_frame g pp (bv : BoundaryValues Real) :
  check_frame bv (fst (check_received g pp bv)) /\
  same_rank_flags_kept g pp bv (fst (check_received g pp bv)).
Proof.
  unfold check_received.
  apply (for_range2_keeps (fun st => check_frame bv (fst st) /\
                                      same_rank_flags_kept g pp bv (fst st))).
  - split; [split; auto | intros m n _; reflexivity].
  - intros m n st _ _ [Hf Hk]. split;
      [apply check_body_frame | apply check_body_same_rank]; assumption.
Qed.

(** An outstanding pair raises [bflag]. *)
Lemma check_received_outstanding g pp (bv : BoundaryValues Real) m n :
  0 <= m < nmb pp -> 0 <= n < nnghbr pp ->
  outstanding g pp bv m n ->
  snd (check_received g pp bv) = true.
Proof.
  intros Hm Hn [Hg Ho]. unfold check_received.
  apply (for_range2_reach (fun st => same_rank_flags_kept g pp bv (fst st))
                          (fun st => snd st = true) _ _ _ m n); try assumption.
  - intros m' n' _. reflexivity.
  - intros. apply check_body_same_rank. assumption.
  - intros. apply check_body_flag_mono. assumption.
  - intros [t b] Hk. simpl in Hk. unfold check_body.
    assert (He : neighbor_exists pp m n = true) by (unfold neighbor_exists; apply Z.leb_le; lia).
    rewrite He. destruct Ho as [[Hr Hw]|(Hr & Hmpi & Ht)].
    + assert (Er : on_my_rank g pp m n = true) by (unfold on_my_rank; apply Z.eqb_eq; exact Hr).
      rewrite Er. rewrite (Hk m n Er), Hw. case_decide; [reflexivity|congruence].
    + assert (Er : on_my_rank g pp m n = false) by (unfold on_my_rank; apply Z.eqb_neq; exact Hr).
      rewrite Er, Hmpi, Ht. reflexivity.
Qed.

(** No pass of step 1 makes a flag [waiting]. *)
Lemma check_body_not_waiting g pp m n m0 n0 (st : BoundaryValues Real * bool) :
  not_waiting m0 n0 (fst st) -> not_waiting m0 n0 (fst (check_body g pp m n st)).
Proof.
  destruct st as [t b]. unfold not_waiting. simpl. intros Hk. unfold check_body.
  destruct (neighbor_exists pp m n); [|exact Hk].
  destruct (on_my_rank g pp m n); [case_decide; exact Hk|].
  destruct (MPI_PARALLEL_ENABLED g); [|exact Hk].
  destruct (MPI_Test g n m); simpl; [|exact Hk].
  unfold arr_upd. destruct (decide (n0 = n)); [subst n0; simpl|exact Hk].
  destruct (decide (m = m0)) as [->|Hne].
  - destruct (vec_get_set_cases (flx_stat (recv_buf t n)) m0 received) as [-> | ->]; discriminate.
  - rewrite vec_get_set_ne by exact Hne. exact Hk.
Qed.

(** If [bflag] stays down, no valid pair is left [waiting]. *)
Lemma check_received_complete g pp (bv : BoundaryValues Real) m n :
  0 <= m < nmb pp -> 0 <= n < nnghbr pp ->
  gid (nghbr pp m n) >= 0 ->
  rank (nghbr pp m n) = my_rank g \/ MPI_PARALLEL_ENABLED g = true ->
  snd (check_received g pp bv) = false ->
  not_waiting m n (fst (check_received g pp bv)).
Proof.
  intros Hm Hn Hg Hc Hb.
  destruct (decide (rank (nghbr pp m n) = my_rank g)) as [Hr|Hr].
  - assert (Er : on_my_rank g pp m n = true) by (unfold on_my_rank; apply Z.eqb_eq; exact Hr).
    unfold not_waiting. rewrite (proj2 (check_received_frame g pp bv) m n Er).
    intros Hw. rewrite (check_received_outstanding g pp bv m n Hm Hn) in Hb; [discriminate|].
    split; [exact Hg|]. left. auto.
  - destruct Hc as [Hc|Hmpi]; [contradiction|].
    destruct (MPI_Test g n m) eqn:Ht.
    2:{ rewrite (check_received_outstanding g pp bv m n Hm Hn) in Hb; [discriminate|].
        split; [exact Hg|]. right. auto. }
    unfold check_received.
    apply (for_range2_reach (fun _ => True) (fun st => not_waiting m n (fst st)) _ _ _ m n);
      try assumption; auto.
    + intros. apply check_body_not_waiting. assumption.
    + intros [t b] _. unfold check_body, not_waiting.
      assert (He : neighbor_exists pp m n = true) by (unfold neighbor_exists; apply Z.leb_le; lia).
      assert (Er : on_my_rank g pp m n = false) by (unfold on_my_rank; apply Z.eqb_neq; exact Hr).
      rewrite He, Er, Hmpi, Ht. simpl. unfold arr_upd.
      destruct (decide (n = n)); [simpl|congruence].
      destruct (vec_get_set_cases (flx_stat (recv_buf t n)) m received) as [-> | ->]; discriminate.
Qed.

(** The probe leaves both buffer arrays as they are. *)
Lemma probe_buffers g (bv : BoundaryValues Real) :
  send_buf (probe g bv) = send_buf bv /\ recv_buf (probe g bv) = recv_buf bv.
Proof. unfold probe. destruct (MPI_PARALLEL_ENABLED g); split; reflexivity. Qed.


(** Without the message-passing library nothing is probed. *)
Lemma probe_serial g (bv : BoundaryValues Real) :
  MPI_PARALLEL_ENABLED g = false -> probe g bv = bv.
Proof. intros H. unfold probe. rewrite H. reflexivity. Qed.

(** A pair is outstanding after the probe exactly when it was before. *)
Lemma probe_outstanding g pp (bv : BoundaryValues Real) m n :
  outstanding g pp (probe g bv) m n <-> outstanding g pp bv m n.
Proof. unfold outstanding. rewrite (proj2 (probe_buffers g bv)). reflexivity. Qed.

(** C3 (RecvAndUnpackFluxCC, step 1, as the code has it): if some valid
    pair is outstanding when the call polls it (a same-rank pair whose flux
    receive status is [waiting], or with the message-passing library a pair
    of another rank whose receive [MPI_Test] reports as not completed) the
    call returns [incomplete]; whenever it returns [incomplete] the flux
    arrays are returned as they were; when it returns [complete] the arrays
    are those of the unpack kernel and no valid pair (same-rank, or any
    pair with the message-passing library) is left [waiting]. *)
Theorem RecvAndUnpackFluxCC_incomplete (g : Globals) (pp : MeshBlockPack)
    (flx : DvceFaceFld5D Real) (bv : BoundaryValues Real) :
  let bv' := fst (fst (RecvAndUnpackFluxCC g pp flx bv)) in
  let flx' := snd (fst (RecvAndUnpackFluxCC g pp flx bv)) in
  let st := snd (RecvAndUnpackFluxCC g pp flx bv) in
  ((exists m n, 0 <= m < nmb pp /\ 0 <= n < nnghbr pp /\ outstanding g pp bv m n) ->
   st = incomplete) /\
  (st = incomplete -> flx' = flx) /\
  (st = complete ->
   flx' = unpack_kernel pp flx bv' /\
   forall m n, 0 <= m < nmb pp -> 0 <= n < nnghbr pp -> gid (nghbr pp m n) >= 0 ->
     rank (nghbr pp m n) = my_rank g \/ MPI_PARALLEL_ENABLED g = true ->
     vec_get (flx_stat (recv_buf bv' n)) m <> Some waiting).
Proof.
  intros bv' flx' st. subst bv' flx' st. unfold RecvAndUnpackFluxCC.
  pose proof (check_received_outstanding g pp (probe g bv)) as Hout.
  pose proof (check_received_complete g pp (probe g bv)) as Hcomp.
  destruct (check_received g pp (probe g bv)) as [t b]. simpl in *.
  destruct b; simpl; split; [| split | | split]; try discriminate; auto.
  - intros (m & n & Hm & Hn & Ho). apply (proj2 (probe_outstanding g pp bv m n)) in Ho.
    specialize (Hout m n Hm Hn Ho). discriminate.
  - intros _. split; [reflexivity|]. intros m n Hm Hn Hg Hc. apply Hcomp; auto.
Qed.
End Check.

(** ** The pack kernel and the send loop *)

Section Pack.
Context {Real : Type} {RO : RealOps Real}.

(** The assignments of one team of the pack kernel. *)
Lemma pack_team_elem g pp (flx : DvceFaceFld5D Real) (bv : BoundaryValues Real) m n v s :
  s ∈ pack_team_stores g pp flx bv m n v <->
  pack_guard pp m n = true /\
  exists k j i, (k, j, i) ∈ window_cells (flux0 (send_buf bv n)) /\
    s = (if rank (nghbr pp m n) =? my_rank g
         then mkBufStore ToRecv (dest (nghbr pp m n)) (gid (nghbr pp m n) - mb_gid pp 0) v
         else mkBufStore ToSend n m v)
          (buf_offset (flux0 (send_buf bv n)) i j k)
          (restricted_flux (pmesh pp) flx n m v k j i).
Proof.
  unfold pack_team_stores. destruct (pack_guard pp m n).
  - rewrite list_elem_of_bind. split.
    + intros ([[k j] i] & Hs & Hc). split; [reflexivity|]. exists k, j, i.
      split; [exact Hc|]. destruct (rank (nghbr pp m n) =? my_rank g);
        apply list_elem_of_singleton in Hs; exact Hs.
    + intros (_ & k & j & i & Hc & ->). exists (k, j, i). split; [|exact Hc].
      destruct (rank (nghbr pp m n) =? my_rank g); apply list_elem_of_singleton; reflexivity.
  - split; [intros H; inversion H | intros [H _]; discriminate].
Qed.

(** What the pack kernel does to the views of the buffers. *)
Lemma pack_kernel_effect g pp (flx : DvceFaceFld5D Real) (bv : BoundaryValues Real) :
  0 <= nmb pp -> 0 <= nnghbr pp -> 0 <= x1f_extent1 flx ->
  let bv1 := pack_kernel g pp flx bv in
  (forall m n v k j i,
     0 <= m < nmb pp -> 0 <= n < nnghbr pp -> 0 <= v < x1f_extent1 flx ->
     pack_guard pp m n = true -> rank (nghbr pp m n) = my_rank g ->
     in_window (flux0 (send_buf bv n)) k j i ->
     sole_sender g pp m n (gid (nghbr pp m n) - mb_gid pp 0) (dest (nghbr pp m n)) ->
     buf_view bv1 ToRecv (dest (nghbr pp m n)) (gid (nghbr pp m n) - mb_gid pp 0) v
              (buf_offset (flux0 (send_buf bv n)) i j k)
     = restricted_flux (pmesh pp) flx n m v k j i) /\
  (forall m n v k j i,
     0 <= m < nmb pp -> 0 <= n < nnghbr pp -> 0 <= v < x1f_extent1 flx ->
     pack_guard pp m n = true -> rank (nghbr pp m n) <> my_rank g ->
     in_window (flux0 (send_buf bv n)) k j i ->
     buf_view bv1 ToSend n m v (buf_offset (flux0 (send_buf bv n)) i j k)
     = restricted_flux (pmesh pp) flx n m v k j i) /\
  (forall m n v off,
     pack_guard pp m n = false \/ rank (nghbr pp m n) = my_rank g ->
     buf_view bv1 ToSend n m v off = buf_view bv ToSend n m v off) /\
  (forall nn mm v off,
     (forall m n, 0 <= m < nmb pp -> 0 <= n < nnghbr pp -> pack_guard pp m n = true ->
        rank (nghbr pp m n) = my_rank g ->
        ~ (dest (nghbr pp m n) = nn /\ gid (nghbr pp m n) - mb_gid pp 0 = mm)) ->
     buf_view bv1 ToRecv nn mm v off = buf_view bv ToRecv nn mm v off).
Proof.
  intros Hb Hs Hv bv1. subst bv1. unfold pack_kernel, pack_kernel_stores.
  split; [|split; [|split]].
  - intros m n v k j i Hm Hn Hv' Hg Hr Hw Hsole.
    apply buf_stores_written.
    + eexists. split.
      * apply kernel_elem; try assumption. exists m, n, v. repeat (split; [assumption|]).
        apply pack_team_elem. split; [exact Hg|]. exists k, j, i.
        split; [apply in_window_cells; exact Hw | reflexivity].
      * apply Z.eqb_eq in Hr. rewrite Hr. repeat split.
    + intros s Hin Ht. apply kernel_elem in Hin as (m2 & n2 & v2 & Hm2 & Hn2 & Hv2 & Hin);
        try assumption.
      apply pack_team_elem in Hin as (Hg2 & k2 & j2 & i2 & Hc2 & ->).
      destruct (Z.eqb_spec (rank (nghbr pp m2 n2)) (my_rank g)) as [Hr2|Hr2];
        destruct Ht as (Hside & Hslot & Em & Ev & Eo); simpl in *; [|discriminate].
      assert (E : (m2, n2) = (m, n)) by (apply Hsole; assumption).
      inversion E; subst m2 n2 v2.
      assert (Ec : (k2, j2, i2) = (k, j, i)).
      { apply (window_cells_offset_inj (flux0 (send_buf bv n))); try assumption.
        apply in_window_cells. exact Hw. }
      inversion Ec; subst. reflexivity.
  - intros m n v k j i Hm Hn Hv' Hg Hr Hw.
    apply buf_stores_written.
    + eexists. split.
      * apply kernel_elem; try assumption. exists m, n, v. repeat (split; [assumption|]).
        apply pack_team_elem. split; [exact Hg|]. exists k, j, i.
        split; [apply in_window_cells; exact Hw | reflexivity].
      * apply Z.eqb_neq in Hr. rewrite Hr. repeat split.
    + intros s Hin Ht. apply kernel_elem in Hin as (m2 & n2 & v2 & Hm2 & Hn2 & Hv2 & Hin);
        try assumption.
      apply pack_team_elem in Hin as (Hg2 & k2 & j2 & i2 & Hc2 & ->).
      destruct (Z.eqb_spec (rank (nghbr pp m2 n2)) (my_rank g)) as [Hr2|Hr2];
        destruct Ht as (Hside & Hslot & Em & Ev & Eo); simpl in *; [discriminate|].
      subst m2 n2 v2.
      assert (Ec : (k2, j2, i2) = (k, j, i)).
      { apply (window_cells_offset_inj (flux0 (send_buf bv n))); try assumption.
        apply in_window_cells. exact Hw. }
      inversion Ec; subst. reflexivity.
  - intros m n v off Hc. apply buf_stores_unchanged.
    intros s Hin Ht. apply kernel_elem in Hin as (m2 & n2 & v2 & Hm2 & Hn2 & Hv2 & Hin);
      try assumption.
    apply pack_team_elem in Hin as (Hg2 & k2 & j2 & i2 & Hc2 & ->).
    destruct (Z.eqb_spec (rank (nghbr pp m2 n2)) (my_rank g)) as [Hr2|Hr2];
      destruct Ht as (Hside & Hslot & Em & Ev & Eo); simpl in *; [discriminate|].
    subst m2 n2. destruct Hc as [Hc|Hc]; congruence.
  - intros nn mm v off Hnone. apply buf_stores_unchanged.
    intros s Hin Ht. apply kernel_elem in Hin as (m2 & n2 & v2 & Hm2 & Hn2 & Hv2 & Hin);
      try assumption.
    apply pack_team_elem in Hin as (Hg2 & k2 & j2 & i2 & Hc2 & ->).
    destruct (Z.eqb_spec (rank (nghbr pp m2 n2)) (my_rank g)) as [Hr2|Hr2];
      destruct Ht as (Hside & Hslot & Em & Ev & Eo); simpl in *; [|discriminate].
    apply (Hnone m2 n2); auto.
Qed.

(** One pass of the loop after the kernel keeps the views and appends the
    send of its pair. *)
Lemma send_body_step g pp nvar (bv : BoundaryValues Real) m n (t : BoundaryValues Real) :
  send_frame bv t ->
  send_frame bv (send_body g pp nvar m n t) /\
  mpi_log (send_body g pp nvar m n t) = mpi_log t ++ send_posts g pp nvar bv m n.
Proof.
  intros [Hs Hr]. unfold send_body, send_posts.
  destruct (neighbor_exists pp m n); simpl; [|rewrite app_nil_r; split; [split|]; auto].
  destruct (on_my_rank g pp m n); simpl.
  - rewrite app_nil_r. split; [|reflexivity]. split; [exact Hs|].
    intros n'. simpl. unfold arr_upd.
    destruct (decide (n' = dest (nghbr pp m n)));
      [subst n'; simpl; rewrite vec_set_length|]; apply Hr.
  - destruct (MPI_PARALLEL_ENABLED g); simpl.
    + rewrite Hs. split; [split; auto | reflexivity].
    + rewrite app_nil_r. split; [split; auto | reflexivity].
Qed.

(** No pass of that loop takes a [received] flag away. *)
Lemma send_body_keeps_received g pp nvar m n mm nn (t : BoundaryValues Real) :
  flux_received mm nn t -> flux_received mm nn (send_body g pp nvar m n t).
Proof.
  unfold flux_received, send_body. intros H.
  destruct (neighbor_exists pp m n); [|exact H].
  destruct (on_my_rank g pp m n); [|destruct (MPI_PARALLEL_ENABLED g); exact H].
  simpl. unfold arr_upd. destruct (decide (nn = dest (nghbr pp m n))); [subst nn; simpl|exact H].
  apply vec_get_set_same. exact H.
Qed.

(** No send is issued for a same-rank pair, nor by the pass of another pair.
    *)
Lemma send_posts_other g pp nvar (bv : BoundaryValues Real) m n m' n' :
  (m', n') <> (m, n) \/ on_my_rank g pp m n = true ->
  filter (is_Isend_for n m) (send_posts g pp nvar bv m' n') = [].
Proof.
  intros Hne. unfold send_posts.
  destruct (neighbor_exists pp m' n'); [|reflexivity]. simpl.
  destruct (on_my_rank g pp m' n') eqn:Er; [reflexivity|]. simpl.
  destruct (MPI_PARALLEL_ENABLED g); [|reflexivity].
  rewrite filter_cons_False; [reflexivity|]. simpl. intros H.
  apply Is_true_true, andb_true_iff in H as [H1 H2].
  apply Z.eqb_eq in H1, H2. subst. destruct Hne; congruence.
Qed.
End Pack.

(** ** Flux correction across a refinement jump *)

Section Flux.
Context {Real : Type} {RO : RealOps Real}.

(** No pass of that loop makes a flag [waiting]. *)
Lemma send_body_not_waiting g pp nvar m n m0 n0 (t : BoundaryValues Real) :
  not_waiting m0 n0 t -> not_waiting m0 n0 (send_body g pp nvar m n t).
Proof.
  unfold not_waiting, send_body. intros H.
  destruct (neighbor_exists pp m n); [|exact H].
  destruct (on_my_rank g pp m n); [|destruct (MPI_PARALLEL_ENABLED g); exact H].
  simpl. unfold arr_upd. destruct (decide (n0 = dest (nghbr pp m n))); [subst n0; simpl|exact H].
  destruct (decide (gid (nghbr pp m n) - gids pp = m0)) as [<-|Hne].
  - destruct (vec_get_set_cases (flx_stat (recv_buf t (dest (nghbr pp m n))))
                (gid (nghbr pp m n) - gids pp) received) as [-> | ->]; discriminate.
  - rewrite vec_get_set_ne by exact Hne. exact H.
Qed.

(** When step 1 lets the call through, the flux arrays returned are those
    the unpack kernel makes from the buffers as they were at the call. *)
Lemma RecvAndUnpackFluxCC_step2 g pp (flx : DvceFaceFld5D Real) (bv : BoundaryValues Real) :
  snd (RecvAndUnpackFluxCC g pp flx bv) = complete ->
  snd (fst (RecvAndUnpackFluxCC g pp flx bv)) = unpack_kernel pp flx bv.
Proof.
  unfold RecvAndUnpackFluxCC.
  destruct (check_received_frame g pp (probe g bv)) as [[_ Hf] _].
  destruct (check_received g pp (probe g bv)) as [t b]. simpl in Hf.
  destruct b; simpl; [discriminate|]. intros _.
  unfold unpack_kernel. rewrite (unpack_kernel_frame pp _ bv t); [reflexivity|].
  intros n. destruct (Hf n) as (H1 & H2 & _).
  rewrite (proj2 (probe_buffers g bv)) in H1, H2. auto.
Qed.

(** C1 (RecvAndUnpackFluxCC, step 2, as the code has it): when the call
    reaches step 2, for every block [m] and slot [n] whose neighbor is
    flux-relevant and at a FINER level, the face flux of block [m] (the
    coarser side), in the face array of the slot, is overwritten at every
    cell of the receive window by the buffer value at the flattened
    offset of that cell, when no other unpacking slot of the block covers
    the cell; a slot whose neighbor is not flux-relevant, or is at the same
    or at a coarser level, issues no store at all; a flux element covered
    by no unpacking slot keeps its value; and two cells of a window never
    share an offset, so every cell has a buffer value of its own (nothing
    is broadcast). *)
Theorem RecvAndUnpackFluxCC_overwrites (g : Globals) (pp : MeshBlockPack)
    (flx : DvceFaceFld5D Real) (bv : BoundaryValues Real) :
  0 <= nmb pp -> 0 <= nnghbr pp -> 0 <= x1f_extent1 flx ->
  snd (RecvAndUnpackFluxCC g pp flx bv) = complete ->
  let flx' := snd (fst (RecvAndUnpackFluxCC g pp flx bv)) in
  (forall m n v k j i,
     0 <= m < nmb pp -> 0 <= n < nnghbr pp -> 0 <= v < x1f_extent1 flx ->
     ccflx (nghbr pp m n) = true -> lev (nghbr pp m n) > mb_lev pp m ->
     in_window (flux0 (recv_buf bv n)) k j i ->
     sole_unpacker pp bv m n k j i ->
     face_view flx' (face_of_slot n) m v k j i
     = data (recv_buf bv n) m v (buf_offset (flux0 (recv_buf bv n)) i j k)) /\
  (forall m n v,
     ccflx (nghbr pp m n) = false \/ lev (nghbr pp m n) <= mb_lev pp m ->
     unpack_team_stores pp bv m n v = []) /\
  (forall f m v k j i,
     (forall n, 0 <= n < nnghbr pp ->
        ccflx (nghbr pp m n) = true -> lev (nghbr pp m n) > mb_lev pp m ->
        face_of_slot n = f -> (k, j, i) ∉ window_cells (flux0 (recv_buf bv n))) ->
     face_view flx' f m v k j i = face_view flx f m v k j i) /\
  (forall n k j i k' j' i',
     in_window (flux0 (recv_buf bv n)) k j i -> in_window (flux0 (recv_buf bv n)) k' j' i' ->
     buf_offset (flux0 (recv_buf bv n)) i j k = buf_offset (flux0 (recv_buf bv n)) i' j' k' ->
     (k, j, i) = (k', j', i')).
Proof.
  intros Hb Hs Hv Hst flx'. subst flx'. rewrite (RecvAndUnpackFluxCC_step2 g pp flx bv Hst).
  destruct (unpack_kernel_effect pp flx bv Hb Hs Hv) as [Hw Hu].
  split; [|split; [|split]];
    [| | | intros n k j i k' j' i' H1 H2;
           apply window_cells_offset_inj; apply in_window_cells; assumption].
  - intros m n v k j i Hm Hn Hv' Hcc Hl Hin Hsole. apply Hw; try assumption.
    apply unpack_guard_spec. auto.
  - intros m n v Hc. unfold unpack_team_stores.
    destruct (unpack_guard pp m n) eqn:Hg; [|reflexivity].
    apply unpack_guard_spec in Hg as [Hcc Hl]. destruct Hc; [congruence|lia].
  - intros f m v k j i Hnone. apply Hu. intros n Hn Hg Hf.
    apply unpack_guard_spec in Hg as [Hcc Hl]. apply Hnone; assumption.
Qed.

(** After [PackAndSendFluxCC] the views are those the kernel left, the
    windows are as before, and the log has grown by the sends. *)
Lemma PackAndSendFluxCC_frame g pp (flx : DvceFaceFld5D Real) (bv : BoundaryValues Real) :
  let bv' := fst (PackAndSendFluxCC g pp flx bv) in
  (forall side slot, buf_view bv' side slot = buf_view (pack_kernel g pp flx bv) side slot) /\
  (forall n, flux0 (recv_buf bv' n) = flux0 (recv_buf bv n)) /\
  mpi_log bv' = mpi_log bv ++
    (m ← seqZ 0 (nmb pp); n ← seqZ 0 (nnghbr pp); send_posts g pp (x1f_extent1 flx) bv m n).
Proof.
  intros bv'. subst bv'. unfold PackAndSendFluxCC. simpl.
  set (bv1 := pack_kernel g pp flx bv).
  destruct (buf_stores_frame bv (pack_kernel_stores g pp flx bv)) as (Fs & Fr & Fl).
  fold (pack_kernel g pp flx bv) in Fs, Fr, Fl. fold bv1 in Fs, Fr, Fl.
  assert (Hfin : send_frame bv1
            (for_range2 (nmb pp) (nnghbr pp) (send_body g pp (x1f_extent1 flx)) bv1)).
  { apply (for_range2_keeps (send_frame bv1)); [split; auto|].
    intros m n t _ _ Ht. apply (send_body_step g pp _ bv1 m n t Ht). }
  destruct Hfin as [Hs Hr]. split; [|split].
  - intros side slot. unfold buf_view. destruct side; [|rewrite Hs; reflexivity].
    destruct (Hr slot) as (_ & -> & _). reflexivity.
  - intros n. destruct (Hr n) as (-> & _). specialize (Fr n). unfold buffer_frame in Fr.
    congruence.
  - rewrite (for_range2_log (@mpi_log Real) (send_frame bv1)
               (send_posts g pp (x1f_extent1 flx) bv1)).
    + rewrite Fl. f_equal. apply list_bind_ext; [|reflexivity]. intros m.
      apply list_bind_ext; [|reflexivity]. intros n. unfold send_posts.
      specialize (Fs n). unfold buffer_frame in Fs.
      assert (E : flux0 (send_buf bv1 n) = flux0 (send_buf bv n)) by congruence.
      rewrite E. reflexivity.
    + split; auto.
    + intros m n t _ _ Ht. apply send_body_step. exact Ht.
Qed.

(** C5 (PackAndSendFluxCC, same-rank pairs, as the code has it): for every
    block [m] and slot [n] whose valid neighbor (gid >= 0) is on the local
    rank, on return the flux receive status of the destination (slot
    [nghbr.dest], block index gid minus [gids]) is [received] whenever that
    index lies in the status vector, and is never [waiting]; no send is
    issued for the pair and its send buffer is not written.  The restricted
    flux is written, straight into the receive buffer of the destination (slot
    [nghbr.dest], block index gid minus [mb_gid(0)]), only when the pair
    packs, that is when the neighbor is flux-relevant and at a coarser
    level; a pair that does not pack issues no store. *)
Theorem PackAndSendFluxCC_same_rank (g : Globals) (pp : MeshBlockPack)
    (flx : DvceFaceFld5D Real) (bv : BoundaryValues Real) (m n : Z) :
  0 <= nmb pp -> 0 <= nnghbr pp -> 0 <= x1f_extent1 flx ->
  0 <= m < nmb pp -> 0 <= n < nnghbr pp ->
  gid (nghbr pp m n) >= 0 -> rank (nghbr pp m n) = my_rank g ->
  let bv' := fst (PackAndSendFluxCC g pp flx bv) in
  let nn := dest (nghbr pp m n) in
  let mm := gid (nghbr pp m n) - mb_gid pp 0 in
  let w := flux0 (send_buf bv n) in
  snd (PackAndSendFluxCC g pp flx bv) = complete /\
  (0 <= gid (nghbr pp m n) - gids pp < Z.of_nat (length (flx_stat (recv_buf bv nn))) ->
   vec_get (flx_stat (recv_buf bv' nn)) (gid (nghbr pp m n) - gids pp) = Some received) /\
  vec_get (flx_stat (recv_buf bv' nn)) (gid (nghbr pp m n) - gids pp) <> Some waiting /\
  (exists sent, mpi_log bv' = mpi_log bv ++ sent /\ filter (is_Isend_for n m) sent = []) /\
  (forall v off, buf_view bv' ToSend n m v off = buf_view bv ToSend n m v off) /\
  (ccflx (nghbr pp m n) = true -> lev (nghbr pp m n) < mb_lev pp m ->
   sole_sender g pp m n mm nn ->
   forall v k j i, 0 <= v < x1f_extent1 flx -> in_window w k j i ->
     buf_view bv' ToRecv nn mm v (buf_offset w i j k)
     = restricted_flux (pmesh pp) flx n m v k j i) /\
  (ccflx (nghbr pp m n) = false \/ lev (nghbr pp m n) >= mb_lev pp m ->
   forall v, pack_team_stores g pp flx bv m n v = []).
Proof.
  intros Hb Hs Hv Hm Hn Hg Hr bv' nn mm w.
  destruct (PackAndSendFluxCC_frame g pp flx bv) as (Fv & Fw & Fl). fold bv' in Fv, Fw, Fl.
  destruct (pack_kernel_effect g pp flx bv Hb Hs Hv) as (Kr & _ & Ks & _).
  destruct (buf_stores_frame bv (pack_kernel_stores g pp flx bv)) as (_ & Fr & _).
  fold (pack_kernel g pp flx bv) in Fr.
  assert (He : neighbor_exists pp m n = true) by (unfold neighbor_exists; apply Z.leb_le; lia).
  assert (Er : on_my_rank g pp m n = true) by (unfold on_my_rank; apply Z.eqb_eq; exact Hr).
  split; [reflexivity|]. split; [|split; [|split; [|split; [|split]]]].
  - intros Hlen. subst bv'. unfold PackAndSendFluxCC. simpl.
    apply (for_range2_reach (send_frame (pack_kernel g pp flx bv))
             (flux_received (gid (nghbr pp m n) - gids pp) nn) _ _ _ m n); try assumption.
    + split; auto.
    + intros m' n' t _ _ Ht. apply (send_body_step g pp _ _ m' n' t Ht).
    + intros. apply send_body_keeps_received. assumption.
    + intros t [_ Ht]. unfold send_body, flux_received. rewrite He, Er. simpl.
      unfold arr_upd. fold nn. destruct (decide (nn = nn)); [simpl|congruence].
      apply vec_get_set_eq. destruct (Ht nn) as (_ & _ & ->).
      specialize (Fr nn). unfold buffer_frame in Fr.
      assert (E : flx_stat (recv_buf (pack_kernel g pp flx bv) nn) = flx_stat (recv_buf bv nn))
        by congruence.
      rewrite E. exact Hlen.
  - subst bv'. unfold PackAndSendFluxCC. simpl.
    apply (for_range2_reach (fun _ => True)
             (not_waiting (gid (nghbr pp m n) - gids pp) nn) _ _ _ m n); try assumption; auto.
    + intros. apply send_body_not_waiting. assumption.
    + intros t _. unfold send_body, not_waiting. rewrite He, Er. simpl.
      unfold arr_upd. fold nn. destruct (decide (nn = nn)); [simpl|congruence].
      destruct (vec_get_set_cases (flx_stat (recv_buf t nn))
                  (gid (nghbr pp m n) - gids pp) received) as [-> | ->]; discriminate.
  - eexists. split; [exact Fl|].
    apply filter_bind_none. intros m' _. apply filter_bind_none. intros n' _.
    apply send_posts_other. right. exact Er.
  - intros v off. rewrite Fv. apply Ks. right. exact Hr.
  - intros Hcc Hl Hsole v k j i Hv' Hw. rewrite Fv. apply Kr; try assumption.
    apply pack_guard_spec. auto.
  - intros Hc v. unfold pack_team_stores.
    destruct (pack_guard pp m n) eqn:Hpg; [|reflexivity].
    apply pack_guard_spec in Hpg as [Hcc Hl]. destruct Hc; [congruence|lia].
Qed.

(** After [PackAndSendFluxCC] and a [RecvAndUnpackFluxCC] that completes,
    the flux of the receiving block at the cell that corresponds to a cell
    of the send window is the restricted flux packed for that cell. *)
Lemma pack_unpack_cell (g : Globals) (pp : MeshBlockPack)
    (flx : DvceFaceFld5D Real) (bv : BoundaryValues Real) (m n v a b c : Z) :
  let nn := dest (nghbr pp m n) in
  let mm := gid (nghbr pp m n) - mb_gid pp 0 in
  let ws := flux0 (send_buf bv n) in
  let wr := flux0 (recv_buf bv nn) in
  let bv1 := fst (PackAndSendFluxCC g pp flx bv) in
  0 <= m < nmb pp -> 0 <= n < nnghbr pp -> 0 <= v < x1f_extent1 flx ->
  0 <= mm < nmb pp -> 0 <= nn < nnghbr pp ->
  pack_guard pp m n = true -> rank (nghbr pp m n) = my_rank g ->
  unpack_guard pp mm nn = true ->
  bie ws - bis ws = bie wr - bis wr ->
  bje ws - bjs ws = bje wr - bjs wr ->
  bke ws - bks ws = bke wr - bks wr ->
  0 <= a <= bie ws - bis ws -> 0 <= b <= bje ws - bjs ws -> 0 <= c <= bke ws - bks ws ->
  sole_sender g pp m n mm nn ->
  sole_unpacker pp bv mm nn (bks wr + c) (bjs wr + b) (bis wr + a) ->
  snd (RecvAndUnpackFluxCC g pp flx bv1) = complete ->
  face_view (snd (fst (RecvAndUnpackFluxCC g pp flx bv1))) (face_of_slot nn) mm v
            (bks wr + c) (bjs wr + b) (bis wr + a)
  = restricted_flux (pmesh pp) flx n m v (bks ws + c) (bjs ws + b) (bis ws + a).
Proof.
  intros nn mm ws wr bv1 Hm Hn Hv Hmm Hnn Hpg Hr Hug Ei Ej Ek Ha Hb Hc Hsole Hunp Hst.
  assert (Hnb : 0 <= nmb pp) by lia. assert (Hns : 0 <= nnghbr pp) by lia.
  assert (Hnv : 0 <= x1f_extent1 flx) by lia.
  assert (Eo : buf_offset ws (bis ws + a) (bjs ws + b) (bks ws + c)
               = buf_offset wr (bis wr + a) (bjs wr + b) (bks wr + c))
    by (apply same_extents_same_offset; assumption).
  destruct (PackAndSendFluxCC_frame g pp flx bv) as (Fv & Fw & _). fold bv1 in Fv, Fw.
  destruct (pack_kernel_effect g pp flx bv Hnb Hns Hnv) as (Kr & _).
  rewrite (RecvAndUnpackFluxCC_step2 g pp flx bv1 Hst).
  destruct (unpack_kernel_effect pp flx bv1 Hnb Hns Hnv) as (Uw & _).
  rewrite Uw; try assumption.
  - rewrite Fw. fold wr. rewrite <- Eo.
    change (data (recv_buf bv1 nn)) with (buf_view bv1 ToRecv nn). rewrite Fv.
    apply Kr; try assumption. unfold in_window. fold ws. lia.
  - rewrite Fw. fold wr. unfold in_window. lia.
  - intros n2 Hn2 Hg2 Hf2 Hc2. rewrite Fw in Hc2. apply (Hunp n2); assumption.
Qed.

(** C4 (flattening identity and same-rank round trip): both kernels place
    cell (i, j, k) of a window at [i-il + ni*(j-jl + nj*(k-kl))]; for a send
    window and a receive window of equal extents this offset is the same at
    corresponding cells, and within one window two cells never share an
    offset; so for a same-rank pair across a refinement jump, after
    PackAndSendFluxCC followed by a RecvAndUnpackFluxCC that completes, the
    flux of the receiving block at every cell of its window is exactly the
    restricted flux the sender packed for the corresponding cell, when the
    pair is the only sender to that buffer and the slot the only unpacker of
    the cell. *)
Theorem flux_pack_unpack_roundtrip (g : Globals) (pp : MeshBlockPack)
    (flx : DvceFaceFld5D Real) (bv : BoundaryValues Real) :
  (forall ws wr a b c,
     bie ws - bis ws = bie wr - bis wr -> bje ws - bjs ws = bje wr - bjs wr ->
     buf_offset ws (bis ws + a) (bjs ws + b) (bks ws + c)
     = buf_offset wr (bis wr + a) (bjs wr + b) (bks wr + c)) /\
  (forall w k j i k' j' i',
     in_window w k j i -> in_window w k' j' i' ->
     buf_offset w i j k = buf_offset w i' j' k' -> (k, j, i) = (k', j', i')) /\
  (forall m n v a b c,
     let nn := dest (nghbr pp m n) in
     let mm := gid (nghbr pp m n) - mb_gid pp 0 in
     let ws := flux0 (send_buf bv n) in
     let wr := flux0 (recv_buf bv nn) in
     let bv1 := fst (PackAndSendFluxCC g pp flx bv) in
     0 <= m < nmb pp -> 0 <= n < nnghbr pp -> 0 <= v < x1f_extent1 flx ->
     0 <= mm < nmb pp -> 0 <= nn < nnghbr pp ->
     ccflx (nghbr pp m n) = true -> lev (nghbr pp m n) < mb_lev pp m ->
     rank (nghbr pp m n) = my_rank g ->
     ccflx (nghbr pp mm nn) = true -> lev (nghbr pp mm nn) > mb_lev pp mm ->
     bie ws - bis ws = bie wr - bis wr ->
     bje ws - bjs ws = bje wr - bjs wr ->
     bke ws - bks ws = bke wr - bks wr ->
     0 <= a <= bie ws - bis ws -> 0 <= b <= bje ws - bjs ws -> 0 <= c <= bke ws - bks ws ->
     sole_sender g pp m n mm nn ->
     sole_unpacker pp bv mm nn (bks wr + c) (bjs wr + b) (bis wr + a) ->
     snd (RecvAndUnpackFluxCC g pp flx bv1) = complete ->
     face_view (snd (fst (RecvAndUnpackFluxCC g pp flx bv1))) (face_of_slot nn) mm v
               (bks wr + c) (bjs wr + b) (bis wr + a)
     = restricted_flux (pmesh pp) flx n m v (bks ws + c) (bjs ws + b) (bis ws + a)).
Proof.
  split; [|split].
  - intros ws wr a b c Ei Ej. apply same_extents_same_offset; assumption.
  - intros w k j i k' j' i' H1 H2. apply window_cells_offset_inj; apply in_window_cells;
      assumption.
  - intros m n v a b c nn mm ws wr bv1 Hm Hn Hv Hmm Hnn Hcc Hl Hr Hcc' Hl'.
    apply pack_unpack_cell; try assumption.
    + apply pack_guard_spec. auto.
    + apply unpack_guard_spec. auto.
Qed.
End Flux.

(** ** Restriction is the average of the fine fluxes *)

(** The restricted flux of the kernel is the computed average of the
    fine fluxes lying under the coarse face. *)
Lemma restricted_flux_computed {Real : Type} {RO : RealOps Real} (ms : Mesh)
    (flx : DvceFaceFld5D Real) (n m v k j i : Z) :
  face_slot_of_mesh ms n ->
  let fine := fine_faces_under ms (face_of_slot n) k j i in
  NoDup fine /\ length fine = faces_per_coarse ms /\
  computed_mean (fine_values flx (face_of_slot n) m v fine)
  = Some (restricted_flux ms flx n m v k j i).
Proof.
  intros [H1 H2] fine. subst fine.
  unfold restricted_flux, fine_faces_under, face_of_slot, faces_per_coarse.
  destruct (one_d ms) eqn:E1.
  { specialize (H1 eq_refl). destruct (Z.ltb_spec n 8); [|lia]. simpl.
    split; [apply NoDup_singleton|]. split; reflexivity. }
  destruct (two_d ms) eqn:E2.
  { specialize (H2 eq_refl). destruct (Z.ltb_spec n 8); simpl.
    - split; [|split; reflexivity].
      apply NoDup_cons. split; [|apply NoDup_singleton].
      intros Hin. apply list_elem_of_singleton in Hin. inversion Hin. lia.
    - destruct (Z.ltb_spec n 16); [|lia]. simpl.
      split; [|split; reflexivity].
      apply NoDup_cons. split; [|apply NoDup_singleton].
      intros Hin. apply list_elem_of_singleton in Hin. inversion Hin. lia. }
  assert (Hnd : forall a b c d : Z * Z * Z,
            a <> b -> a <> c -> a <> d -> b <> c -> b <> d -> c <> d -> NoDup [a; b; c; d]).
  { intros. repeat (apply NoDup_cons; split); try apply NoDup_nil_2;
      rewrite ?elem_of_cons, ?elem_of_nil; intuition congruence. }
  destruct (Z.ltb_spec n 8); [|destruct (Z.ltb_spec n 16)]; simpl;
    (split; [apply Hnd; intros E; inversion E; lia|]); split; reflexivity.
Qed.

(** In exact arithmetic the computed average of one, two or four values is
    their arithmetic mean. *)
Lemma computed_mean_exact (l : list Q) :
  (length l = 1 \/ length l = 2 \/ length l = 4)%nat ->
  exists x, computed_mean l = Some x /\ (x == Qmean l)%Q.
Proof.
  intros H.
  destruct l as [|a [|b [|c [|d [|e l]]]]]; simpl in H; try lia.
  - exists a. split; [reflexivity|]. unfold Qmean, Qsum. simpl. field.
  - eexists. split; [reflexivity|]. unfold Qmean, Qsum. simpl. field.
  - eexists. split; [reflexivity|]. unfold Qmean, Qsum. simpl. field.
Qed.

(** C2 (PackAndSendFluxCC, restriction, as the code has it): for every
    block [m], slot [n], variable [v] and cell of the send window, where
    the neighbor is flux-relevant and at a coarser level and the slot is a
    face slot of the dimensions of the mesh, after PackAndSendFluxCC the
    element of the buffer at the offset of the cell (of the send buffer of
    the pair when the neighbor is on another rank, of the receive buffer of
    the destination when it is on this rank and the pair is its only
    sender) holds the average of the fine fluxes lying under the coarse
    face as [Real] arithmetic computes it: exactly 1 value, taken as it is,
    in 1-D; 2 values, added and halved, in 2-D; 4 values, added from left
    to right and quartered, in 3-D; all at distinct places.  This holds in
    any arithmetic, binary64 included.  In exact arithmetic the value is
    the equal-weight arithmetic mean; in binary64 the fine values 1, 2, 3, 4
    give 2.5. *)
Theorem PackAndSendFluxCC_packs_mean :
  (forall (Real : Type) (RO : RealOps Real) (g : Globals) (pp : MeshBlockPack)
          (flx : DvceFaceFld5D Real) (bv : BoundaryValues Real) (m n v k j i : Z),
     0 <= m < nmb pp -> 0 <= n < nnghbr pp -> 0 <= v < x1f_extent1 flx ->
     ccflx (nghbr pp m n) = true -> lev (nghbr pp m n) < mb_lev pp m ->
     face_slot_of_mesh (pmesh pp) n ->
     in_window (flux0 (send_buf bv n)) k j i ->
     let bv' := fst (PackAndSendFluxCC g pp flx bv) in
     let off := buf_offset (flux0 (send_buf bv n)) i j k in
     let nn := dest (nghbr pp m n) in
     let mm := gid (nghbr pp m n) - mb_gid pp 0 in
     let fine := fine_faces_under (pmesh pp) (face_of_slot n) k j i in
     let mean := computed_mean (fine_values flx (face_of_slot n) m v fine) in
     NoDup fine /\ length fine = faces_per_coarse (pmesh pp) /\
     (rank (nghbr pp m n) <> my_rank g ->
      Some (data (send_buf bv' n) m v off) = mean) /\
     (rank (nghbr pp m n) = my_rank g -> sole_sender g pp m n mm nn ->
      Some (data (recv_buf bv' nn) mm v off) = mean)) /\
  (forall l : list Q, (length l = 1 \/ length l = 2 \/ length l = 4)%nat ->
     exists x, computed_mean l = Some x /\ (x == Qmean l)%Q) /\
  computed_mean [1; 2; 3; 4]%float = Some 2.5%float.
Proof.
  split; [|split; [exact computed_mean_exact | vm_compute; reflexivity]].
  intros Real RO g pp flx bv m n v k j i Hm Hn Hv Hcc Hl Hslot Hw bv' off nn mm fine mean.
  destruct (restricted_flux_computed (pmesh pp) flx n m v k j i Hslot) as (Hnd & Hlen & Hmean).
  fold fine in Hnd, Hlen, Hmean. fold mean in Hmean.
  split; [exact Hnd|]. split; [exact Hlen|].
  assert (Hb : 0 <= nmb pp) by lia. assert (Hs : 0 <= nnghbr pp) by lia.
  assert (Hv0 : 0 <= x1f_extent1 flx) by lia.
  assert (Hpg : pack_guard pp m n = true) by (apply pack_guard_spec; auto).
  destruct (PackAndSendFluxCC_frame g pp flx bv) as (Fv & _). fold bv' in Fv.
  destruct (pack_kernel_effect g pp flx bv Hb Hs Hv0) as (Kr & Ks & _).
  rewrite Hmean. split.
  - intros Hr. f_equal. change (data (send_buf bv' n)) with (buf_view bv' ToSend n).
    rewrite Fv. apply Ks; assumption.
  - intros Hr Hsole. f_equal. change (data (recv_buf bv' nn)) with (buf_view bv' ToRecv nn).
    rewrite Fv. apply Kr; assumption.
Qed.

Example restricted_flux_1234 : restricted_flux cube_mesh flux_1234 0 0 0 0 0 0 = 2.5%float.
Proof. vm_compute. reflexivity. Qed.

(** ** A pack of two blocks across a refinement jump: the theorems at work *)

Lemma ex_guard_cases (P : Z -> Z -> Prop) :
  P 0 0 -> P 1 4 ->
  (forall m n, ((m =? 0) && (n =? 0) = false) -> ((m =? 1) && (n =? 4) = false) -> P m n) ->
  forall m n, P m n.
Proof.
  intros H00 H14 Ho m n.
  destruct ((m =? 0) && (n =? 0)) eqn:E1.
  { apply andb_true_iff in E1 as [Em En]. apply Z.eqb_eq in Em, En. subst. exact H00. }
  destruct ((m =? 1) && (n =? 4)) eqn:E2.
  { apply andb_true_iff in E2 as [Em En]. apply Z.eqb_eq in Em, En. subst. exact H14. }
  apply Ho; assumption.
Qed.

(** Only block 0, slot 0 packs. *)
Lemma ex_pack_guard m n : pack_guard ex_pack m n = true -> (m, n) = (0, 0).
Proof.
  revert m n.
  apply (ex_guard_cases (fun m n => pack_guard ex_pack m n = true -> (m, n) = (0, 0)));
    [reflexivity | discriminate |].
  intros m n E1 E2. unfold pack_guard. simpl. unfold ex_nghbr. rewrite E1, E2. discriminate.
Qed.

(** Only block 1, slot 4 unpacks. *)
Lemma ex_unpack_guard m n : unpack_guard ex_pack m n = true -> (m, n) = (1, 4).
Proof.
  revert m n.
  apply (ex_guard_cases (fun m n => unpack_guard ex_pack m n = true -> (m, n) = (1, 4)));
    [discriminate | reflexivity |].
  intros m n E1 E2. unfold unpack_guard. simpl. unfold ex_nghbr. rewrite E1, E2. discriminate.
Qed.

(** C10, at slot 0 of the two-block pack: the flux receive flag of block 1
    is [undef] after the constructor. *)
Lemma ctor_status_flags_undef_witness :
  0 <= 0 < nnghbr ex_pack /\
  vec_get (flx_stat (recv_buf (ex_new ex_pack) 0)) 1 = Some undef.
Proof.
  assert (H : 0 <= 0 < nnghbr ex_pack) by (simpl; lia).
  split; [exact H|].
  apply (ctor_status_flags_undef (ex_globals true) ex_pack ex_window (fun _ _ _ => 7%Q) 0 H).
  simpl. lia.
Defined.

(** C9, at the two-block pack with its 56 slots: the diagnostic loop
    reads slot 56. *)
Lemma diagnostic_loop_reads_slot_nnghbr_witness :
  0 <= nnghbr ex_pack /\
  56 ∈ printed_slots (snd (InitializeBuffers ex_methods ex_pack 1 (ex_new ex_pack))).
Proof.
  assert (H : 0 <= nnghbr ex_pack) by (simpl; lia).
  split; [exact H|].
  apply (diagnostic_loop_reads_slot_nnghbr ex_methods ex_pack 1 (ex_new ex_pack) H).
Defined.

(** The constructor sizes the status vectors. *)
Lemma ex_new_room pp : stat_room pp (ex_new pp).
Proof.
  intros n Hn.
  destruct (ctor_all_undef (ex_globals true) pp ex_window (fun _ _ _ => 7%Q) n Hn)
    as [_ [Hv Hf]].
  unfold ex_new. rewrite Hv, Hf, length_replicate. lia.
Qed.

(** C6, at the pack whose block 0 has a coarser neighbor on rank 1 in
    slot 0: the flag is [waiting] and one receive of 4 values (the coarser
    window, one variable) from rank 1 is posted for the pair. *)
Lemma InitRecv_marks_waiting_and_posts_witness :
  stat_room ex_pack_remote (ex_new ex_pack_remote) /\
  snd (InitRecv (ex_globals true) ex_pack_remote 1 (ex_new ex_pack_remote)) = complete /\
  exists posted,
    mpi_log (ex_posted ex_pack_remote) = mpi_log (ex_new ex_pack_remote) ++ posted /\
    vec_get (flx_stat (recv_buf (ex_posted ex_pack_remote) 0)) 0 = Some waiting /\
    filter (is_Irecv_for 0 0) posted = [Irecv 0 0 4 1 0].
Proof.
  split; [apply ex_new_room|].
  destruct (InitRecv_marks_waiting_and_posts (ex_globals true) ex_pack_remote 1
              (ex_new ex_pack_remote) (ex_new_room ex_pack_remote)) as (Hst & posted & Hlog & _ & Hall).
  split; [exact Hst|]. exists posted. split; [exact Hlog|].
  destruct (Hall 0 0) as (_ & Hf & _ & Hp); [simpl; lia | simpl; lia | simpl; lia |].
  split; [exact Hf|].
  destruct Hp as (size & Hfil & Hc & _); [simpl; lia | reflexivity |].
  rewrite Hfil. rewrite Hc by (simpl; lia). reflexivity.
Defined.

(** C7 as stated fails: after InitRecv the status of block 0, slot 0 (a
    neighbor on rank 1) is [waiting]; after ClearRecv it is not
    [received]. *)
Lemma ClearRecv_keeps_waiting :
  ~ (forall m n, 0 <= m < nmb_thispack ex_pack_remote -> 0 <= n < nnghbr ex_pack_remote ->
       gid (nghbr ex_pack_remote m n) >= 0 ->
       rank (nghbr ex_pack_remote m n) <> my_rank (ex_globals true) ->
       vec_get (var_stat (recv_buf (ex_posted ex_pack_remote) n)) m = Some waiting ->
       vec_get (var_stat (recv_buf
          (fst (ClearRecv (ex_globals true) ex_pack_remote (ex_posted ex_pack_remote))) n)) m
       = Some received).
Proof.
  intros H. specialize (H 0 0).
  assert (E : vec_get (var_stat (recv_buf
          (fst (ClearRecv (ex_globals true) ex_pack_remote (ex_posted ex_pack_remote))) 0)) 0
       = Some waiting) by (vm_compute; reflexivity).
  rewrite E in H. 
  assert (E2 : vec_get (var_stat (recv_buf (ex_posted ex_pack_remote) 0)) 0 = Some waiting)
    by (vm_compute; reflexivity).
  specialize (H ltac:(simpl; lia) ltac:(simpl; lia) ltac:(simpl; lia) ltac:(simpl; lia) E2).
  discriminate H.
Qed.

(** C8, at the three-dimensional multilevel mesh of the two-block pack: the
    slots set up are 0..55, in this order. *)
Lemma InitializeBuffers_slots_witness :
  (three_d (pmesh ex_pack) = true -> multi_d (pmesh ex_pack) = true) /\
  map bi_indx (InitializeBuffers_calls (pmesh ex_pack)) = seqZ 0 56.
Proof.
  assert (H : three_d (pmesh ex_pack) = true -> multi_d (pmesh ex_pack) = true)
    by reflexivity.
  split; [exact H|].
  destruct (InitializeBuffers_slots ex_methods ex_pack 1 (ex_new ex_pack) H)
    as (_ & _ & _ & Hall & _).
  apply Hall; reflexivity.
Defined.

(** C3, at the two-block pack after InitRecv: the same-rank pair of block
    0, slot 0 is waiting, and the call returns [incomplete] with the fluxes
    untouched. *)
Lemma RecvAndUnpackFluxCC_incomplete_witness :
  outstanding (ex_globals true) ex_pack (ex_posted ex_pack) 0 0 /\
  snd (RecvAndUnpackFluxCC (ex_globals true) ex_pack ex_flux (ex_posted ex_pack))
    = incomplete /\
  snd (fst (RecvAndUnpackFluxCC (ex_globals true) ex_pack ex_flux (ex_posted ex_pack)))
    = ex_flux.
Proof.
  assert (Ho : outstanding (ex_globals true) ex_pack (ex_posted ex_pack) 0 0).
  { split; [simpl; lia|]. left. split; [reflexivity | vm_compute; reflexivity]. }
  split; [exact Ho|].
  destruct (RecvAndUnpackFluxCC_incomplete (ex_globals true) ex_pack ex_flux
              (ex_posted ex_pack)) as (Hi & Hf & _).
  assert (Hst : snd (RecvAndUnpackFluxCC (ex_globals true) ex_pack ex_flux
                       (ex_posted ex_pack)) = incomplete).
  { apply Hi. exists 0, 0. split; [simpl; lia|]. split; [simpl; lia | exact Ho]. }
  split; [exact Hst | exact (Hf Hst)].
Defined.

(** C7, at the pack with a neighbor on rank 1: ClearRecv returns
    [complete], the pair is waited for, and its status is still [waiting]
    afterwards. *)
Lemma Clear_waits_cross_rank_only_witness :
  snd (ClearRecv (ex_globals true) ex_pack_remote (ex_posted ex_pack_remote)) = complete /\
  vec_get (var_stat (recv_buf
     (fst (ClearRecv (ex_globals true) ex_pack_remote (ex_posted ex_pack_remote))) 0)) 0
    = Some waiting /\
  exists wr,
    mpi_log (fst (ClearRecv (ex_globals true) ex_pack_remote (ex_posted ex_pack_remote)))
      = mpi_log (ex_posted ex_pack_remote) ++ wr /\
    Wait_recv 0 0 ∈ wr.
Proof.
  destruct (Clear_waits_cross_rank_only (ex_globals true) ex_pack_remote
              (ex_posted ex_pack_remote))
    as (Hc & _ & (_ & Hr) & _ & wr & ws & Hlr & _ & _ & _ & Hall).
  split; [exact Hc|]. split.
  - rewrite Hr. vm_compute. reflexivity.
  - exists wr. split; [exact Hlr|].
    apply (Hall eq_refl 0 0); simpl; lia.
Defined.

(** C3 as stated fails: the flux receive status of block 0, slot 0 (a
    neighbor on rank 1) is [waiting] at the call, the poll finds the receive
    completed, and the call returns [complete]. *)
Lemma RecvAndUnpackFluxCC_completes_a_waiting_pair :
  ~ (forall m n, 0 <= m < nmb ex_pack_remote -> 0 <= n < nnghbr ex_pack_remote ->
       gid (nghbr ex_pack_remote m n) >= 0 ->
       vec_get (flx_stat (recv_buf (ex_posted ex_pack_remote) n)) m = Some waiting ->
       snd (RecvAndUnpackFluxCC (ex_globals true) ex_pack_remote ex_flux (ex_posted ex_pack_remote))
       = incomplete).
Proof.
  intros H. specialize (H 0 0).
  assert (E : snd (RecvAndUnpackFluxCC (ex_globals true) ex_pack_remote ex_flux
                     (ex_posted ex_pack_remote)) = complete) by (vm_compute; reflexivity).
  rewrite E in H.
  assert (E2 : vec_get (flx_stat (recv_buf (ex_posted ex_pack_remote) 0)) 0 = Some waiting)
    by (vm_compute; reflexivity).
  specialize (H ltac:(simpl; lia) ltac:(simpl; lia) ltac:(simpl; lia) E2).
  discriminate H.
Qed.

(** C1 as stated fails: slot 0 of block 0 has a flux-relevant neighbor at
    another (coarser) level and the call reaches step 2, yet the flux of
    block 0 at window cell (0,0,0) is still 1 and not the buffer value 7:
    nothing is unpacked towards the finer block. *)
Lemma unpack_skips_coarser_neighbor :
  ~ (forall m n v k j i,
       0 <= m < nmb ex_pack -> 0 <= n < nnghbr ex_pack -> 0 <= v < x1f_extent1 ex_flux ->
       ccflx (nghbr ex_pack m n) = true ->
       lev (nghbr ex_pack m n) <> mb_lev ex_pack m ->
       in_window (flux0 (recv_buf (ex_new ex_pack) n)) k j i ->
       Qeq (face_view (snd (fst (RecvAndUnpackFluxCC (ex_globals true) ex_pack ex_flux
                                   (ex_new ex_pack)))) (face_of_slot n) m v k j i)
           (data (recv_buf (ex_new ex_pack) n) m v
                 (buf_offset (flux0 (recv_buf (ex_new ex_pack) n)) i j k))).
Proof.
  intros H. specialize (H 0 0 0 0 0 0).
  assert (E1 : face_view (snd (fst (RecvAndUnpackFluxCC (ex_globals true) ex_pack ex_flux
                              (ex_new ex_pack)))) (face_of_slot 0) 0 0 0 0 0 = 1%Q)
    by (vm_compute; reflexivity).
  assert (E2 : data (recv_buf (ex_new ex_pack) 0) 0 0
              (buf_offset (flux0 (recv_buf (ex_new ex_pack) 0)) 0 0 0) = 7%Q)
    by (vm_compute; reflexivity).
  assert (E3 : flux0 (recv_buf (ex_new ex_pack) 0) = ex_window)
    by (vm_compute; reflexivity).
  rewrite E1, E2, E3 in H.
  specialize (H ltac:(simpl; lia) ltac:(simpl; lia) ltac:(simpl; lia) eq_refl
                ltac:(simpl; lia) ltac:(unfold in_window; simpl; lia)).
  vm_compute in H. discriminate H.
Qed.

(** C1, at the two-block pack: the flux of block 1 (coarse) at cell
    (1,1,0) of slot 4 (finer neighbor) is overwritten with the buffer value
    7, and slot 0 of block 0 (coarser neighbor) issues no store. *)
Lemma RecvAndUnpackFluxCC_overwrites_witness :
  (0 <= nmb ex_pack /\ 0 <= nnghbr ex_pack /\ 0 <= x1f_extent1 ex_flux) /\
  snd (RecvAndUnpackFluxCC (ex_globals true) ex_pack ex_flux (ex_new ex_pack))
    = complete /\
  x1f (snd (fst (RecvAndUnpackFluxCC (ex_globals true) ex_pack ex_flux
                   (ex_new ex_pack)))) 1 0 1 1 0 = 7%Q /\
  unpack_team_stores ex_pack (ex_new ex_pack) 0 0 0 = [].
Proof.
  assert (Hb : 0 <= nmb ex_pack) by (simpl; lia).
  assert (Hs : 0 <= nnghbr ex_pack) by (simpl; lia).
  assert (Hv : 0 <= x1f_extent1 ex_flux) by (simpl; lia).
  assert (Hst : snd (RecvAndUnpackFluxCC (ex_globals true) ex_pack ex_flux
                       (ex_new ex_pack)) = complete) by (vm_compute; reflexivity).
  split; [auto|]. split; [exact Hst|].
  destruct (RecvAndUnpackFluxCC_overwrites (ex_globals true) ex_pack ex_flux
              (ex_new ex_pack) Hb Hs Hv Hst) as (Hw & Hn & _).
  split.
  - assert (E3 : flux0 (recv_buf (ex_new ex_pack) 4) = ex_window)
      by (vm_compute; reflexivity).
    assert (Hsole : sole_unpacker ex_pack (ex_new ex_pack) 1 4 1 1 0).
    { intros n2 Hn2 Hg2 _ _. apply ex_unpack_guard in Hg2. congruence. }
    assert (Hw' := Hw 1 4 0 1 1 0 ltac:(simpl; lia) ltac:(simpl; lia) ltac:(simpl; lia)
                     eq_refl ltac:(simpl; lia)
                     ltac:(rewrite E3; unfold in_window; simpl; lia) Hsole).
    etransitivity; [exact Hw' | vm_compute; reflexivity].
  - apply Hn. right. simpl. lia.
Defined.

Lemma ex_sole_sender : sole_sender (ex_globals true) ex_pack 0 0 1 4.
Proof. intros m2 n2 _ _ Hg _ _ _. apply ex_pack_guard. exact Hg. Qed.

(** C5, at block 0, slot 0 of the two-block pack after InitRecv: the
    destination flag (slot 4, block 1) is [received] and the receive buffer
    holds the restricted flux. *)
Lemma PackAndSendFluxCC_same_rank_witness :
  (0 <= nmb ex_pack /\ 0 <= nnghbr ex_pack /\ 0 <= x1f_extent1 ex_flux /\
   gid (nghbr ex_pack 0 0) >= 0 /\ rank (nghbr ex_pack 0 0) = my_rank (ex_globals true)) /\
  vec_get (flx_stat (recv_buf (fst (PackAndSendFluxCC (ex_globals true) ex_pack
                                     ex_flux (ex_posted ex_pack))) 4)) 1 = Some received /\
  buf_view (fst (PackAndSendFluxCC (ex_globals true) ex_pack ex_flux
                   (ex_posted ex_pack))) ToRecv 4 1 0 0
  = restricted_flux cube_mesh ex_flux 0 0 0 0 0 0.
Proof.
  assert (Hb : 0 <= nmb ex_pack) by (simpl; lia).
  assert (Hs : 0 <= nnghbr ex_pack) by (simpl; lia).
  assert (Hv : 0 <= x1f_extent1 ex_flux) by (simpl; lia).
  assert (Hm : 0 <= 0 < nmb ex_pack) by (simpl; lia).
  assert (Hn : 0 <= 0 < nnghbr ex_pack) by (simpl; lia).
  assert (Hg : gid (nghbr ex_pack 0 0) >= 0) by (simpl; lia).
  assert (Hr : rank (nghbr ex_pack 0 0) = my_rank (ex_globals true)) by reflexivity.
  split; [auto 6|].
  destruct (PackAndSendFluxCC_same_rank (ex_globals true) ex_pack ex_flux
              (ex_posted ex_pack) 0 0 Hb Hs Hv Hm Hn Hg Hr)
    as (_ & Hrecv & _ & _ & _ & Hdata & _).
  split.
  - apply Hrecv. vm_compute. split; [discriminate | reflexivity].
  - assert (E3 : flux0 (send_buf (ex_posted ex_pack) 0) = ex_window)
      by (vm_compute; reflexivity).
    specialize (Hdata eq_refl ltac:(simpl; lia) ex_sole_sender 0 0 0 0
                  ltac:(simpl; lia)).
    rewrite E3 in Hdata. apply Hdata. unfold in_window. simpl. lia.
Defined.

(** C5 as stated fails: with both blocks at one level the pair of block
    0, slot 0 has a valid neighbor on the local rank, yet the receive buffer
    of the destination still holds 7 and not the restricted flux 10/4:
    nothing is packed for a same-level pair. *)
Lemma same_level_pair_packs_nothing :
  ~ (forall m n v k j i,
       0 <= m < nmb ex_pack_same_level -> 0 <= n < nnghbr ex_pack_same_level ->
       0 <= v < x1f_extent1 ex_flux ->
       gid (nghbr ex_pack_same_level m n) >= 0 ->
       rank (nghbr ex_pack_same_level m n) = my_rank (ex_globals true) ->
       in_window (flux0 (send_buf (ex_posted ex_pack_same_level) n)) k j i ->
       Qeq (buf_view (fst (PackAndSendFluxCC (ex_globals true) ex_pack_same_level ex_flux
                             (ex_posted ex_pack_same_level)))
                     ToRecv (dest (nghbr ex_pack_same_level m n))
                     (gid (nghbr ex_pack_same_level m n) - gids ex_pack_same_level) v
                     (buf_offset (flux0 (send_buf (ex_posted ex_pack_same_level) n)) i j k))
           (restricted_flux (pmesh ex_pack_same_level) ex_flux n m v k j i)).
Proof.
  intros H. specialize (H 0 0 0 0 0 0).
  assert (E1 : buf_view (fst (PackAndSendFluxCC (ex_globals true) ex_pack_same_level ex_flux
                        (ex_posted ex_pack_same_level)))
                ToRecv (dest (nghbr ex_pack_same_level 0 0))
                (gid (nghbr ex_pack_same_level 0 0) - gids ex_pack_same_level) 0
                (buf_offset (flux0 (send_buf (ex_posted ex_pack_same_level) 0)) 0 0 0) = 7%Q)
    by (vm_compute; reflexivity).
  assert (E2 : restricted_flux (pmesh ex_pack_same_level) ex_flux 0 0 0 0 0 0 = (10 # 4)%Q)
    by (vm_compute; reflexivity).
  assert (E3 : flux0 (send_buf (ex_posted ex_pack_same_level) 0) = ex_window)
    by (vm_compute; reflexivity).
  rewrite E1, E2, E3 in H.
  specialize (H ltac:(simpl; lia) ltac:(simpl; lia) ltac:(simpl; lia) ltac:(simpl; lia)
                eq_refl ltac:(unfold in_window; simpl; lia)).
  vm_compute in H. discriminate H.
Qed.

(** C4, at the two-block pack after InitRecv: the value packed by block
    0 for coarse cell (1,1,0) arrives in the x1 flux of block 1 at that
    cell. *)
Lemma flux_pack_unpack_roundtrip_witness :
  (ccflx (nghbr ex_pack 0 0) = true /\ lev (nghbr ex_pack 0 0) < mb_lev ex_pack 0 /\
   rank (nghbr ex_pack 0 0) = my_rank (ex_globals true)) /\
  snd (RecvAndUnpackFluxCC (ex_globals true) ex_pack ex_flux
         (fst (PackAndSendFluxCC (ex_globals true) ex_pack ex_flux (ex_posted ex_pack))))
    = complete /\
  x1f (snd (fst (RecvAndUnpackFluxCC (ex_globals true) ex_pack ex_flux
         (fst (PackAndSendFluxCC (ex_globals true) ex_pack ex_flux
                 (ex_posted ex_pack)))))) 1 0 1 1 0
  = restricted_flux cube_mesh ex_flux 0 0 0 1 1 0.
Proof.
  assert (Hst : snd (RecvAndUnpackFluxCC (ex_globals true) ex_pack ex_flux
         (fst (PackAndSendFluxCC (ex_globals true) ex_pack ex_flux (ex_posted ex_pack))))
    = complete) by (vm_compute; reflexivity).
  split; [simpl; repeat split; lia|]. split; [exact Hst|].
  assert (Es : flux0 (send_buf (ex_posted ex_pack) 0) = ex_window)
    by (vm_compute; reflexivity).
  assert (Er : flux0 (recv_buf (ex_posted ex_pack) 4) = ex_window)
    by (vm_compute; reflexivity).
  destruct (flux_pack_unpack_roundtrip (ex_globals true) ex_pack ex_flux (ex_posted ex_pack))
    as (_ & _ & H).
  specialize (H 0 0 0 0 1 1).
  cbv zeta in H. simpl dest in H. simpl gid in H. simpl mb_gid in H.
  change (1 - 0) with 1 in H. rewrite Es, Er in H.
  apply H;
    first [ exact ex_sole_sender | exact Hst | reflexivity | simpl; lia
          | intros n2 Hn2 Hg2 _ _; apply ex_unpack_guard in Hg2; congruence ].
Defined.

(** C2, at the two-block pack in binary64: with fine fluxes 1, 2, 3, 4
    under coarse face (0,0,0), the receive buffer of block 1, slot 4 holds
    2.5 at offset 0 after the call. *)
Lemma PackAndSendFluxCC_packs_mean_witness :
  (ccflx (nghbr ex_pack 0 0) = true /\ lev (nghbr ex_pack 0 0) < mb_lev ex_pack 0 /\
   face_slot_of_mesh (pmesh ex_pack) 0 /\ rank (nghbr ex_pack 0 0) = my_rank (ex_globals true)) /\
  length (fine_faces_under cube_mesh X1face 0 0 0) = 4%nat /\
  fine_values flux_1234 X1face 0 0 (fine_faces_under cube_mesh X1face 0 0 0)
  = [1; 2; 3; 4]%float /\
  data (recv_buf (fst (PackAndSendFluxCC (ex_globals true) ex_pack flux_1234
                         (ex_new_float ex_pack))) 4) 1 0 0 = 2.5%float.
Proof.
  assert (Hslot : face_slot_of_mesh (pmesh ex_pack) 0) by (split; discriminate).
  split; [simpl; repeat split; try lia; apply Hslot|].
  split; [reflexivity|]. split; [vm_compute; reflexivity|].
  assert (Es : flux0 (send_buf (ex_new_float ex_pack) 0) = ex_window)
    by (vm_compute; reflexivity).
  destruct PackAndSendFluxCC_packs_mean as (H & _ & _).
  specialize (H float float_RealOps (ex_globals true) ex_pack flux_1234 (ex_new_float ex_pack)
                0 0 0 0 0 0).
  cbv zeta in H. rewrite Es in H.
  destruct H as (_ & _ & _ & H);
    [simpl; lia | simpl; lia | simpl; lia | reflexivity | simpl; lia | exact Hslot
    | unfold in_window; simpl; lia |].
  assert (E : Some (data (recv_buf (fst (PackAndSendFluxCC (ex_globals true) ex_pack flux_1234
                         (ex_new_float ex_pack))) 4) 1 0 0) = Some 2.5%float).
  { etransitivity; [apply H|vm_compute; reflexivity].
    - reflexivity.
    - intros m2 n2 _ _ Hg _ _ _. apply ex_pack_guard. exact Hg. }
  inversion E. reflexivity.
Defined.

(** C2 as stated fails in binary64: block 0, slot 0 of the two-block pack
    is a packing pair whose neighbor is on this rank, and the four fine
    fluxes under coarse face (0,0,0) are 1e16, 1, -1e16 and 1, whose mean is
    1/2; yet the receive buffer of the destination holds 0.25 after the
    call: the kernel adds from left to right, and 1e16 + 1 is rounded to
    1e16. *)
Lemma binary64_pack_is_not_the_mean :
  ~ (forall m n v k j i,
       0 <= m < nmb ex_pack -> 0 <= n < nnghbr ex_pack ->
       0 <= v < x1f_extent1 flux_cancel ->
       ccflx (nghbr ex_pack m n) = true -> lev (nghbr ex_pack m n) < mb_lev ex_pack m ->
       in_window (flux0 (send_buf (ex_new_float ex_pack) n)) k j i ->
       exists stored fine,
         float_value
           (buf_view (fst (PackAndSendFluxCC (ex_globals true) ex_pack flux_cancel
                             (ex_new_float ex_pack)))
                     ToRecv (dest (nghbr ex_pack m n))
                     (gid (nghbr ex_pack m n) - mb_gid ex_pack 0) v
                     (buf_offset (flux0 (send_buf (ex_new_float ex_pack) n)) i j k))
         = Some stored /\
         mapM float_value
              (fine_values flux_cancel (face_of_slot n) m v
                 (fine_faces_under (pmesh ex_pack) (face_of_slot n) k j i))
         = Some fine /\
         (stored == Qmean fine)%Q).
Proof.
  intros H.
  destruct (H 0 0 0 0 0 0) as (stored & fine & Es & Ef & Hq);
    [simpl; lia | simpl; lia | simpl; lia | reflexivity | simpl; lia
    | vm_compute; repeat split; congruence |].
  assert (E1 : float_value
           (buf_view (fst (PackAndSendFluxCC (ex_globals true) ex_pack flux_cancel
                             (ex_new_float ex_pack)))
                     ToRecv (dest (nghbr ex_pack 0 0))
                     (gid (nghbr ex_pack 0 0) - mb_gid ex_pack 0) 0
                     (buf_offset (flux0 (send_buf (ex_new_float ex_pack) 0)) 0 0 0))
           = Some (1 # 4)%Q) by (vm_compute; reflexivity).
  assert (E2 : mapM float_value
              (fine_values flux_cancel (face_of_slot 0) 0 0
                 (fine_faces_under (pmesh ex_pack) (face_of_slot 0) 0 0 0))
           = Some [10 ^ 16; 1; - 10 ^ 16; 1]%Q) by (vm_compute; reflexivity).
  rewrite E1 in Es. rewrite E2 in Ef. inversion Es. inversion Ef. subst stored fine.
  vm_compute in Hq. discriminate Hq.
Qed.

(** * Further properties *)

(** ** League ranks, cells and offsets *)

(** A loop that yields one element per pass maps its range. *)
Lemma bind_singleton_fmap {A B : Type} (f : A -> B) (l : list A) :
  (x ← l; [f x]) = f <$> l.
Proof. induction l as [|a l IH]; [reflexivity|]. simpl. f_equal. Qed.

(** Mapping over the output of a loop maps the output of each pass. *)
Lemma fmap_list_bind {A B C : Type} (f : B -> C) (g : A -> list B) (l : list A) :
  f <$> (l ≫= g) = l ≫= (fun x => f <$> g x).
Proof.
  induction l as [|a l IH]; [reflexivity|].
  change ((a :: l) ≫= g) with (g a ++ (l ≫= g)).
  rewrite fmap_app, IH. reflexivity.
Qed.

(** The offsets of the cells of one pass of the middle loop are
    consecutive. *)
Lemma row_offsets (il ni base : Z) :
  (i ← seqZ il ni; [i - il + base]) = seqZ base ni.
Proof.
  rewrite bind_singleton_fmap.
  transitivity (Z.add (base - il) <$> seqZ il ni).
  - apply list_fmap_ext. intros. lia.
  - rewrite fmap_add_seqZ. f_equal. lia.
Qed.

(** Rows of [ni] consecutive numbers, one after the other. *)
Lemma seqZ_rows (ni : Z) (c : nat) :
  0 <= ni ->
  (idx ← seqZ 0 (Z.of_nat c); seqZ (ni * idx) ni) = seqZ 0 (ni * Z.of_nat c).
Proof.
  intros Hni. induction c as [|c IH].
  - simpl. rewrite Z.mul_0_r. reflexivity.
  - rewrite Nat2Z.inj_succ. unfold Z.succ.
    rewrite (seqZ_app 0 (Z.of_nat c) 1) by lia.
    rewrite bind_app, IH. simpl. rewrite app_nil_r.
    replace (ni * (Z.of_nat c + 1)) with (ni * Z.of_nat c + ni) by lia.
    rewrite (seqZ_app 0 (ni * Z.of_nat c) ni) by nia. reflexivity.
Qed.

(** In loop order the cells of a window have the offsets 0, 1, 2, ... *)
Lemma window_cells_offsets_eq (w : BufferIndcs) :
  map (cell_offset w) (window_cells w) = seqZ 0 (window_size w).
Proof.
  unfold window_cells, window_size. cbv zeta.
  set (ni := bie w - bis w + 1). set (nj := bje w - bjs w + 1).
  set (nkj := (bke w - bks w + 1) * nj).
  replace (bie w + 1 - bis w) with ni by (subst ni; lia).
  change (map ?f ?l) with (f <$> l). rewrite fmap_list_bind.
  transitivity (idx ← seqZ 0 nkj; seqZ (ni * idx) ni).
  { apply list_bind_ext; [|reflexivity]. intros idx.
    rewrite fmap_list_bind.
    transitivity (i ← seqZ (bis w) ni; [i - bis w + ni * idx]).
    - apply list_bind_ext; [|reflexivity]. intros i. unfold cell_offset. simpl. f_equal.
      apply window_cell_offset.
    - apply row_offsets. }
  destruct (Z.le_gt_cases ni 0) as [Hn|Hn].
  - rewrite (Z.max_l 0 ni) by lia. simpl.
    transitivity (idx ← seqZ 0 nkj; @nil Z).
    + apply list_bind_ext; [|reflexivity]. intros idx. apply seqZ_nil. lia.
    + induction (seqZ 0 nkj); [reflexivity|]. simpl. assumption.
  - rewrite (Z.max_r 0 ni) by lia.
    destruct (Z.le_gt_cases nkj 0) as [Hk|Hk].
    + rewrite (Z.max_l 0 nkj) by lia. rewrite Z.mul_0_r.
      rewrite (seqZ_nil 0 nkj) by lia. reflexivity.
    + rewrite (Z.max_r 0 nkj) by lia.
      rewrite <- (Z2Nat.id nkj) by lia. apply seqZ_rows. lia.
Qed.

(** The offset of a visited cell lies within the passes of the loops. *)
Lemma window_cell_offset_range w k j i :
  (k, j, i) ∈ window_cells w -> 0 <= buf_offset w i j k < window_size w.
Proof.
  intros Hin.
  assert (Ho : buf_offset w i j k ∈ seqZ 0 (window_size w)).
  { rewrite <- window_cells_offsets_eq.
    apply list_elem_of_fmap. exists (k, j, i). split; [reflexivity|exact Hin]. }
  apply elem_of_seqZ in Ho. lia.
Qed.

(** X8 (offsets of a window): the two inner loops of both kernels, taken in
    loop order, give their cells the offsets 0, 1, 2, ... without a gap and
    without a repetition, up to the number of passes; no cell is visited
    twice; for a window whose three extents are not negative the number of
    passes is [ni*nj*nk]; and the offset of every cell of the window lies in
    [0, ni*nj*nk). *)
Theorem window_offsets_contiguous (w : BufferIndcs) :
  let ni := bie w - bis w + 1 in
  let nj := bje w - bjs w + 1 in
  let nk := bke w - bks w + 1 in
  map (cell_offset w) (window_cells w) = seqZ 0 (window_size w) /\
  NoDup (window_cells w) /\
  (0 <= ni -> 0 <= nj -> 0 <= nk -> window_size w = ni * nj * nk) /\
  (forall k j i, in_window w k j i -> 0 <= buf_offset w i j k < window_size w).
Proof.
  intros ni nj nk. pose proof (window_cells_offsets_eq w) as E.
  split; [exact E|]. split; [|split].
  - apply (NoDup_fmap_1 (cell_offset w)).
    change (NoDup (map (cell_offset w) (window_cells w))).
    rewrite E. apply NoDup_seqZ.
  - intros Hi Hj Hk. unfold window_size. fold ni nj nk.
    rewrite (Z.max_r 0 ni) by lia. rewrite (Z.max_r 0 (nk * nj)) by nia. lia.
  - intros k j i Hw. apply window_cell_offset_range. apply in_window_cells. exact Hw.
Qed.

(** X9 (cells of a window): unless both the j-extent and the k-extent of
    the window are negative, the two inner loops visit exactly the cells of
    the window: a cell is visited if and only if its three indices lie
    within the inclusive bounds. *)
Theorem window_cells_exact (w : BufferIndcs) :
  (0 <= bje w - bjs w + 1 \/ 0 <= bke w - bks w + 1) ->
  forall k j i, (k, j, i) ∈ window_cells w <-> in_window w k j i.
Proof.
  intros Hs k j i. split; [|apply in_window_cells].
  intros H. apply window_cells_elem in H as (idx & Hidx & -> & -> & Hi).
  set (nj := bje w - bjs w + 1) in *. set (nk := bke w - bks w + 1) in *.
  assert (Hp : 0 < nk * nj) by lia.
  assert (Hj : 0 < nj).
  { destruct (Z.le_gt_cases nj 0) as [Hle|]; [exfalso|lia].
    destruct Hs as [Hs|Hs].
    - assert (nj = 0) by lia. assert (nk * nj = 0) by nia. lia.
    - assert (nk * nj <= 0) by nia. lia. }
  assert (Hk : 0 < nk) by nia.
  rewrite (Z.quot_div_nonneg idx nj) by lia.
  pose proof (Z.div_mod idx nj ltac:(lia)) as E1.
  pose proof (Z.mod_pos_bound idx nj Hj) as B1.
  assert (0 <= idx / nj) by (apply Z.div_pos; lia).
  assert (idx / nj < nk) by (apply Z.div_lt_upper_bound; lia).
  unfold in_window. subst nj nk. repeat split; lia.
Qed.

(** X7 (league rank and team indices): for non-negative numbers of blocks,
    slots and variables, every league rank below [nmb*nnghbr*nvar] splits
    into a block, a slot and a variable within their ranges, from which the
    rank is [m*(nnghbr*nvar) + n*nvar + v]; every triple within the ranges
    is that of the rank [m*(nnghbr*nvar) + n*nvar + v], which is below
    [nmb*nnghbr*nvar]; and no two league ranks have the same triple. *)
Theorem team_index_roundtrip (pp : MeshBlockPack) (nvar : Z) :
  0 <= nmb pp -> 0 <= nnghbr pp -> 0 <= nvar ->
  (forall r, 0 <= r < nmb pp * nnghbr pp * nvar ->
     0 <= team_m pp nvar r < nmb pp /\ 0 <= team_n pp nvar r < nnghbr pp /\
     0 <= team_v pp nvar r < nvar /\
     team_m pp nvar r * (nnghbr pp * nvar) + team_n pp nvar r * nvar + team_v pp nvar r = r) /\
  (forall m n v, 0 <= m < nmb pp -> 0 <= n < nnghbr pp -> 0 <= v < nvar ->
     let r := m * (nnghbr pp * nvar) + n * nvar + v in
     0 <= r < nmb pp * nnghbr pp * nvar /\ team_indices pp nvar r = (m, n, v)) /\
  NoDup (map (team_indices pp nvar) (seqZ 0 (nmb pp * nnghbr pp * nvar))).
Proof.
  intros Hb Hs Hv. split; [|split].
  - intros r Hr. destruct (team_range pp nvar r Hb Hs Hv Hr) as (Hm & Hn & Hv').
    repeat (split; [assumption|]). unfold team_v. lia.
  - intros m n v Hm Hn Hv' r. split.
    + apply team_rank_range; assumption.
    + destruct (team_decode pp nvar m n v) as (Em & En & Ev); try lia.
      unfold team_indices. subst r. rewrite Em, En, Ev. reflexivity.
  - apply NoDup_fmap_2_strong; [|apply NoDup_seqZ].
    intros r1 r2 H1 H2 E. inversion E as [[Em En Ev]].
    unfold team_v in Ev. rewrite Em, En in Ev. lia.
Qed.

(** ** Vectors and lists *)

(** After a store an entry is as before, or is the entry stored to and
    holds the value stored. *)
Lemma vec_get_set_or {A : Type} (l : list A) (i j : Z) (x : A) :
  vec_get (vec_set l i x) j = vec_get l j \/ (j = i /\ vec_get (vec_set l i x) j = Some x).
Proof.
  destruct (decide (i = j)) as [->|Hne]; [|left; apply vec_get_set_ne; exact Hne].
  destruct (vec_get_set_cases l j x) as [H|H]; [right; auto|]. left. rewrite H.
  unfold vec_get in *. destruct (decide (0 <= j)); [|reflexivity].
  apply lookup_ge_None in H. rewrite vec_set_length in H.
  symmetry. apply lookup_ge_None. exact H.
Qed.

(** A loop none of whose passes yields anything yields nothing. *)
Lemma bind_nil_all {A B : Type} (f : A -> list B) (l : list A) :
  (forall x, x ∈ l -> f x = []) -> l ≫= f = [].
Proof.
  induction l as [|a l IH]; intros Hn; [reflexivity|].
  change ((a :: l) ≫= f) with (f a ++ (l ≫= f)).
  rewrite Hn by left. rewrite IH; [reflexivity|]. intros x Hx. apply Hn. right. exact Hx.
Qed.

(** Of all the events of a double loop, those that only the pass (m, n)
    can issue are those of that pass. *)
Lemma filter_pair_unique {E : Type} (P : E -> Prop) `{forall x, Decision (P x)}
    (ev : Z -> Z -> list E) nm nn m n :
  0 <= m < nm -> 0 <= n < nn ->
  (forall m' n', (m', n') <> (m, n) -> filter P (ev m' n') = []) ->
  filter P (m' ← seqZ 0 nm; n' ← seqZ 0 nn; ev m' n') = filter P (ev m n).
Proof.
  intros Hm Hn Ho.
  rewrite (filter_bind_unique _ _ (seqZ 0 nm) m);
    [| apply NoDup_seqZ | apply elem_of_seqZ; lia |].
  - apply filter_bind_unique; [apply NoDup_seqZ | apply elem_of_seqZ; lia |].
    intros y _ Hy. apply Ho. congruence.
  - intros y _ Hy. apply filter_bind_none. intros z _. apply Ho. congruence.
Qed.

(** The handles of a double loop that issues at most one event per pass,
    about the pair of the pass, are pairwise distinct. *)
Lemma pair_events_NoDup (c : Z -> Z -> bool) nm nn :
  NoDup (m ← seqZ 0 nm; n ← seqZ 0 nn; if c m n then [Some (n, m)] else []).
Proof.
  apply NoDup_bind; [| |apply NoDup_seqZ].
  - intros m1 m2 y _ _ H1 H2.
    apply list_elem_of_bind in H1 as (n1 & H1 & _).
    apply list_elem_of_bind in H2 as (n2 & H2 & _).
    destruct (c m1 n1); [|inversion H1]. destruct (c m2 n2); [|inversion H2].
    apply list_elem_of_singleton in H1, H2. congruence.
  - intros m _. apply NoDup_bind; [| |apply NoDup_seqZ].
    + intros n1 n2 y _ _ H1 H2.
      destruct (c m n1); [|inversion H1]. destruct (c m n2); [|inversion H2].
      apply list_elem_of_singleton in H1, H2. congruence.
    + intros n _. destruct (c m n); [apply NoDup_singleton | apply NoDup_nil_2].
Qed.

Section Posting.
Context {Real : Type} {RO : RealOps Real}.

(** ** InitRecv: what it leaves alone *)

(** One pass of [InitRecv] keeps what the loop keeps. *)
Lemma InitRecv_body_inv g pp nvar bv m n (t : BoundaryValues Real) :
  0 <= m < nmb_thispack pp -> 0 <= n < nnghbr pp ->
  InitRecv_inv pp bv t -> InitRecv_inv pp bv (InitRecv_body g pp nvar m n t).
Proof.
  intros Hm Hn (Hs & Hf & Hk). unfold InitRecv_body.
  destruct (neighbor_exists pp m n) eqn:He; [|repeat split; try apply Hf; try apply Hk; auto].
  assert (Hg : gid (nghbr pp m n) >= 0).
  { unfold neighbor_exists in He. apply Z.leb_le in He. lia. }
  assert (Hgoal : forall u : BoundaryValues Real, InitRecv_inv pp bv u ->
            InitRecv_inv pp bv (mkBoundaryValues (send_buf u)
              (arr_upd (recv_buf u) n (set_waiting m)) (mpi_log u))).
  { clear Hs Hf Hk. intros u (Hs & Hf & Hk). split; [exact Hs|]. split.
    - intros n'. simpl. unfold arr_upd.
      destruct (decide (n' = n)); [subst n'; simpl; rewrite !vec_set_length|]; apply Hf.
    - intros m' n'. simpl. unfold arr_upd.
      destruct (decide (n' = n)); [subst n'; simpl|apply Hk].
      destruct (Hk m' n) as [Kv Kf]. unfold kept_or_set in *. split.
      + destruct (vec_get_set_or (var_stat (recv_buf u n)) m m' waiting) as [E|[-> E]].
        * rewrite E. exact Kv.
        * right. split; [exact E|]. unfold valid_pair. lia.
      + destruct (vec_get_set_or (flx_stat (recv_buf u n)) m m' waiting) as [E|[-> E]].
        * rewrite E. exact Kf.
        * right. split; [exact E|]. unfold valid_pair. lia. }
  destruct (MPI_PARALLEL_ENABLED g && negb (on_my_rank g pp m n)).
  - apply Hgoal. split; [exact Hs|]. split; [exact Hf|exact Hk].
  - apply Hgoal. split; [exact Hs|]. split; [exact Hf|exact Hk].
Qed.

(** [InitRecv] keeps what its passes keep. *)
Lemma InitRecv_keeps g pp nvar (bv : BoundaryValues Real) :
  InitRecv_inv pp bv (fst (InitRecv g pp nvar bv)).
Proof.
  unfold InitRecv. simpl.
  apply (for_range2_keeps (InitRecv_inv pp bv)).
  - split; [reflexivity|]. split; [auto|]. intros m n. split; left; reflexivity.
  - intros m n t Hm Hn Ht. apply InitRecv_body_inv; assumption.
Qed.


(** ** The receives posted and the waits of ClearRecv *)

(** The log after [InitRecv]: the receives of its passes, in order. *)
Lemma InitRecv_log g pp nvar (bv : BoundaryValues Real) :
  mpi_log (fst (InitRecv g pp nvar bv))
  = mpi_log bv ++ (m ← seqZ 0 (nmb_thispack pp); n ← seqZ 0 (nnghbr pp);
                   InitRecv_posts g pp nvar bv m n).
Proof.
  unfold InitRecv. simpl.
  apply (for_range2_log (@mpi_log Real) (same_windows bv)).
  - intros n. auto.
  - intros m n t _ _ Ht. apply InitRecv_body_log. exact Ht.
Qed.

(** The handles of the receives posted, in order. *)
Lemma InitRecv_posts_handles g pp nvar (bv : BoundaryValues Real) :
  event_handle <$> (m ← seqZ 0 (nmb_thispack pp); n ← seqZ 0 (nnghbr pp);
                    InitRecv_posts g pp nvar bv m n)
  = (m ← seqZ 0 (nmb_thispack pp); n ← seqZ 0 (nnghbr pp);
     if neighbor_exists pp m n && (MPI_PARALLEL_ENABLED g && negb (on_my_rank g pp m n))
     then [Some (n, m)] else []).
Proof.
  rewrite fmap_list_bind. apply list_bind_ext; [|reflexivity]. intros m.
  rewrite fmap_list_bind. apply list_bind_ext; [|reflexivity]. intros n.
  unfold InitRecv_posts. destruct (neighbor_exists pp m n && _); reflexivity.
Qed.

(** The handles waited on, in order. *)
Lemma Clear_waits_handles g pp (wait : Z -> Z -> MPIEvent) :
  (forall n m, event_handle (wait n m) = Some (n, m)) ->
  event_handle <$> Clear_waits g pp wait
  = (m ← seqZ 0 (nmb_thispack pp); n ← seqZ 0 (nnghbr pp);
     if neighbor_exists pp m n && (MPI_PARALLEL_ENABLED g && negb (on_my_rank g pp m n))
     then [Some (n, m)] else []).
Proof.
  intros Hw. unfold Clear_waits. destruct (MPI_PARALLEL_ENABLED g).
  - rewrite fmap_list_bind. apply list_bind_ext; [|reflexivity]. intros m.
    rewrite fmap_list_bind. apply list_bind_ext; [|reflexivity]. intros n.
    simpl. destruct (neighbor_exists pp m n && _); [simpl; rewrite Hw|]; reflexivity.
  - symmetry. apply bind_nil_all. intros m _. apply bind_nil_all. intros n _.
    rewrite andb_false_r. reflexivity.
Qed.

(** X5 (ClearRecv and the receives of InitRecv): whatever the object was
    when InitRecv ran and whatever it is when ClearRecv runs, the calls of
    ClearRecv are waits and those of InitRecv are receives, on the same
    request handles [recv_buf[n].comm_req[m]] in the same order, and no
    handle occurs twice: every receive posted is waited for exactly once,
    and nothing else is. *)
Theorem ClearRecv_waits_on_posted_receives (g : Globals) (pp : MeshBlockPack) (nvar : Z)
    (bv bv2 : BoundaryValues Real) :
  exists posted waits,
    mpi_log (fst (InitRecv g pp nvar bv)) = mpi_log bv ++ posted /\
    mpi_log (fst (ClearRecv g pp bv2)) = mpi_log bv2 ++ waits /\
    map event_handle waits = map event_handle posted /\
    NoDup (map event_handle posted) /\
    Forall (fun e => is_Irecv e = true) posted /\
    Forall (fun e => is_Wait_recv e = true) waits.
Proof.
  exists (m ← seqZ 0 (nmb_thispack pp); n ← seqZ 0 (nnghbr pp);
          InitRecv_posts g pp nvar bv m n).
  exists (Clear_waits g pp Wait_recv).
  split; [apply InitRecv_log|].
  split; [apply Clear_loop_effect|].
  change (map event_handle ?l) with (event_handle <$> l).
  rewrite InitRecv_posts_handles, Clear_waits_handles by reflexivity.
  split; [reflexivity|]. split; [apply pair_events_NoDup|]. split.
  - apply Forall_forall. intros e He.
    apply InitRecv_posts_elem in He as (m & n & _ & _ & _ & _ & ->). reflexivity.
  - apply Forall_forall. intros e He.
    apply Clear_waits_elem in He as (_ & m & n & -> & _). reflexivity.
Qed.

End Posting.

Section Polling.
Context {Real : Type} {RO : RealOps Real}.

(** ** PackAndSendFluxCC: the status flags *)

(** One pass of the loop after the pack kernel keeps what the loop keeps. *)
Lemma send_body_inv g pp nvar bv m n (t : BoundaryValues Real) :
  0 <= m < nmb pp -> 0 <= n < nnghbr pp ->
  send_inv g pp bv t -> send_inv g pp bv (send_body g pp nvar m n t).
Proof.
  intros Hm Hn (Hs & Hf & Hk). unfold send_body.
  destruct (neighbor_exists pp m n) eqn:He; [|repeat split; try apply Hf; try apply Hk; auto].
  assert (Hg : gid (nghbr pp m n) >= 0).
  { unfold neighbor_exists in He. apply Z.leb_le in He. lia. }
  destruct (on_my_rank g pp m n) eqn:Er.
  2:{ destruct (MPI_PARALLEL_ENABLED g); split; try exact Hs; split; try exact Hf; exact Hk. }
  apply Z.eqb_eq in Er. split; [exact Hs|]. split.
  - intros n'. simpl. unfold arr_upd.
    destruct (decide (n' = dest (nghbr pp m n)));
      [subst n'; simpl; rewrite vec_set_length|]; apply Hf.
  - intros nn mm. simpl. unfold arr_upd.
    destruct (decide (nn = dest (nghbr pp m n))); [subst nn; simpl|apply Hk].
    specialize (Hk (dest (nghbr pp m n)) mm). unfold kept_or_set in *.
    destruct (vec_get_set_or (flx_stat (recv_buf t (dest (nghbr pp m n))))
                (gid (nghbr pp m n) - gids pp) mm received) as [E|[-> E]].
    + rewrite E. exact Hk.
    + right. split; [exact E|]. exists m, n. unfold valid_pair. repeat split; auto; lia.
Qed.

(** The loop after the pack kernel keeps what its passes keep. *)
Lemma PackAndSendFluxCC_send_inv g pp (flx : DvceFaceFld5D Real) (bv : BoundaryValues Real) :
  send_inv g pp (pack_kernel g pp flx bv) (fst (PackAndSendFluxCC g pp flx bv)).
Proof.
  unfold PackAndSendFluxCC. simpl.
  apply (for_range2_keeps (send_inv g pp (pack_kernel g pp flx bv))).
  - split; [reflexivity|]. split; [auto|]. intros nn mm. left. reflexivity.
  - intros m n t Hm Hn Ht. apply send_body_inv; assumption.
Qed.

(** X15 (PackAndSendFluxCC, the status flags): of every send buffer
    PackAndSendFluxCC keeps the index windows and both status vectors, so
    it changes no send flag; of every receive buffer it keeps the index
    windows, the variable status vector and the length of the flux status
    vector; and every flux receive flag is afterwards as it was before, or
    is [received] and is the flag (slot [nghbr.dest], block index gid minus
    [gids]) that a pair with a valid neighbor on this rank sends to.  It
    never makes a flag [waiting] or [undef].  Nothing is said of the
    request handles: the sends posted write those they are handed. *)
Theorem PackAndSendFluxCC_flags (g : Globals) (pp : MeshBlockPack)
    (flx : DvceFaceFld5D Real) (bv : BoundaryValues Real) :
  let bv' := fst (PackAndSendFluxCC g pp flx bv) in
  (forall n, buffer_shape (send_buf bv' n) = buffer_shape (send_buf bv n) /\
             var_stat (send_buf bv' n) = var_stat (send_buf bv n) /\
             flx_stat (send_buf bv' n) = flx_stat (send_buf bv n)) /\
  (forall n, buffer_shape (recv_buf bv' n) = buffer_shape (recv_buf bv n) /\
             var_stat (recv_buf bv' n) = var_stat (recv_buf bv n) /\
             length (flx_stat (recv_buf bv' n)) = length (flx_stat (recv_buf bv n))) /\
  (forall nn mm,
     vec_get (flx_stat (recv_buf bv' nn)) mm = vec_get (flx_stat (recv_buf bv nn)) mm \/
     vec_get (flx_stat (recv_buf bv' nn)) mm = Some received /\
     exists m n, (0 <= m < nmb pp /\ 0 <= n < nnghbr pp /\ gid (nghbr pp m n) >= 0) /\
       rank (nghbr pp m n) = my_rank g /\
       dest (nghbr pp m n) = nn /\ gid (nghbr pp m n) - gids pp = mm).
Proof.
  intros bv'. destruct (PackAndSendFluxCC_send_inv g pp flx bv) as (Hs & Hf & Hk).
  fold bv' in Hs, Hf, Hk.
  destruct (buf_stores_frame bv (pack_kernel_stores g pp flx bv)) as (Fs & Fr & _).
  fold (pack_kernel g pp flx bv) in Fs, Fr.
  split; [|split].
  - intros n. specialize (Hs n). specialize (Fs n).
    unfold buffer_content in Hs. unfold buffer_frame in Fs. unfold buffer_shape.
    inversion Hs. inversion Fs. split; [congruence|]. split; congruence.
  - intros n. destruct (Hf n) as (H1 & H2 & H3). specialize (Fr n).
    unfold buffer_static in H1. unfold buffer_frame in Fr. unfold buffer_shape.
    inversion H1. inversion Fr. split; [congruence|]. split; congruence.
  - intros nn mm. specialize (Hk nn mm). specialize (Fr nn). unfold buffer_frame in Fr.
    assert (E : flx_stat (recv_buf (pack_kernel g pp flx bv) nn) = flx_stat (recv_buf bv nn))
      by congruence.
    unfold kept_or_set in Hk. rewrite E in Hk. exact Hk.
Qed.

(** ** PackAndSendFluxCC: pairs of another rank *)

(** Of all the sends, those of the pair (m, n) are those of its pass. *)
Lemma send_posts_pair g pp nvar (bv : BoundaryValues Real) m n :
  0 <= m < nmb pp -> 0 <= n < nnghbr pp ->
  filter (is_Isend_for n m)
    (m' ← seqZ 0 (nmb pp); n' ← seqZ 0 (nnghbr pp); send_posts g pp nvar bv m' n')
  = filter (is_Isend_for n m) (send_posts g pp nvar bv m n).
Proof.
  intros Hm Hn. apply filter_pair_unique; try assumption.
  intros m' n' Hne. apply send_posts_other. left. exact Hne.
Qed.

(** X14 (PackAndSendFluxCC, pairs of another rank): for a block [m] and a
    slot [n] whose valid neighbor is on another rank, with the
    message-passing library exactly one send is posted for the pair, of
    [flux[0].ndat * nvar] values of the send buffer of the slot, to the rank
    of the neighbor, with the tag made from the local id of the neighbor on
    its rank, the destination slot and the key; without the library no send
    is posted.  When the pair packs (flux-relevant neighbor at a coarser
    level) the restricted flux of every cell of the send window is in the
    send buffer of the pair at the offset of the cell; when it does not
    pack, the send buffer of the pair is as before, and is sent as it is.
    Every assignment of the team of the pair goes to its own send buffer
    (slot [n], block [m]). *)
Theorem PackAndSendFluxCC_cross_rank (g : Globals) (pp : MeshBlockPack)
    (flx : DvceFaceFld5D Real) (bv : BoundaryValues Real) (m n : Z) :
  0 <= nmb pp -> 0 <= nnghbr pp -> 0 <= x1f_extent1 flx ->
  0 <= m < nmb pp -> 0 <= n < nnghbr pp ->
  gid (nghbr pp m n) >= 0 -> rank (nghbr pp m n) <> my_rank g ->
  let bv' := fst (PackAndSendFluxCC g pp flx bv) in
  let w := flux0 (send_buf bv n) in
  (exists sent, mpi_log bv' = mpi_log bv ++ sent /\
     filter (is_Isend_for n m) sent
     = if MPI_PARALLEL_ENABLED g
       then [Isend n m (ndat w * x1f_extent1 flx) (rank (nghbr pp m n))
               (CreateMPITag_key g (gid (nghbr pp m n) - gidslist g (rank (nghbr pp m n)))
                                 (dest (nghbr pp m n)) (key g))]
       else []) /\
  (ccflx (nghbr pp m n) = true -> lev (nghbr pp m n) < mb_lev pp m ->
   forall v k j i, 0 <= v < x1f_extent1 flx -> in_window w k j i ->
     buf_view bv' ToSend n m v (buf_offset w i j k)
     = restricted_flux (pmesh pp) flx n m v k j i) /\
  (ccflx (nghbr pp m n) = false \/ lev (nghbr pp m n) >= mb_lev pp m ->
   forall v off, buf_view bv' ToSend n m v off = buf_view bv ToSend n m v off) /\
  (forall v s, s ∈ pack_team_stores g pp flx bv m n v ->
     bs_side s = ToSend /\ bs_slot s = n /\ bs_m s = m /\ bs_v s = v).
Proof.
  intros Hb Hs Hv Hm Hn Hg Hr bv' w.
  destruct (PackAndSendFluxCC_frame g pp flx bv) as (Fv & Fw & Fl). fold bv' in Fv, Fw, Fl.
  destruct (pack_kernel_effect g pp flx bv Hb Hs Hv) as (_ & Ks & Kn & _).
  assert (He : neighbor_exists pp m n = true) by (unfold neighbor_exists; apply Z.leb_le; lia).
  assert (Er : on_my_rank g pp m n = false) by (unfold on_my_rank; apply Z.eqb_neq; exact Hr).
  split; [|split; [|split]].
  - eexists. split; [exact Fl|]. rewrite send_posts_pair by assumption.
    unfold send_posts. rewrite He, Er. simpl. destruct (MPI_PARALLEL_ENABLED g); [|reflexivity].
    rewrite filter_cons_True; [reflexivity|]. simpl. rewrite !Z.eqb_refl. exact I.
  - intros Hcc Hl v k j i Hv' Hw. rewrite Fv. apply Ks; try assumption.
    apply pack_guard_spec. auto.
  - intros Hc v off. rewrite Fv. apply Kn. left.
    destruct (pack_guard pp m n) eqn:Hpg; [|reflexivity].
    apply pack_guard_spec in Hpg as [Hcc Hl]. destruct Hc; [congruence|lia].
  - intros v s Hin. apply pack_team_elem in Hin as (_ & k & j & i & _ & ->).
    apply Z.eqb_neq in Hr. rewrite Hr. simpl. auto.
Qed.

(** ** RecvAndUnpackFluxCC: step 1 *)

(** The object returned is that of step 1, which follows the probe, and
    the call returns [incomplete] exactly when step 1 raises [bflag]. *)
Lemma RecvAndUnpackFluxCC_object g pp (flx : DvceFaceFld5D Real) (bv : BoundaryValues Real) :
  fst (fst (RecvAndUnpackFluxCC g pp flx bv)) = fst (check_received g pp (probe g bv)) /\
  (snd (RecvAndUnpackFluxCC g pp flx bv) = incomplete <->
   snd (check_received g pp (probe g bv)) = true).
Proof.
  unfold RecvAndUnpackFluxCC. destruct (check_received g pp (probe g bv)) as [t b].
  destruct b; simpl; split; try reflexivity; split; intros; congruence.
Qed.

(** If [bflag] is raised, some pair is outstanding. *)
Lemma check_received_raised g pp (bv : BoundaryValues Real) :
  snd (check_received g pp bv) = true ->
  exists m n, 0 <= m < nmb pp /\ 0 <= n < nnghbr pp /\ outstanding g pp bv m n.
Proof.
  unfold check_received.
  enough (H : (fun st => same_rank_flags_kept g pp bv (fst st) /\
                 (snd st = true ->
                  exists m n, 0 <= m < nmb pp /\ 0 <= n < nnghbr pp /\ outstanding g pp bv m n))
                (for_range2 (nmb pp) (nnghbr pp) (check_body g pp) (bv, false)))
    by apply H.
  apply for_range2_keeps.
  - split; [intros m n _; reflexivity | discriminate].
  - intros m n [t b] Hm Hn [Hk Hb]. split; [apply check_body_same_rank; exact Hk|].
    simpl in Hk, Hb. unfold check_body.
    destruct (neighbor_exists pp m n) eqn:He; [|exact Hb].
    assert (Hg : gid (nghbr pp m n) >= 0).
    { unfold neighbor_exists in He. apply Z.leb_le in He. lia. }
    destruct (on_my_rank g pp m n) eqn:Er.
    + case_decide as Hw; [|exact Hb]. intros _. exists m, n.
      repeat (split; [assumption|]). left. split; [apply Z.eqb_eq; exact Er|].
      rewrite <- (Hk m n Er). exact Hw.
    + destruct (MPI_PARALLEL_ENABLED g) eqn:Hmpi; [|exact Hb].
      destruct (MPI_Test g n m) eqn:Ht; [exact Hb|]. intros _. exists m, n.
      repeat (split; [assumption|]). right. split; [apply Z.eqb_neq; exact Er|]. auto.
Qed.

(** X16 (RecvAndUnpackFluxCC, when it holds back): the call returns
    [incomplete] if and only if some block [m < nmb] and slot [n < nnghbr]
    with a valid neighbor is outstanding: the neighbor is on this rank and
    the flux receive flag of the pair is [waiting] at the call, or (with the
    message-passing library) the neighbor is on another rank and [MPI_Test]
    reports its receive as not completed.  So the call never holds back
    without such a pair. *)
Theorem RecvAndUnpackFluxCC_incomplete_iff (g : Globals) (pp : MeshBlockPack)
    (flx : DvceFaceFld5D Real) (bv : BoundaryValues Real) :
  snd (RecvAndUnpackFluxCC g pp flx bv) = incomplete <->
  exists m n, 0 <= m < nmb pp /\ 0 <= n < nnghbr pp /\ outstanding g pp bv m n.
Proof.
  rewrite (proj2 (RecvAndUnpackFluxCC_object g pp flx bv)). split.
  - intros H. apply check_received_raised in H as (m & n & Hm & Hn & Ho).
    exists m, n. apply (proj1 (probe_outstanding g pp bv m n)) in Ho.
    split; [exact Hm|]. split; [exact Hn|exact Ho].
  - intros (m & n & Hm & Hn & Ho).
    apply (check_received_outstanding g pp (probe g bv) m n); try assumption.
    apply (proj2 (probe_outstanding g pp bv m n)). exact Ho.
Qed.

(** One pass of step 1 keeps what the loop keeps. *)
Lemma check_body_inv g pp bv m n (st : BoundaryValues Real * bool) :
  0 <= m < nmb pp -> 0 <= n < nnghbr pp ->
  check_inv g pp bv (fst st) -> check_inv g pp bv (fst (check_body g pp m n st)).
Proof.
  destruct st as [t b]. simpl. intros Hm Hn (Hs & Hf & Hk). unfold check_body.
  destruct (neighbor_exists pp m n) eqn:He; [|split; [exact Hs|split; [exact Hf|exact Hk]]].
  assert (Hg : gid (nghbr pp m n) >= 0).
  { unfold neighbor_exists in He. apply Z.leb_le in He. lia. }
  destruct (on_my_rank g pp m n) eqn:Er;
    [case_decide; split; try exact Hs; split; try exact Hf; exact Hk|].
  destruct (MPI_PARALLEL_ENABLED g) eqn:Hmpi; [|split; [exact Hs|split; [exact Hf|exact Hk]]].
  destruct (MPI_Test g n m) eqn:Ht; simpl; [|split; [exact Hs|split; [exact Hf|exact Hk]]].
  apply Z.eqb_neq in Er. split; [exact Hs|]. split.
  - intros n'. simpl. unfold arr_upd.
    destruct (decide (n' = n)); [subst n'; simpl; rewrite vec_set_length|]; apply Hf.
  - intros n' m'. simpl. unfold arr_upd.
    destruct (decide (n' = n)); [subst n'; simpl|apply Hk].
    specialize (Hk n m'). unfold kept_or_set in *.
    destruct (vec_get_set_or (flx_stat (recv_buf t n)) m m' received) as [E|[-> E]].
    + rewrite E. exact Hk.
    + right. split; [exact E|]. unfold tested_complete, valid_pair. auto 8.
Qed.

(** Step 1 keeps what its passes keep. *)
Lemma check_received_inv g pp (bv : BoundaryValues Real) :
  check_inv g pp bv (fst (check_received g pp bv)).
Proof.
  unfold check_received.
  apply (for_range2_keeps (fun st => check_inv g pp bv (fst st))).
  - split; [reflexivity|]. split; [auto|]. intros n m. left. reflexivity.
  - intros m n st Hm Hn Ht. apply check_body_inv; assumption.
Qed.







(** ** A build without the message-passing library *)

(** Without the message-passing library step 1 changes nothing. *)
Lemma check_received_serial g pp (bv : BoundaryValues Real) :
  MPI_PARALLEL_ENABLED g = false -> fst (check_received g pp bv) = bv.
Proof.
  intros Hmpi. unfold check_received.
  apply (for_range2_keeps (fun st : BoundaryValues Real * bool => fst st = bv));
    [reflexivity|].
  intros m n [t b] _ _ Ht. simpl in *. unfold check_body.
  destruct (neighbor_exists pp m n); [|exact Ht].
  destruct (on_my_rank g pp m n); [case_decide; exact Ht|].
  rewrite Hmpi. exact Ht.
Qed.

(** X6 (build without the message-passing library): when
    [MPI_PARALLEL_ENABLED] is off, InitRecv, ClearRecv, ClearSend,
    PackAndSendFluxCC and RecvAndUnpackFluxCC make no call to the library;
    ClearRecv and ClearSend return the object as it is, and so does step 1
    of RecvAndUnpackFluxCC, which then returns [incomplete] if and only if
    a pair with a valid neighbor on this rank is [waiting]: a neighbor on
    another rank is never waited for. *)
Theorem serial_build_makes_no_library_call (g : Globals) (pp : MeshBlockPack) (nvar : Z)
    (flx : DvceFaceFld5D Real) (bv : BoundaryValues Real) :
  MPI_PARALLEL_ENABLED g = false ->
  mpi_log (fst (InitRecv g pp nvar bv)) = mpi_log bv /\
  fst (ClearRecv g pp bv) = bv /\
  fst (ClearSend g pp bv) = bv /\
  mpi_log (fst (PackAndSendFluxCC g pp flx bv)) = mpi_log bv /\
  fst (fst (RecvAndUnpackFluxCC g pp flx bv)) = bv /\
  (snd (RecvAndUnpackFluxCC g pp flx bv) = incomplete <->
   exists m n, 0 <= m < nmb pp /\ 0 <= n < nnghbr pp /\ gid (nghbr pp m n) >= 0 /\
     rank (nghbr pp m n) = my_rank g /\
     vec_get (flx_stat (recv_buf bv n)) m = Some waiting).
Proof.
  intros Hmpi. split; [|split; [|split; [|split; [|split]]]].
  - rewrite InitRecv_log. rewrite bind_nil_all; [apply app_nil_r|].
    intros m _. apply bind_nil_all. intros n _. unfold InitRecv_posts.
    rewrite Hmpi. simpl. rewrite andb_false_r. reflexivity.
  - unfold ClearRecv, Clear_loop. rewrite Hmpi. reflexivity.
  - unfold ClearSend, Clear_loop. rewrite Hmpi. reflexivity.
  - destruct (PackAndSendFluxCC_frame g pp flx bv) as (_ & _ & ->).
    rewrite bind_nil_all; [apply app_nil_r|].
    intros m _. apply bind_nil_all. intros n _. unfold send_posts.
    rewrite Hmpi. rewrite !andb_false_r. reflexivity.
  - rewrite (proj1 (RecvAndUnpackFluxCC_object g pp flx bv)).
    rewrite (probe_serial g bv Hmpi). apply check_received_serial. exact Hmpi.
  - rewrite (proj2 (RecvAndUnpackFluxCC_object g pp flx bv)).
    rewrite (probe_serial g bv Hmpi). split.
    + intros H. apply check_received_raised in H as (m & n & Hm & Hn & Hg & Ho).
      exists m, n. destruct Ho as [[Hr Hw]|(_ & H & _)]; [auto 6|congruence].
    + intros (m & n & Hm & Hn & Hg & Hr & Hw).
      apply (check_received_outstanding g pp bv m n); try assumption.
      split; [exact Hg|]. left. auto.
Qed.

End Polling.

(** ** The constructor: the whole object *)

(** One more copy at the end of a vector of copies. *)
Lemma replicate_snoc {A : Type} (k : nat) (x : A) :
  replicate k x ++ [x] = replicate (Datatypes.S k) x.
Proof. induction k as [|k IH]; [reflexivity|]. simpl in *. f_equal. exact IH. Qed.

Section WholeObject.
Context {Real : Type} {RO : RealOps Real}.

(** One pass of the inner loop of the constructor, on one buffer. *)
Lemma push_flags_constructed g k ix (d : Z -> Z -> Z -> Real) :
  push_flags g (constructed_buffer g k ix d) = constructed_buffer g (Datatypes.S k) ix d.
Proof.
  unfold push_flags, constructed_buffer, pushed_requests, push_back.
  destruct (MPI_PARALLEL_ENABLED g);
    cbn [var_stat flx_stat var_req flx_req same coar fine flux0 data
         set_var_stat set_flx_stat set_var_req set_flx_req];
    rewrite ?replicate_snoc; reflexivity.
Qed.

(** The inner loop of the constructor on slot [n]. *)
Lemma ctor_inner_constructed g (nb : Z) n ix (d : Z -> Z -> Z -> Real)
    (bv : BoundaryValues Real) :
  send_buf bv n = new_buffer ix d -> recv_buf bv n = new_buffer ix d ->
  let bv' := for_range 0 nb (fun _ bv =>
               mkBoundaryValues (arr_upd (send_buf bv) n (push_flags g))
                                (arr_upd (recv_buf bv) n (push_flags g))
                                (mpi_log bv)) bv in
  send_buf bv' n = constructed_buffer g (Z.to_nat nb) ix d /\
  recv_buf bv' n = constructed_buffer g (Z.to_nat nb) ix d /\
  mpi_log bv' = mpi_log bv /\
  forall n', n' <> n -> send_buf bv' n' = send_buf bv n' /\ recv_buf bv' n' = recv_buf bv n'.
Proof.
  intros Hs Hr bv'. subst bv'.
  assert (E0 : new_buffer ix d = constructed_buffer g 0 ix d).
  { unfold new_buffer, constructed_buffer, pushed_requests.
    destruct (MPI_PARALLEL_ENABLED g); reflexivity. }
  rewrite E0 in Hs, Hr.
  destruct (Z_le_gt_dec 0 nb) as [Hnb|Hnb];
    [|rewrite for_range_empty by lia; replace (Z.to_nat nb) with O by lia; auto].
  apply (for_range_ind (fun i t =>
    send_buf t n = constructed_buffer g (Z.to_nat i) ix d /\
    recv_buf t n = constructed_buffer g (Z.to_nat i) ix d /\
    mpi_log t = mpi_log bv /\
    forall n', n' <> n -> send_buf t n' = send_buf bv n' /\ recv_buf t n' = recv_buf bv n'));
    [lia | change (Z.to_nat 0) with O; auto |].
  intros i t Hi (Is & Ir & Il & Io). simpl.
  replace (Z.to_nat (i + 1)) with (Datatypes.S (Z.to_nat i)) by lia.
  unfold arr_upd. destruct (decide (n = n)) as [_|]; [|congruence].
  rewrite Is, Ir, !push_flags_constructed. repeat split; try assumption.
  - destruct (decide (n' = n)); [congruence | apply Io; assumption].
  - destruct (decide (n' = n)); [congruence | apply Io; assumption].
Qed.

(** The constructor builds the slots below [nnghbr] and no other. *)
Lemma ctor_constructed g pp ix (d : Z -> Z -> Z -> Real) :
  ctor_inv g pp ix d (Z.max 0 (nnghbr pp)) (BoundaryValues_ctor g pp ix d).
Proof.
  unfold BoundaryValues_ctor.
  destruct (Z_le_gt_dec 0 (nnghbr pp)) as [Hn|Hn].
  2:{ rewrite for_range_empty by lia. split; [reflexivity|]. intros n. split; [lia|auto]. }
  rewrite Z.max_r by lia.
  apply (for_range_ind (ctor_inv g pp ix d)); [lia | |].
  - split; [reflexivity|]. intros n. split; [lia|auto].
  - intros k t Hk [Hl IH].
    destruct (ctor_inner_constructed g (nmb_thispack pp) k ix d t) as (Hs & Hr & Hlog & Ho).
    { apply IH. lia. } { apply IH. lia. }
    split; [rewrite Hlog; exact Hl|]. intros n. split; intros Hn'.
    + destruct (decide (n = k)) as [->|Hne]; [split; assumption|].
      destruct (Ho n Hne) as [-> ->]. apply IH. lia.
    + destruct (Ho n) as [-> ->]; [lia|]. apply IH. lia.
Qed.

(** X1 (constructor, the whole object): the constructor calls nothing of
    the message-passing library and leaves the index windows and the view
    of every buffer as they were; in every slot [n < nnghbr] each of the
    four request vectors holds one unset handle per block of the pack with
    the message-passing library, and is empty without it; a slot outside
    [0, nnghbr) is not touched at all, so when [nnghbr] or [nmb_thispack]
    is not positive no flag exists; and no status vector has an entry for a
    block outside [0, nmb_thispack). *)
Theorem ctor_buffers (g : Globals) (pp : MeshBlockPack) (ix : BufferIndcs)
    (d : Z -> Z -> Z -> Real) :
  let bv := BoundaryValues_ctor g pp ix d in
  let k := Z.to_nat (nmb_thispack pp) in
  mpi_log bv = [] /\
  (forall n, windows_and_view ix d (send_buf bv n) /\ windows_and_view ix d (recv_buf bv n)) /\
  (forall n, 0 <= n < nnghbr pp ->
     var_req (send_buf bv n) = pushed_requests g k /\
     flx_req (send_buf bv n) = pushed_requests g k /\
     var_req (recv_buf bv n) = pushed_requests g k /\
     flx_req (recv_buf bv n) = pushed_requests g k) /\
  (forall n, ~ 0 <= n < nnghbr pp ->
     send_buf bv n = new_buffer ix d /\ recv_buf bv n = new_buffer ix d) /\
  (forall n m, ~ (0 <= n < nnghbr pp /\ 0 <= m < nmb_thispack pp) ->
     vec_get (var_stat (send_buf bv n)) m = None /\
     vec_get (flx_stat (send_buf bv n)) m = None /\
     vec_get (var_stat (recv_buf bv n)) m = None /\
     vec_get (flx_stat (recv_buf bv n)) m = None).
Proof.
  intros bv k. destruct (ctor_constructed g pp ix d) as [Hl Hc]. fold bv in Hl, Hc.
  assert (Hin : forall n, 0 <= n < nnghbr pp ->
            send_buf bv n = constructed_buffer g k ix d /\
            recv_buf bv n = constructed_buffer g k ix d).
  { intros n Hn. apply Hc. lia. }
  assert (Hout : forall n, ~ 0 <= n < nnghbr pp ->
            send_buf bv n = new_buffer ix d /\ recv_buf bv n = new_buffer ix d).
  { intros n Hn. apply Hc. lia. }
  split; [exact Hl|]. split; [|split; [|split; [exact Hout|]]].
  - intros n. unfold windows_and_view. destruct (decide (0 <= n < nnghbr pp)) as [Hn|Hn].
    + destruct (Hin n Hn) as [-> ->]. simpl. auto 10.
    + destruct (Hout n Hn) as [-> ->]. simpl. auto 10.
  - intros n Hn. destruct (Hin n Hn) as [-> ->]. simpl. auto.
  - intros n m Hnm. destruct (decide (0 <= n < nnghbr pp)) as [Hn|Hn].
    + destruct (Hin n Hn) as [-> ->]. simpl. unfold vec_get.
      destruct (decide (0 <= m)); [|auto].
      assert (E : replicate k undef !! Z.to_nat m = None).
      { apply lookup_ge_None. rewrite length_replicate. subst k. lia. }
      rewrite E. auto.
    + destruct (Hout n Hn) as [-> ->]. simpl. unfold vec_get.
      destruct (decide (0 <= m)); auto.
Qed.

End WholeObject.

(** ** InitializeBuffers: how many buffers *)


(** ** The stores of the kernels stay within the buffers *)

Section Bounds.
Context {Real : Type} {RO : RealOps Real}.

(** X10 (the assignments of the kernels stay in bounds): every assignment
    of the pack kernel is that of a block [m < nmb] and a slot
    [n < nnghbr] with a flux-relevant neighbor at a coarser level; its
    variable index is below [nvar], its offset is not negative and below the
    number of passes of the inner loops over the send window of the slot,
    and it goes to the receive buffer of the destination (slot
    [nghbr.dest], block index gid minus [mb_gid(0)]) when the neighbor is on
    this rank and to the send buffer of the pair otherwise.  Every
    assignment of the unpack kernel writes the face array of a slot
    [n < nnghbr] with a flux-relevant neighbor at a finer level, for a block
    below [nmb] and a variable below [nvar], at a cell visited for the
    receive window of the slot, with the buffer value of an offset that is
    not negative and below the number of passes over that window. *)
Theorem kernel_stores_in_bounds (g : Globals) (pp : MeshBlockPack)
    (flx : DvceFaceFld5D Real) (bv : BoundaryValues Real) :
  0 <= nmb pp -> 0 <= nnghbr pp -> 0 <= x1f_extent1 flx ->
  (forall s, s ∈ pack_kernel_stores g pp flx bv ->
     exists m n, 0 <= m < nmb pp /\ 0 <= n < nnghbr pp /\
       ccflx (nghbr pp m n) = true /\ lev (nghbr pp m n) < mb_lev pp m /\
       0 <= bs_v s < x1f_extent1 flx /\
       0 <= bs_off s < window_size (flux0 (send_buf bv n)) /\
       (bs_side s, bs_slot s, bs_m s)
       = if rank (nghbr pp m n) =? my_rank g
         then (ToRecv, dest (nghbr pp m n), gid (nghbr pp m n) - mb_gid pp 0)
         else (ToSend, n, m)) /\
  (forall s, s ∈ unpack_kernel_stores pp (x1f_extent1 flx) bv ->
     exists n off, 0 <= n < nnghbr pp /\ 0 <= fs_m s < nmb pp /\
       ccflx (nghbr pp (fs_m s) n) = true /\ lev (nghbr pp (fs_m s) n) > mb_lev pp (fs_m s) /\
       0 <= fs_v s < x1f_extent1 flx /\ fs_face s = face_of_slot n /\
       (fs_k s, fs_j s, fs_i s) ∈ window_cells (flux0 (recv_buf bv n)) /\
       0 <= off < window_size (flux0 (recv_buf bv n)) /\
       fs_val s = data (recv_buf bv n) (fs_m s) (fs_v s) off).
Proof.
  intros Hb Hs Hv. split.
  - intros s Hin. unfold pack_kernel_stores in Hin.
    apply kernel_elem in Hin as (m & n & v & Hm & Hn & Hv' & Hin); try assumption.
    apply pack_team_elem in Hin as (Hg & k & j & i & Hc & ->).
    apply pack_guard_spec in Hg as [Hcc Hl]. exists m, n.
    repeat (split; [assumption|]).
    pose proof (window_cell_offset_range _ _ _ _ Hc) as Ho.
    destruct (rank (nghbr pp m n) =? my_rank g); simpl; repeat split; lia.
  - intros s Hin. unfold unpack_kernel_stores in Hin.
    apply kernel_elem in Hin as (m & n & v & Hm & Hn & Hv' & Hin); try assumption.
    apply unpack_team_elem in Hin as (Hg & k & j & i & Hc & ->).
    apply unpack_guard_spec in Hg as [Hcc Hl].
    exists n, (buf_offset (flux0 (recv_buf bv n)) i j k). simpl.
    pose proof (window_cell_offset_range _ _ _ _ Hc) as Ho.
    repeat split; try assumption; lia.
Qed.

(** X13 (an empty league): when [nmb*nnghbr*nvar] is zero, as when the
    flux array has no variable, the pack kernel runs no team and leaves
    the object as it is, PackAndSendFluxCC leaves every view as it is, and
    RecvAndUnpackFluxCC returns the flux arrays as they are, whether it
    returns [complete] or [incomplete]. *)
Theorem empty_league_stores_nothing (g : Globals) (pp : MeshBlockPack)
    (flx : DvceFaceFld5D Real) (bv : BoundaryValues Real) :
  nmb pp * nnghbr pp * x1f_extent1 flx = 0 ->
  pack_kernel g pp flx bv = bv /\
  (forall side slot, buf_view (fst (PackAndSendFluxCC g pp flx bv)) side slot
                     = buf_view bv side slot) /\
  snd (fst (RecvAndUnpackFluxCC g pp flx bv)) = flx.
Proof.
  intros H0.
  assert (Ep : pack_kernel g pp flx bv = bv).
  { unfold pack_kernel, pack_kernel_stores. rewrite seqZ_nil by lia. reflexivity. }
  split; [exact Ep|]. split.
  - intros side slot. destruct (PackAndSendFluxCC_frame g pp flx bv) as (-> & _).
    rewrite Ep. reflexivity.
  - unfold RecvAndUnpackFluxCC. destruct (check_received g pp (probe g bv)) as [t b].
    destruct b; [reflexivity|]. simpl.
    unfold unpack_kernel, unpack_kernel_stores. rewrite seqZ_nil by lia. reflexivity.
Qed.

End Bounds.

(** ** Calling RecvAndUnpackFluxCC again *)

Section Repeat.
Context {Real : Type} {RO : RealOps Real}.

(** A call that returns [incomplete] met an outstanding pair. *)
Lemma RecvAndUnpackFluxCC_incomplete_cases g pp (flx : DvceFaceFld5D Real)
    (bv : BoundaryValues Real) :
  snd (RecvAndUnpackFluxCC g pp flx bv) = incomplete ->
  exists m n, 0 <= m < nmb pp /\ 0 <= n < nnghbr pp /\ outstanding g pp bv m n.
Proof.
  intros H. apply (proj2 (RecvAndUnpackFluxCC_object g pp flx bv)) in H.
  apply check_received_raised in H as (m & n & Hm & Hn & Ho).
  exists m, n. apply (proj1 (probe_outstanding g pp bv m n)) in Ho.
  split; [exact Hm|]. split; [exact Hn|exact Ho].
Qed.




End Repeat.

(** ** One exchange: InitRecv, PackAndSendFluxCC, RecvAndUnpackFluxCC *)

Section Exchange.
Context {Real : Type} {RO : RealOps Real}.

(** A receive flag that some pair of this rank sends to is not [waiting]
    after [PackAndSendFluxCC]. *)
Lemma PackAndSendFluxCC_sender_not_waiting g pp (flx : DvceFaceFld5D Real)
    (bv : BoundaryValues Real) m n :
  has_local_sender g pp m n -> not_waiting m n (fst (PackAndSendFluxCC g pp flx bv)).
Proof.
  intros (m' & n' & (Hm' & Hn' & Hg') & Hr' & Hd & Hi).
  unfold PackAndSendFluxCC. simpl.
  apply (for_range2_reach (fun _ => True) (not_waiting m n) _ _ _ m' n');
    try assumption; auto.
  - intros. apply send_body_not_waiting. assumption.
  - intros t _. unfold send_body, not_waiting.
    assert (He : neighbor_exists pp m' n' = true)
      by (unfold neighbor_exists; apply Z.leb_le; lia).
    assert (Er : on_my_rank g pp m' n' = true) by (unfold on_my_rank; apply Z.eqb_eq; exact Hr').
    rewrite He, Er. simpl. unfold arr_upd. rewrite Hd, Hi.
    destruct (decide (n = n)); [simpl|congruence].
    destruct (vec_get_set_cases (flx_stat (recv_buf t n)) m received) as [-> | ->]; discriminate.
Qed.

(** When every pair is served, the call that follows the pack goes
    through. *)
Lemma served_then_complete g pp (flx : DvceFaceFld5D Real) (bv : BoundaryValues Real) :
  all_pairs_served g pp ->
  snd (RecvAndUnpackFluxCC g pp flx (fst (PackAndSendFluxCC g pp flx bv))) = complete.
Proof.
  intros Htop.
  destruct (snd (RecvAndUnpackFluxCC g pp flx (fst (PackAndSendFluxCC g pp flx bv))))
    eqn:Hst; [reflexivity|]. exfalso.
  apply RecvAndUnpackFluxCC_incomplete_cases in Hst as (m & n & Hm & Hn & Hg & Ho).
  destruct (Htop m n Hm Hn Hg) as [[Hr (m' & n' & Hm' & Hn' & Hg' & Hs)]|[Hr Hc]].
  - destruct Ho as [[_ Hw]|[Hr' _]]; [|contradiction].
    apply (PackAndSendFluxCC_sender_not_waiting g pp flx bv m n); [|exact Hw].
    exists m', n'. unfold valid_pair. tauto.
  - destruct Ho as [[Hr' _]|(_ & Hmpi & Ht)]; [contradiction|].
    destruct Hc; congruence.
Qed.

(** X19 (the exchange completes): suppose that every block [m < nmb] and
    slot [n < nnghbr] with a valid neighbor either has the neighbor on this
    rank and is the destination (slot [nghbr.dest], block index gid minus
    [gids]) of some pair with a valid neighbor on this rank, or has the
    neighbor on another rank whose receive [MPI_Test] reports as completed
    (or the build is without the message-passing library).  Then
    RecvAndUnpackFluxCC called after PackAndSendFluxCC returns [complete],
    whatever the flags were before the pack; in particular when InitRecv
    has set them all to [waiting]. *)
Theorem exchange_completes (g : Globals) (pp : MeshBlockPack) (nvar : Z)
    (flx : DvceFaceFld5D Real) (bv : BoundaryValues Real) :
  (forall m n, 0 <= m < nmb pp -> 0 <= n < nnghbr pp -> gid (nghbr pp m n) >= 0 ->
     (rank (nghbr pp m n) = my_rank g /\
      exists m' n', 0 <= m' < nmb pp /\ 0 <= n' < nnghbr pp /\ gid (nghbr pp m' n') >= 0 /\
        rank (nghbr pp m' n') = my_rank g /\
        dest (nghbr pp m' n') = n /\ gid (nghbr pp m' n') - gids pp = m) \/
     (rank (nghbr pp m n) <> my_rank g /\
      (MPI_PARALLEL_ENABLED g = false \/ MPI_Test g n m = true))) ->
  snd (RecvAndUnpackFluxCC g pp flx (fst (PackAndSendFluxCC g pp flx bv))) = complete /\
  snd (RecvAndUnpackFluxCC g pp flx
         (fst (PackAndSendFluxCC g pp flx (fst (InitRecv g pp nvar bv))))) = complete.
Proof.
  intros Htop. split; apply served_then_complete; exact Htop.
Qed.

(** [PackAndSendFluxCC] keeps the lengths of the receive status vectors. *)
Lemma PackAndSendFluxCC_room g pp (flx : DvceFaceFld5D Real) (bv : BoundaryValues Real) :
  stat_room pp bv -> stat_room pp (fst (PackAndSendFluxCC g pp flx bv)).
Proof.
  intros Hroom n Hn.
  destruct (PackAndSendFluxCC_send_inv g pp flx bv) as (_ & Hf & _).
  destruct (buf_stores_frame bv (pack_kernel_stores g pp flx bv)) as (_ & Fr & _).
  fold (pack_kernel g pp flx bv) in Fr.
  destruct (Hf n) as (_ & Hv & Hl). specialize (Fr n). unfold buffer_frame in Fr.
  inversion Fr as [[E1 E2 E3 E4 E5 E6 E7 E8]].
  rewrite Hv, Hl, E5, E6. apply Hroom. exact Hn.
Qed.

(** [InitRecv] marks every pair with a valid neighbor. *)
Lemma InitRecv_sets_waiting g pp nvar (bv : BoundaryValues Real) m n :
  stat_room pp bv -> 0 <= m < nmb_thispack pp -> 0 <= n < nnghbr pp ->
  gid (nghbr pp m n) >= 0 ->
  marked_waiting m n (fst (InitRecv g pp nvar bv)).
Proof.
  intros Hroom Hm Hn Hg. unfold InitRecv. simpl.
  assert (He : neighbor_exists pp m n = true) by (unfold neighbor_exists; apply Z.leb_le; lia).
  apply (for_range2_reach (stat_room pp) (marked_waiting m n) _ _ _ m n); try assumption.
  - intros. apply InitRecv_body_room. assumption.
  - intros. apply InitRecv_body_keeps_waiting. assumption.
  - intros. apply InitRecv_body_sets_waiting; assumption.
Qed.

(** X20 (InitRecv after the pack): the order of the calls matters.  If
    InitRecv runs after PackAndSendFluxCC (the status vectors having an
    entry per block), the flux receive flag of every block
    [m < nmb_thispack] and slot with a valid neighbor on this rank is
    [waiting] again, whatever the pack had set; for such a pair with
    [m < nmb] RecvAndUnpackFluxCC then returns [incomplete] and the flux
    arrays as they were. *)
Theorem InitRecv_after_pack_blocks (g : Globals) (pp : MeshBlockPack) (nvar : Z)
    (flx : DvceFaceFld5D Real) (bv : BoundaryValues Real) (m n : Z) :
  stat_room pp bv ->
  0 <= m < nmb_thispack pp -> m < nmb pp -> 0 <= n < nnghbr pp ->
  gid (nghbr pp m n) >= 0 -> rank (nghbr pp m n) = my_rank g ->
  let late := fst (InitRecv g pp nvar (fst (PackAndSendFluxCC g pp flx bv))) in
  vec_get (flx_stat (recv_buf late n)) m = Some waiting /\
  snd (RecvAndUnpackFluxCC g pp flx late) = incomplete /\
  snd (fst (RecvAndUnpackFluxCC g pp flx late)) = flx.
Proof.
  intros Hroom Hm Hm' Hn Hg Hr late.
  assert (Hw : marked_waiting m n late).
  { apply InitRecv_sets_waiting; try assumption. apply PackAndSendFluxCC_room. exact Hroom. }
  destruct Hw as [_ Hw]. split; [exact Hw|].
  assert (Hb : snd (check_received g pp (probe g late)) = true).
  { apply (check_received_outstanding g pp (probe g late) m n); [lia | exact Hn |].
    apply (proj2 (probe_outstanding g pp late m n)). split; [exact Hg|]. left. auto. }
  unfold RecvAndUnpackFluxCC. destruct (check_received g pp (probe g late)) as [t b].
  simpl in Hb. subst b. auto.
Qed.

(** X22 (flux correction by one exchange): let block [m] and slot [n] be
    a packing pair (flux-relevant neighbor at a coarser level) whose
    neighbor is on this rank, let the destination (slot [nn = nghbr.dest],
    block index [mm] = gid minus [mb_gid(0)]) be an unpacking pair
    (flux-relevant neighbor at a finer level), let the send window of slot
    [n] and the receive window of slot [nn] have the same extents, and let
    every pair be served.  Then after InitRecv, PackAndSendFluxCC and
    RecvAndUnpackFluxCC, in this order, the last call returns [complete]
    and the flux of block [mm], in the face array of slot [nn], at the cell
    of the receive window that corresponds to a cell of the send window, is
    the restricted flux of block [m] at that cell of the fluxes passed in,
    when the pair is the only sender to its destination and the slot the
    only unpacker of the cell. *)
Theorem one_exchange_corrects_flux (g : Globals) (pp : MeshBlockPack) (nvar : Z)
    (flx : DvceFaceFld5D Real) (bv : BoundaryValues Real) (m n v a b c : Z) :
  let nn := dest (nghbr pp m n) in
  let mm := gid (nghbr pp m n) - mb_gid pp 0 in
  let ws := flux0 (send_buf bv n) in
  let wr := flux0 (recv_buf bv nn) in
  let posted := fst (InitRecv g pp nvar bv) in
  let r := RecvAndUnpackFluxCC g pp flx (fst (PackAndSendFluxCC g pp flx posted)) in
  all_pairs_served g pp ->
  0 <= m < nmb pp -> 0 <= n < nnghbr pp -> 0 <= v < x1f_extent1 flx ->
  0 <= mm < nmb pp -> 0 <= nn < nnghbr pp ->
  ccflx (nghbr pp m n) = true -> lev (nghbr pp m n) < mb_lev pp m ->
  rank (nghbr pp m n) = my_rank g ->
  ccflx (nghbr pp mm nn) = true -> lev (nghbr pp mm nn) > mb_lev pp mm ->
  bie ws - bis ws = bie wr - bis wr ->
  bje ws - bjs ws = bje wr - bjs wr ->
  bke ws - bks ws = bke wr - bks wr ->
  0 <= a <= bie ws - bis ws -> 0 <= b <= bje ws - bjs ws -> 0 <= c <= bke ws - bks ws ->
  sole_sender g pp m n mm nn ->
  sole_unpacker pp bv mm nn (bks wr + c) (bjs wr + b) (bis wr + a) ->
  snd r = complete /\
  face_view (snd (fst r)) (face_of_slot nn) mm v (bks wr + c) (bjs wr + b) (bis wr + a)
  = restricted_flux (pmesh pp) flx n m v (bks ws + c) (bjs ws + b) (bis ws + a).
Proof.
  intros nn mm ws wr posted r Htop Hm Hn Hv Hmm Hnn Hcc Hl Hr Hcc' Hl' Ei Ej Ek Ha Hb Hc
    Hsole Hunp.
  assert (Hst : snd r = complete) by (apply served_then_complete; exact Htop).
  split; [exact Hst|].
  destruct (InitRecv_keeps g pp nvar bv) as (Ks & Kr & _). fold posted in Ks, Kr.
  assert (Ews : flux0 (send_buf posted n) = ws) by (rewrite Ks; reflexivity).
  assert (Ewr : forall n', flux0 (recv_buf posted n') = flux0 (recv_buf bv n')).
  { intros n'. destruct (Kr n') as (K1 & _). unfold buffer_static in K1.
    inversion K1. reflexivity. }
  pose proof (pack_unpack_cell g pp flx posted m n v a b c) as H.
  cbv zeta in H. fold nn mm in H. rewrite Ews, (Ewr nn) in H. fold wr in H.
  apply H; try assumption.
  - apply pack_guard_spec. auto.
  - apply unpack_guard_spec. auto.
  - intros n2 Hn2 Hg2 Hf2 Hc2. rewrite Ewr in Hc2. apply (Hunp n2); assumption.
Qed.

End Exchange.

(** ** The order of the teams *)

Section Order.
Context {Real : Type} {RO : RealOps Real}.

(** Assignments that agree wherever two of them write the same element
    give that element the same value in any order. *)
Lemma buf_stores_any_order (bv : BoundaryValues Real) (l l' : list (BufStore Real))
    side slot m v off :
  l' ≡ₚ l ->
  (forall s1 s2, s1 ∈ l -> s2 ∈ l -> buf_target s1 side slot m v off ->
     buf_target s2 side slot m v off -> bs_val s1 = bs_val s2) ->
  buf_view (foldl apply_buf_store bv l') side slot m v off
  = buf_view (foldl apply_buf_store bv l) side slot m v off.
Proof.
  intros Hp Hagree.
  destruct (decide (Exists (fun s => buf_target s side slot m v off) l)) as [He|Hn].
  - apply Exists_exists in He as (s & Hin & Ht).
    rewrite (buf_stores_written bv l side slot m v off (bs_val s)).
    + apply buf_stores_written.
      * exists s. split; [rewrite Hp; exact Hin | exact Ht].
      * intros s' Hin' Ht'. rewrite Hp in Hin'. apply Hagree; assumption.
    + exists s. auto.
    + intros s' Hin' Ht'. apply Hagree; assumption.
  - rewrite !buf_stores_unchanged; [reflexivity| |].
    + intros s Hin Ht. apply Hn. apply Exists_exists. eauto.
    + intros s Hin Ht. rewrite Hp in Hin. apply Hn. apply Exists_exists. eauto.
Qed.

(** The same for the assignments to the flux arrays. *)
Lemma flux_stores_any_order (flx : DvceFaceFld5D Real) (l l' : list (FluxStore Real))
    f m v k j i :
  l' ≡ₚ l ->
  (forall s1 s2, s1 ∈ l -> s2 ∈ l -> flux_target s1 f m v k j i ->
     flux_target s2 f m v k j i -> fs_val s1 = fs_val s2) ->
  face_view (foldl apply_flux_store flx l') f m v k j i
  = face_view (foldl apply_flux_store flx l) f m v k j i.
Proof.
  intros Hp Hagree.
  destruct (decide (Exists (fun s => flux_target s f m v k j i) l)) as [He|Hn].
  - apply Exists_exists in He as (s & Hin & Ht).
    rewrite (flux_stores_written flx l f m v k j i (fs_val s)).
    + apply flux_stores_written.
      * exists s. split; [rewrite Hp; exact Hin | exact Ht].
      * intros s' Hin' Ht'. rewrite Hp in Hin'. apply Hagree; assumption.
    + exists s. auto.
    + intros s' Hin' Ht'. apply Hagree; assumption.
  - rewrite !flux_stores_unchanged; [reflexivity| |].
    + intros s Hin Ht. apply Hn. apply Exists_exists. eauto.
    + intros s Hin Ht. rewrite Hp in Hin. apply Hn. apply Exists_exists. eauto.
Qed.

(** X11 (pack kernel, order of the teams): the kernel leaves the order of
    its teams open.  Whatever the order in which the assignments of the pack
    kernel are carried out, every element of every send buffer ends with
    the same value: no two teams write the same element of a send buffer
    with different values.  The same holds for the elements of the receive
    buffer of slot [nn], block index [mm], when at most one packing pair of
    this rank sends to it. *)
Theorem pack_kernel_order_independent (g : Globals) (pp : MeshBlockPack)
    (flx : DvceFaceFld5D Real) (bv : BoundaryValues Real) (l' : list (BufStore Real)) :
  0 <= nmb pp -> 0 <= nnghbr pp -> 0 <= x1f_extent1 flx ->
  l' ≡ₚ pack_kernel_stores g pp flx bv ->
  (forall n m v off,
     buf_view (foldl apply_buf_store bv l') ToSend n m v off
     = buf_view (pack_kernel g pp flx bv) ToSend n m v off) /\
  (forall nn mm,
     (forall m1 n1 m2 n2,
        0 <= m1 < nmb pp -> 0 <= n1 < nnghbr pp -> 0 <= m2 < nmb pp -> 0 <= n2 < nnghbr pp ->
        pack_guard pp m1 n1 = true -> pack_guard pp m2 n2 = true ->
        rank (nghbr pp m1 n1) = my_rank g -> rank (nghbr pp m2 n2) = my_rank g ->
        dest (nghbr pp m1 n1) = nn -> dest (nghbr pp m2 n2) = nn ->
        gid (nghbr pp m1 n1) - mb_gid pp 0 = mm -> gid (nghbr pp m2 n2) - mb_gid pp 0 = mm ->
        (m1, n1) = (m2, n2)) ->
     forall v off,
       buf_view (foldl apply_buf_store bv l') ToRecv nn mm v off
       = buf_view (pack_kernel g pp flx bv) ToRecv nn mm v off).
Proof.
  intros Hb Hs Hv Hp.
  assert (Hcell : forall n k1 j1 i1 k2 j2 i2 m v,
            (k1, j1, i1) ∈ window_cells (flux0 (send_buf bv n)) ->
            (k2, j2, i2) ∈ window_cells (flux0 (send_buf bv n)) ->
            buf_offset (flux0 (send_buf bv n)) i1 j1 k1
            = buf_offset (flux0 (send_buf bv n)) i2 j2 k2 ->
            restricted_flux (pmesh pp) flx n m v k1 j1 i1
            = restricted_flux (pmesh pp) flx n m v k2 j2 i2).
  { intros n k1 j1 i1 k2 j2 i2 m v H1 H2 Ho.
    assert (E : (k1, j1, i1) = (k2, j2, i2))
      by (apply (window_cells_offset_inj _ _ _ _ _ _ _ H1 H2 Ho)).
    inversion E. reflexivity. }
  split.
  - intros n m v off. unfold pack_kernel. apply buf_stores_any_order; [exact Hp|].
    intros s1 s2 H1 H2 T1 T2. unfold pack_kernel_stores in H1, H2.
    apply kernel_elem in H1 as (m1 & n1 & v1 & _ & _ & _ & H1); try assumption.
    apply kernel_elem in H2 as (m2 & n2 & v2 & _ & _ & _ & H2); try assumption.
    apply pack_team_elem in H1 as (_ & k1 & j1 & i1 & C1 & ->).
    apply pack_team_elem in H2 as (_ & k2 & j2 & i2 & C2 & ->).
    destruct (rank (nghbr pp m1 n1) =? my_rank g);
      destruct T1 as (S1 & L1 & M1 & V1 & O1); simpl in *; [discriminate|].
    destruct (rank (nghbr pp m2 n2) =? my_rank g);
      destruct T2 as (S2 & L2 & M2 & V2 & O2); simpl in *; [discriminate|].
    subst n1 m1 v1 n2 m2 v2. apply (Hcell n); try assumption. congruence.
  - intros nn mm Hone v off. unfold pack_kernel. apply buf_stores_any_order; [exact Hp|].
    intros s1 s2 H1 H2 T1 T2. unfold pack_kernel_stores in H1, H2.
    apply kernel_elem in H1 as (m1 & n1 & v1 & Hm1 & Hn1 & _ & H1); try assumption.
    apply kernel_elem in H2 as (m2 & n2 & v2 & Hm2 & Hn2 & _ & H2); try assumption.
    apply pack_team_elem in H1 as (G1 & k1 & j1 & i1 & C1 & ->).
    apply pack_team_elem in H2 as (G2 & k2 & j2 & i2 & C2 & ->).
    destruct (Z.eqb_spec (rank (nghbr pp m1 n1)) (my_rank g)) as [R1|R1];
      destruct T1 as (S1 & L1 & M1 & V1 & O1); simpl in *; [|discriminate].
    destruct (Z.eqb_spec (rank (nghbr pp m2 n2)) (my_rank g)) as [R2|R2];
      destruct T2 as (S2 & L2 & M2 & V2 & O2); simpl in *; [|discriminate].
    assert (E : (m1, n1) = (m2, n2)) by (apply Hone; assumption).
    inversion E. subst m2 n2 v1 v2. apply (Hcell n1); try assumption. congruence.
Qed.

(** X12 (unpack kernel, order of the teams): whatever the order in which
    the assignments of the unpack kernel are carried out, the element
    (m, v, k, j, i) of a face array ends with the same value, when no two
    unpacking slots of block [m] that write that face array both visit the
    cell (k, j, i). *)
Theorem unpack_kernel_order_independent (pp : MeshBlockPack)
    (flx : DvceFaceFld5D Real) (bv : BoundaryValues Real) (l' : list (FluxStore Real))
    (f : Face) (m v k j i : Z) :
  0 <= nmb pp -> 0 <= nnghbr pp -> 0 <= x1f_extent1 flx ->
  l' ≡ₚ unpack_kernel_stores pp (x1f_extent1 flx) bv ->
  (forall n1 n2, 0 <= n1 < nnghbr pp -> 0 <= n2 < nnghbr pp ->
     unpack_guard pp m n1 = true -> unpack_guard pp m n2 = true ->
     face_of_slot n1 = f -> face_of_slot n2 = f ->
     (k, j, i) ∈ window_cells (flux0 (recv_buf bv n1)) ->
     (k, j, i) ∈ window_cells (flux0 (recv_buf bv n2)) -> n1 = n2) ->
  face_view (foldl apply_flux_store flx l') f m v k j i
  = face_view (unpack_kernel pp flx bv) f m v k j i.
Proof.
  intros Hb Hs Hv Hp Hone. unfold unpack_kernel. apply flux_stores_any_order; [exact Hp|].
  intros s1 s2 H1 H2 T1 T2. unfold unpack_kernel_stores in H1, H2.
  apply kernel_elem in H1 as (m1 & n1 & v1 & _ & Hn1 & _ & H1); try assumption.
  apply kernel_elem in H2 as (m2 & n2 & v2 & _ & Hn2 & _ & H2); try assumption.
  apply unpack_team_elem in H1 as (G1 & k1 & j1 & i1 & C1 & ->).
  apply unpack_team_elem in H2 as (G2 & k2 & j2 & i2 & C2 & ->).
  destruct T1 as (F1 & M1 & V1 & K1 & J1 & I1). destruct T2 as (F2 & M2 & V2 & K2 & J2 & I2).
  simpl in *. subst m1 v1 k1 j1 i1 m2 v2 k2 j2 i2.
  assert (E : n1 = n2) by (apply Hone; assumption). subst n2. reflexivity.
Qed.

(** ** The constructor and InitRecv *)

(** The constructor sizes the status vectors for [InitRecv]. *)
Lemma ctor_room g pp ix (d : Z -> Z -> Z -> Real) :
  stat_room pp (BoundaryValues_ctor g pp ix d).
Proof.
  intros n Hn. destruct (ctor_all_undef g pp ix d n Hn) as [_ [Hv Hf]].
  rewrite Hv, Hf, length_replicate. lia.
Qed.

(** X2 (constructor, then InitRecv): the constructor sizes the status
    vectors for the loops of InitRecv, so that none of its indexed stores
    falls outside a vector.  When InitRecv is called on the object the
    constructor made, for every block [m < nmb_thispack] and slot
    [n < nnghbr] both receive flags are [waiting] if the slot has a valid
    neighbor (gid >= 0) and still [undef] if it has none, and both send
    flags are still [undef]. *)
Theorem ctor_then_InitRecv (g : Globals) (pp : MeshBlockPack) (ix : BufferIndcs)
    (d : Z -> Z -> Z -> Real) (nvar : Z) :
  let bv := fst (InitRecv g pp nvar (BoundaryValues_ctor g pp ix d)) in
  forall m n, 0 <= m < nmb_thispack pp -> 0 <= n < nnghbr pp ->
    (gid (nghbr pp m n) >= 0 ->
     vec_get (var_stat (recv_buf bv n)) m = Some waiting /\
     vec_get (flx_stat (recv_buf bv n)) m = Some waiting) /\
    (gid (nghbr pp m n) < 0 ->
     vec_get (var_stat (recv_buf bv n)) m = Some undef /\
     vec_get (flx_stat (recv_buf bv n)) m = Some undef) /\
    vec_get (var_stat (send_buf bv n)) m = Some undef /\
    vec_get (flx_stat (send_buf bv n)) m = Some undef.
Proof.
  intros bv m n Hm Hn.
  destruct (ctor_all_undef g pp ix d n Hn) as [[Hsv Hsf] [Hrv Hrf]].
  destruct (InitRecv_keeps g pp nvar (BoundaryValues_ctor g pp ix d)) as (Hs & _ & Hk).
  fold bv in Hs, Hk.
  split; [|split].
  - intros Hg. apply InitRecv_sets_waiting; try assumption. apply ctor_room.
  - intros Hg. destruct (Hk m n) as [Kv Kf]. unfold kept_or_set, valid_pair in Kv, Kf.
    destruct Kv as [Kv|[_ Kv]]; [|lia]. destruct Kf as [Kf|[_ Kf]]; [|lia].
    rewrite Kv, Kf, Hrv, Hrf. rewrite !vec_get_replicate by lia. auto.
  - rewrite Hs, Hsv, Hsf. rewrite !vec_get_replicate by lia. auto.
Qed.

End Order.

(** ** What no sequence of calls does *)

Section Sequences.
Context {Real : Type} {RO : RealOps Real}.

(** One call keeps what every call keeps. *)
Lemma after_call_inv g pp (bv t : BoundaryValues Real) (c : Call Real) :
  calls_inv bv t -> calls_inv bv (after_call g pp t c).
Proof.
  intros [Hf Hk]. destruct c as [nvar| | |flx|flx]; cbn [after_call].
  - destruct (InitRecv_keeps g pp nvar t) as (Hs & Hr & Hw). split.
    + intros n. destruct (Hf n) as (F1 & F2 & F3 & F4 & F5 & F6).
      destruct (Hr n) as (R1 & R2 & R3). rewrite Hs, R2, R3.
      unfold buffer_static in R1. unfold buffer_shape in *. inversion R1.
      repeat split; congruence.
    + intros n m. destruct (Hk n m) as [Kv Kf]. destruct (Hw m n) as [Wv Wf].
      unfold kept_or_set in Wv, Wf. split.
      * destruct Wv as [->|[-> _]]; [exact Kv | right; reflexivity].
      * destruct Wf as [->|[-> _]]; [exact Kf | right; left; reflexivity].
  - destruct (Clear_loop_effect g pp Wait_recv t) as (Hs & Hr & _).
    unfold ClearRecv. cbn [fst]. unfold calls_inv. rewrite Hs, Hr. split; assumption.
  - destruct (Clear_loop_effect g pp Wait_send t) as (Hs & Hr & _).
    unfold ClearSend. cbn [fst]. unfold calls_inv. rewrite Hs, Hr. split; assumption.
  - destruct (PackAndSendFluxCC_send_inv g pp flx t) as (Hs & Hr & Hw).
    destruct (buf_stores_frame t (pack_kernel_stores g pp flx t)) as (Fs & Fr & _).
    fold (pack_kernel g pp flx t) in Fs, Fr. split.
    + intros n. destruct (Hf n) as (F1 & F2 & F3 & F4 & F5 & F6).
      destruct (Hr n) as (R1 & R2 & R3). specialize (Fs n). specialize (Fr n).
      specialize (Hs n). rewrite R2, R3.
      unfold buffer_content in Hs. unfold buffer_static in R1. unfold buffer_frame in Fs, Fr.
      unfold buffer_shape in *. inversion Hs. inversion R1. inversion Fs. inversion Fr.
      repeat split; congruence.
    + intros n m. destruct (Hk n m) as [Kv Kf]. destruct (Hr n) as (_ & R2 & _).
      specialize (Fr n). unfold buffer_frame in Fr. inversion Fr as [[E1 E2 E3 E4 E5 E6 E7 E8]].
      rewrite R2, E5. split; [exact Kv|].
      specialize (Hw n m). unfold kept_or_set in Hw. rewrite E6 in Hw.
      destruct Hw as [->|[-> _]]; [exact Kf | right; right; reflexivity].
  - rewrite (proj1 (RecvAndUnpackFluxCC_object g pp flx t)).
    destruct (check_received_inv g pp (probe g t)) as (Hs & Hr & Hw).
    destruct (probe_buffers g t) as [Ps Pr]. rewrite Ps in Hs. rewrite Pr in Hr, Hw. split.
    + intros n. destruct (Hf n) as (F1 & F2 & F3 & F4 & F5 & F6).
      destruct (Hr n) as (R1 & R2 & R3). rewrite Hs, R2, R3.
      unfold buffer_static in R1. unfold buffer_shape in *. inversion R1.
      repeat split; congruence.
    + intros n m. destruct (Hk n m) as [Kv Kf]. destruct (Hr n) as (_ & R2 & _).
      rewrite R2. split; [exact Kv|].
      specialize (Hw n m). unfold kept_or_set in Hw.
      destruct Hw as [->|[-> _]]; [exact Kf | right; right; reflexivity].
Qed.

(** X21 (what no sequence of calls does): after any sequence of calls of
    InitRecv, ClearRecv, ClearSend, PackAndSendFluxCC and
    RecvAndUnpackFluxCC, in any order and with any arguments, every send
    status flag of either kind is as it was (only the constructor writes
    them), every index window of either buffer is as it was, both receive
    status vectors have the length they had, every variable receive flag is
    as it was or is [waiting], and every flux receive flag is as it was or
    is [waiting] or [received]: no call writes [undef], and none marks a
    variable receive flag [received].  Nothing is said of the request
    handles, which the calls of the library write. *)
Theorem calls_keep_status_discipline (g : Globals) (pp : MeshBlockPack)
    (bv : BoundaryValues Real) (cs : list (Call Real)) :
  let bv' := after_calls g pp bv cs in
  (forall n, var_stat (send_buf bv' n) = var_stat (send_buf bv n) /\
             flx_stat (send_buf bv' n) = flx_stat (send_buf bv n) /\
             buffer_shape (send_buf bv' n) = buffer_shape (send_buf bv n) /\
             buffer_shape (recv_buf bv' n) = buffer_shape (recv_buf bv n) /\
             length (var_stat (recv_buf bv' n)) = length (var_stat (recv_buf bv n)) /\
             length (flx_stat (recv_buf bv' n)) = length (flx_stat (recv_buf bv n))) /\
  (forall n m,
     (vec_get (var_stat (recv_buf bv' n)) m = vec_get (var_stat (recv_buf bv n)) m \/
      vec_get (var_stat (recv_buf bv' n)) m = Some waiting) /\
     (vec_get (flx_stat (recv_buf bv' n)) m = vec_get (flx_stat (recv_buf bv n)) m \/
      vec_get (flx_stat (recv_buf bv' n)) m = Some waiting \/
      vec_get (flx_stat (recv_buf bv' n)) m = Some received)).
Proof.
  intros bv'. subst bv'. unfold after_calls.
  assert (H : calls_inv bv (foldl (after_call g pp) bv cs)).
  { induction cs as [|c cs IH] using rev_ind.
    - split; [intros n; auto 10 | intros n m; auto].
    - rewrite foldl_app. simpl. apply after_call_inv. exact IH. }
  destruct H as [Hf Hk]. split; [|exact Hk].
  intros n. destruct (Hf n) as (F1 & F2 & F3 & F4 & F5 & F6). auto 10.
Qed.

End Sequences.

(** ** The further properties at work on the pack of two blocks *)

(** In the pack with a coarser neighbor on rank 1, one send of 4 values
    with tag 9 is posted for block 0, slot 0, and the restricted flux is in
    the send buffer of the pair. *)
Lemma PackAndSendFluxCC_cross_rank_witness :
  (0 <= nmb ex_pack_remote /\ 0 <= nnghbr ex_pack_remote /\ 0 <= x1f_extent1 ex_flux /\
   gid (nghbr ex_pack_remote 0 0) >= 0 /\
   rank (nghbr ex_pack_remote 0 0) <> my_rank (ex_globals true)) /\
  (exists sent,
     mpi_log (fst (PackAndSendFluxCC (ex_globals true) ex_pack_remote ex_flux
                     (ex_posted ex_pack_remote)))
     = mpi_log (ex_posted ex_pack_remote) ++ sent /\
     filter (is_Isend_for 0 0) sent = [Isend 0 0 4 1 9]) /\
  buf_view (fst (PackAndSendFluxCC (ex_globals true) ex_pack_remote ex_flux
                   (ex_posted ex_pack_remote))) ToSend 0 0 0 3
  = restricted_flux cube_mesh ex_flux 0 0 0 1 1 0.
Proof.
  assert (H : 0 <= nmb ex_pack_remote /\ 0 <= nnghbr ex_pack_remote /\
              0 <= x1f_extent1 ex_flux /\ gid (nghbr ex_pack_remote 0 0) >= 0 /\
              rank (nghbr ex_pack_remote 0 0) <> my_rank (ex_globals true))
    by (simpl; repeat split; lia).
  split; [exact H|]. destruct H as (Hb & Hs & Hv & Hg & Hr).
  destruct (PackAndSendFluxCC_cross_rank (ex_globals true) ex_pack_remote ex_flux
              (ex_posted ex_pack_remote) 0 0 Hb Hs Hv ltac:(simpl; lia) ltac:(simpl; lia)
              Hg Hr) as ((sent & Hl & Hf) & Hd & _).
  split.
  - exists sent. split; [exact Hl|]. rewrite Hf. vm_compute. reflexivity.
  - assert (Ew : flux0 (send_buf (ex_posted ex_pack_remote) 0) = ex_window)
      by (vm_compute; reflexivity).
    rewrite Ew in Hd.
    apply (Hd eq_refl ltac:(simpl; lia) 0 1 1 0); [simpl; lia|].
    unfold in_window. simpl. lia.
Defined.

(** After InitRecv the same-rank pair of block 0, slot 0 is outstanding and
    the call returns [incomplete]. *)
Lemma RecvAndUnpackFluxCC_incomplete_iff_witness :
  snd (RecvAndUnpackFluxCC (ex_globals true) ex_pack ex_flux (ex_posted ex_pack)) = incomplete.
Proof.
  apply (RecvAndUnpackFluxCC_incomplete_iff (ex_globals true) ex_pack ex_flux
           (ex_posted ex_pack)).
  exists 0, 0. split; [simpl; lia|]. split; [simpl; lia|].
  split; [simpl; lia|]. left. split; [reflexivity | vm_compute; reflexivity].
Defined.


(** Without the message-passing library nothing is logged for the pack
    with a neighbor on rank 1, and the call does not wait for that
    neighbor. *)
Lemma serial_build_makes_no_library_call_witness :
  MPI_PARALLEL_ENABLED ex_globals_serial = false /\
  mpi_log (fst (InitRecv ex_globals_serial ex_pack_remote 1 (ex_new ex_pack_remote))) = [] /\
  mpi_log (fst (PackAndSendFluxCC ex_globals_serial ex_pack_remote ex_flux
                  (ex_new ex_pack_remote))) = [] /\
  fst (fst (RecvAndUnpackFluxCC ex_globals_serial ex_pack_remote ex_flux
              (ex_new ex_pack_remote))) = ex_new ex_pack_remote.
Proof.
  split; [reflexivity|].
  destruct (serial_build_makes_no_library_call ex_globals_serial ex_pack_remote 1 ex_flux
              (ex_new ex_pack_remote) eq_refl) as (H1 & _ & _ & H4 & H5 & _).
  assert (El : mpi_log (ex_new ex_pack_remote) = []) by (vm_compute; reflexivity).
  rewrite El in H1, H4. auto.
Defined.

(** The object made for the pack of two blocks: two unset requests per
    vector in slot 0, nothing in slot 56, no flag for block 2. *)
Lemma ctor_buffers_witness :
  var_req (send_buf (ex_new ex_pack) 0) = [request_unset; request_unset] /\
  recv_buf (ex_new ex_pack) 56 = new_buffer ex_window (fun _ _ _ => 7%Q) /\
  vec_get (flx_stat (recv_buf (ex_new ex_pack) 0)) 2 = None.
Proof.
  destruct (ctor_buffers (ex_globals true) ex_pack ex_window (fun _ _ _ => 7%Q))
    as (_ & _ & Hreq & Hout & Hnone).
  split; [|split].
  - destruct (Hreq 0) as (H & _); [simpl; lia|]. exact H.
  - destruct (Hout 56) as (_ & H); [simpl; lia|]. exact H.
  - destruct (Hnone 0 2) as (_ & _ & _ & H); [simpl; lia|]. exact H.
Defined.


(** The store of block 0, slot 0 for cell (1,1,0) goes to offset 3 of the
    four of the receive buffer of block 1, slot 4. *)
Lemma kernel_stores_in_bounds_witness :
  (0 <= nmb ex_pack /\ 0 <= nnghbr ex_pack /\ 0 <= x1f_extent1 ex_flux) /\
  mkBufStore ToRecv 4 1 0 3 (restricted_flux cube_mesh ex_flux 0 0 0 1 1 0)
    ∈ pack_kernel_stores (ex_globals true) ex_pack ex_flux (ex_posted ex_pack) /\
  exists m n, 0 <= 3 < window_size (flux0 (send_buf (ex_posted ex_pack) n)) /\
    (ToRecv, 4, 1) = (if rank (nghbr ex_pack m n) =? my_rank (ex_globals true)
                      then (ToRecv, dest (nghbr ex_pack m n),
                            gid (nghbr ex_pack m n) - mb_gid ex_pack 0)
                      else (ToSend, n, m)).
Proof.
  assert (H : 0 <= nmb ex_pack /\ 0 <= nnghbr ex_pack /\ 0 <= x1f_extent1 ex_flux)
    by (simpl; lia).
  split; [exact H|]. destruct H as (Hb & Hs & Hv).
  assert (Hin : mkBufStore ToRecv 4 1 0 3 (restricted_flux cube_mesh ex_flux 0 0 0 1 1 0)
                  ∈ pack_kernel_stores (ex_globals true) ex_pack ex_flux (ex_posted ex_pack)).
  { apply list_elem_of_In. vm_compute. do 3 right. left. reflexivity. }
  split; [exact Hin|].
  destruct (kernel_stores_in_bounds (ex_globals true) ex_pack ex_flux (ex_posted ex_pack)
              Hb Hs Hv) as [Hp _].
  destruct (Hp _ Hin) as (m & n & _ & _ & _ & _ & _ & Ho & Ht).
  exists m, n. split; [exact Ho | exact Ht].
Defined.

(** With no variable the kernels do nothing. *)
Lemma empty_league_stores_nothing_witness :
  nmb ex_pack * nnghbr ex_pack * x1f_extent1 ex_flux_novar = 0 /\
  pack_kernel (ex_globals true) ex_pack ex_flux_novar (ex_posted ex_pack) = ex_posted ex_pack /\
  snd (fst (RecvAndUnpackFluxCC (ex_globals true) ex_pack ex_flux_novar (ex_new ex_pack)))
  = ex_flux_novar.
Proof.
  assert (H : nmb ex_pack * nnghbr ex_pack * x1f_extent1 ex_flux_novar = 0) by reflexivity.
  split; [exact H|]. split.
  - apply (empty_league_stores_nothing (ex_globals true) ex_pack ex_flux_novar
             (ex_posted ex_pack) H).
  - apply (empty_league_stores_nothing (ex_globals true) ex_pack ex_flux_novar
             (ex_new ex_pack) H).
Defined.


(** Every pair of the two-block pack has its sender on this rank. *)
Lemma ex_pack_senders m n :
  0 <= m < nmb ex_pack -> 0 <= n < nnghbr ex_pack -> gid (nghbr ex_pack m n) >= 0 ->
  (rank (nghbr ex_pack m n) = my_rank (ex_globals true) /\
   exists m' n', 0 <= m' < nmb ex_pack /\ 0 <= n' < nnghbr ex_pack /\
     gid (nghbr ex_pack m' n') >= 0 /\
     rank (nghbr ex_pack m' n') = my_rank (ex_globals true) /\
     dest (nghbr ex_pack m' n') = n /\ gid (nghbr ex_pack m' n') - gids ex_pack = m) \/
  (rank (nghbr ex_pack m n) <> my_rank (ex_globals true) /\
   (MPI_PARALLEL_ENABLED (ex_globals true) = false \/ MPI_Test (ex_globals true) n m = true)).
Proof.
  intros _ _. change (nghbr ex_pack m n) with (ex_nghbr m n). unfold ex_nghbr.
  destruct ((m =? 0) && (n =? 0)) eqn:E1.
  { apply andb_true_iff in E1 as [Em En]. apply Z.eqb_eq in Em, En. subst m n.
    intros _. left. split; [reflexivity|]. exists 1, 4. simpl. repeat split; lia. }
  destruct ((m =? 1) && (n =? 4)) eqn:E2.
  { apply andb_true_iff in E2 as [Em En]. apply Z.eqb_eq in Em, En. subst m n.
    intros _. left. split; [reflexivity|]. exists 0, 0. simpl. repeat split; lia. }
  simpl. lia.
Defined.

(** On the two-block pack the exchange completes. *)
Lemma exchange_completes_witness :
  snd (RecvAndUnpackFluxCC (ex_globals true) ex_pack ex_flux
         (fst (PackAndSendFluxCC (ex_globals true) ex_pack ex_flux (ex_posted ex_pack))))
  = complete.
Proof.
  apply (exchange_completes (ex_globals true) ex_pack 1 ex_flux (ex_new ex_pack)
           ex_pack_senders).
Defined.

(** On the two-block pack one exchange goes through and brings the value
    that block 0 packs for coarse cell (1,1,0) into the x1 flux of block 1
    at that cell. *)
Lemma one_exchange_corrects_flux_witness :
  (all_pairs_served (ex_globals true) ex_pack /\
   ccflx (nghbr ex_pack 0 0) = true /\ lev (nghbr ex_pack 0 0) < mb_lev ex_pack 0 /\
   rank (nghbr ex_pack 0 0) = my_rank (ex_globals true) /\
   ccflx (nghbr ex_pack 1 4) = true /\ lev (nghbr ex_pack 1 4) > mb_lev ex_pack 1) /\
  snd (RecvAndUnpackFluxCC (ex_globals true) ex_pack ex_flux
         (fst (PackAndSendFluxCC (ex_globals true) ex_pack ex_flux
                 (fst (InitRecv (ex_globals true) ex_pack 1 (ex_new ex_pack))))))
    = complete /\
  x1f (snd (fst (RecvAndUnpackFluxCC (ex_globals true) ex_pack ex_flux
         (fst (PackAndSendFluxCC (ex_globals true) ex_pack ex_flux
                 (fst (InitRecv (ex_globals true) ex_pack 1 (ex_new ex_pack)))))))) 1 0 1 1 0
  = restricted_flux cube_mesh ex_flux 0 0 0 1 1 0.
Proof.
  split; [split; [exact ex_pack_senders | simpl; repeat split; lia]|].
  assert (Es : flux0 (send_buf (ex_new ex_pack) 0) = ex_window)
    by (vm_compute; reflexivity).
  assert (Er : flux0 (recv_buf (ex_new ex_pack) 4) = ex_window)
    by (vm_compute; reflexivity).
  pose proof (one_exchange_corrects_flux (ex_globals true) ex_pack 1 ex_flux
                (ex_new ex_pack) 0 0 0 0 1 1) as H.
  cbv zeta in H. simpl dest in H. simpl gid in H. simpl mb_gid in H.
  change (1 - 0) with 1 in H. rewrite Es, Er in H.
  apply H;
    first [ exact ex_pack_senders | exact ex_sole_sender | reflexivity | simpl; lia
          | intros n2 Hn2 Hg2 _ _; apply ex_unpack_guard in Hg2; congruence ].
Defined.

(** If InitRecv runs after the pack, the pair of block 0, slot 0 is
    [waiting] again and the call returns [incomplete]. *)
Lemma InitRecv_after_pack_blocks_witness :
  (0 <= 0 < nmb_thispack ex_pack /\ 0 < nmb ex_pack /\ 0 <= 0 < nnghbr ex_pack /\
   gid (nghbr ex_pack 0 0) >= 0 /\ rank (nghbr ex_pack 0 0) = my_rank (ex_globals true)) /\
  snd (RecvAndUnpackFluxCC (ex_globals true) ex_pack ex_flux
         (fst (InitRecv (ex_globals true) ex_pack 1
                 (fst (PackAndSendFluxCC (ex_globals true) ex_pack ex_flux (ex_new ex_pack))))))
  = incomplete.
Proof.
  assert (H : 0 <= 0 < nmb_thispack ex_pack /\ 0 < nmb ex_pack /\ 0 <= 0 < nnghbr ex_pack /\
              gid (nghbr ex_pack 0 0) >= 0 /\
              rank (nghbr ex_pack 0 0) = my_rank (ex_globals true))
    by (simpl; repeat split; lia).
  split; [exact H|]. destruct H as (Hm & Hm' & Hn & Hg & Hr).
  apply (InitRecv_after_pack_blocks (ex_globals true) ex_pack 1 ex_flux (ex_new ex_pack) 0 0
           (ex_new_room ex_pack) Hm Hm' Hn Hg Hr).
Defined.

(** In the two-block pack, running the stores of the pack kernel in
    reverse order leaves the same receive buffer in slot 4. *)
Lemma pack_kernel_order_independent_witness :
  (0 <= nmb ex_pack /\ 0 <= nnghbr ex_pack /\ 0 <= x1f_extent1 ex_flux) /\
  buf_view (foldl apply_buf_store (ex_posted ex_pack)
              (reverse (pack_kernel_stores (ex_globals true) ex_pack ex_flux
                          (ex_posted ex_pack)))) ToRecv 4 1 0 3
  = buf_view (pack_kernel (ex_globals true) ex_pack ex_flux (ex_posted ex_pack)) ToRecv 4 1 0 3.
Proof.
  assert (H : 0 <= nmb ex_pack /\ 0 <= nnghbr ex_pack /\ 0 <= x1f_extent1 ex_flux)
    by (simpl; lia).
  split; [exact H|]. destruct H as (Hb & Hs & Hv).
  destruct (pack_kernel_order_independent (ex_globals true) ex_pack ex_flux (ex_posted ex_pack)
              (reverse (pack_kernel_stores (ex_globals true) ex_pack ex_flux
                          (ex_posted ex_pack))) Hb Hs Hv (reverse_Permutation _)) as [_ Hr].
  apply Hr. intros m1 n1 m2 n2 _ _ _ _ G1 G2 _ _ _ _ _ _.
  apply ex_pack_guard in G1, G2. congruence.
Defined.

(** In the two-block pack, running the stores of the unpack kernel in
    reverse order leaves the same flux at cell (1,1,0) of block 1. *)
Lemma unpack_kernel_order_independent_witness :
  (0 <= nmb ex_pack /\ 0 <= nnghbr ex_pack /\ 0 <= x1f_extent1 ex_flux) /\
  x1f (foldl apply_flux_store ex_flux
         (reverse (unpack_kernel_stores ex_pack (x1f_extent1 ex_flux) (ex_posted ex_pack))))
      1 0 1 1 0
  = x1f (unpack_kernel ex_pack ex_flux (ex_posted ex_pack)) 1 0 1 1 0.
Proof.
  assert (H : 0 <= nmb ex_pack /\ 0 <= nnghbr ex_pack /\ 0 <= x1f_extent1 ex_flux)
    by (simpl; lia).
  split; [exact H|]. destruct H as (Hb & Hs & Hv).
  apply (unpack_kernel_order_independent ex_pack ex_flux (ex_posted ex_pack)
           (reverse (unpack_kernel_stores ex_pack (x1f_extent1 ex_flux) (ex_posted ex_pack)))
           X1face 1 0 1 1 0 Hb Hs Hv (reverse_Permutation _)).
  intros n1 n2 _ _ G1 G2 _ _ _ _. apply ex_unpack_guard in G1, G2. congruence.
Defined.

(** After the constructor and InitRecv on the two-block pack, the pair of
    block 0, slot 0 is [waiting] and slot 1, which has no neighbor, is
    [undef]. *)
Lemma ctor_then_InitRecv_witness :
  vec_get (flx_stat (recv_buf (ex_posted ex_pack) 0)) 0 = Some waiting /\
  vec_get (flx_stat (recv_buf (ex_posted ex_pack) 1)) 0 = Some undef.
Proof.
  split.
  - destruct (ctor_then_InitRecv (ex_globals true) ex_pack ex_window (fun _ _ _ => 7%Q) 1 0 0)
      as (H & _); [simpl; lia | simpl; lia |].
    apply H. simpl. lia.
  - destruct (ctor_then_InitRecv (ex_globals true) ex_pack ex_window (fun _ _ _ => 7%Q) 1 0 1)
      as (_ & H & _); [simpl; lia | simpl; lia |].
    apply H. simpl. lia.
Defined.

(** The four cells of the example window have the offsets 0, 1, 2, 3. *)
Lemma window_offsets_contiguous_witness :
  map (cell_offset ex_window) (window_cells ex_window) = [0; 1; 2; 3] /\
  window_size ex_window = 4 /\
  0 <= buf_offset ex_window 0 1 1 < 4.
Proof.
  destruct (window_offsets_contiguous ex_window) as (E & _ & Hsz & Hb).
  split; [exact E|]. split.
  - rewrite Hsz; [reflexivity | simpl; lia ..].
  - apply (Hb 1 1 0). unfold in_window. simpl. lia.
Defined.

(** Cell (1,0,0) lies in the example window and is visited; cell (2,0,0)
    does not and is not. *)
Lemma window_cells_exact_witness :
  (0 <= bje ex_window - bjs ex_window + 1 \/ 0 <= bke ex_window - bks ex_window + 1) /\
  (1, 0, 0) ∈ window_cells ex_window /\ (2, 0, 0) ∉ window_cells ex_window.
Proof.
  assert (H : 0 <= bje ex_window - bjs ex_window + 1 \/ 0 <= bke ex_window - bks ex_window + 1)
    by (left; simpl; lia).
  split; [exact H|]. split.
  - apply (window_cells_exact ex_window H). unfold in_window. simpl. lia.
  - intros Hin. apply (window_cells_exact ex_window H) in Hin.
    unfold in_window in Hin. simpl in Hin. lia.
Defined.

(** With 56 slots and 3 variables, league rank 200 is that of block 1,
    slot 10, variable 2. *)
Lemma team_index_roundtrip_witness :
  (0 <= nmb ex_pack /\ 0 <= nnghbr ex_pack /\ 0 <= 3) /\
  team_indices ex_pack 3 200 = (1, 10, 2).
Proof.
  assert (H : 0 <= nmb ex_pack /\ 0 <= nnghbr ex_pack /\ 0 <= 3) by (simpl; lia).
  split; [exact H|]. destruct H as (Hb & Hs & Hv).
  destruct (team_index_roundtrip ex_pack 3 Hb Hs Hv) as (_ & Hd & _).
  destruct (Hd 1 10 2) as (_ & E); [simpl; lia ..|]. exact E.
Defined.
